(** * gridCrawler: grid generation and player-state progression

    A shallow embedding of the game logic of the page component
    (constants, [CELL_EFFECTS], [initializeGameData], [resetGame], the
    timer effect and the game tick effect of [NowPlayingScreen], and the
    save / load handlers), followed by the properties proved of it.

    Conventions.
    - JavaScript numbers that hold counters or grid indices (health,
      moves, seconds left, [gridX], [gridZ]) are integers [Z]: they start
      from integer constants and only ever have integers added to them.
    - World coordinates and the values of [Math.random()] are exact
      rationals [Q], and the arithmetic on them is exact, where the code
      computes in binary64.  The two agree except where a rounded sum or
      product falls on the other side of an integer or of a threshold,
      which takes an operand within about [2^-48] of it; the properties
      that speak of thresholds are stated with a margin of [2^-40].
    - A React state variable is a field of the record [State]; a handler
      is a function from the state it closes over to the state committed
      by its [set...] calls, and handlers run one at a time, each on the
      state the previous one committed.  Scene-graph attribute writes,
      pointer lock and the screen flashes do not feed back into the state
      and are left out. *)

From Stdlib Require Import ZArith QArith Qround List String Ascii Bool Lia.
From Stdlib Require Import DecimalString Lqa.
From Stdlib Require DecimalPos DecimalZ.
Import ListNotations.

Local Open Scope string_scope.
Local Open Scope list_scope.
Local Open Scope Z_scope.

(** ** Numbers, strings and small JavaScript helpers *)

(** Template-literal rendering of an integer number: [`${n}`]. *)
Definition numToString (n : Z) : string :=
  NilZero.string_of_int (Z.to_int n).

(** [Math.round]: nearest integer, ties towards plus infinity. *)
Definition Math_round (q : Q) : Z := Qfloor (q + (1 # 2))%Q.

(** [Math.floor]. *)
Definition Math_floor (q : Q) : Z := Qfloor q.

(** [a < b] on rationals, as a boolean. *)
Definition Qltb (a b : Q) : bool := negb (Qle_bool b a).

(** ** Cell types and their effects *)

Inductive GridCellType := BLANK | SPEEDER | LAVA | MUD.

Definition GridCellType_eqb (a b : GridCellType) : bool :=
  match a, b with
  | BLANK, BLANK | SPEEDER, SPEEDER | LAVA, LAVA | MUD, MUD => true
  | _, _ => false
  end.

(** The enum's string values. *)
Definition GridCellType_value (t : GridCellType) : string :=
  match t with
  | BLANK => "blank"
  | SPEEDER => "speeder"
  | LAVA => "lava"
  | MUD => "mud"
  end.

Record CellEffect := mkCellEffect {
  healthChange : Z;
  movesChange : Z;
  color : string;
  name : string
}.

Definition CELL_EFFECTS (t : GridCellType) : CellEffect :=
  match t with
  | BLANK => mkCellEffect 0 (-1) "#DDDDDD" "Blank"
  | SPEEDER => mkCellEffect (-5) 0 "#ADD8E6" "Speeder"
  | LAVA => mkCellEffect (-50) (-10) "#FF4500" "Lava"
  | MUD => mkCellEffect (-10) (-5) "#A0522D" "Mud"
  end.

Module GridCell.
Record t := mk {
  id : string;
  type : GridCellType;
  x : Q;
  z : Q;
  gridX : Z;
  gridZ : Z
}.
End GridCell.

Inductive DifficultyLevel := easy | medium | hell.

(** ** Constants *)

Definition GRID_SIZE : Z := 25.
Definition CELL_UNIT_SIZE : Z := 1.
Definition INITIAL_PLAYER_HEALTH : Z := 100.
Definition INITIAL_PLAYER_MOVES : Z := 200.
Definition GAME_DURATION_SECONDS : Z := 60.

(** [DIFFICULTY_SETTINGS[d].blankRatio]: 0.8, 0.55, 0.3. *)
Definition blankRatio (d : DifficultyLevel) : Q :=
  match d with
  | easy => 8 # 10
  | medium => 55 # 100
  | hell => 3 # 10
  end.

(** World coordinate of a grid index:
    [(i - GRID_SIZE / 2 + 0.5) * CELL_UNIT_SIZE]. *)
Definition worldOfIndex (i : Z) : Q :=
  ((inject_Z i - inject_Z GRID_SIZE / 2 + (1 # 2)) * inject_Z CELL_UNIT_SIZE)%Q.

(** Grid index of a world coordinate, before clamping:
    [Math.round(w / CELL_UNIT_SIZE + GRID_SIZE / 2 - 0.5)]. *)
Definition indexOfWorld (w : Q) : Z :=
  Math_round (w / inject_Z CELL_UNIT_SIZE + inject_Z GRID_SIZE / 2 - (1 # 2))%Q.

(** [Math.max(0, Math.min(GRID_SIZE - 1, g))]. *)
Definition clampIndex (g : Z) : Z := Z.max 0 (Z.min (GRID_SIZE - 1) g).

(** A pair of grid indices [{x, z}]. *)
Definition Indices := (Z * Z)%type.
Definition ix (c : Indices) : Z := fst c.
Definition iz (c : Indices) : Z := snd c.

Definition Indices_eqb (a b : Indices) : bool :=
  (ix a =? ix b) && (iz a =? iz b).

(** [gridData[i]?.[j]]: the cell, or nothing where a row or a cell is
    missing. *)
Definition cellAt (grid : list (list GridCell.t)) (i j : Z) : option GridCell.t :=
  if (i <? 0) || (j <? 0) then None
  else match nth_error grid (Z.to_nat i) with
       | Some row => nth_error row (Z.to_nat j)
       | None => None
       end.

(** The key of a cell in the visited trail: [`${x},${z}`]. *)
Definition cellKey (c : Indices) : string :=
  (numToString (ix c) ++ "," ++ numToString (iz c))%string.

(** [new Set(trail).add(key)] on the insertion-ordered representation of
    a JavaScript [Set]: a list without repetition, a new key goes last. *)
Definition Set_add (key : string) (trail : list string) : list string :=
  if existsb (String.eqb key) trail then trail else trail ++ [key].

(** [new Set(array)]: the first occurrence of each element, in order. *)
Fixpoint Set_ofArray_acc (acc array : list string) : list string :=
  match array with
  | [] => acc
  | k :: rest => Set_ofArray_acc (Set_add k acc) rest
  end.

Definition Set_ofArray (array : list string) : list string :=
  Set_ofArray_acc [] array.

(** ** The state of [NowPlayingScreen] *)

Record State := mkState {
  difficulty : DifficultyLevel;
  gameId : Z;
  gridData : list (list GridCell.t);
  playerStartPos : Q * Q;            (* x and z; y is a constant *)
  startMarkerPos : Q * Q;
  endMarkerPos : Q * Q;
  currentGridIndices : Indices;
  actualStartCellIndices : Indices;
  endCell : Indices;
  visitedCellTrail : list string;
  playerHealth : Z;
  playerMoves : Z;
  timeLeft : Z;
  gameOver : bool;
  timerGameOver : bool;
  hasWon : bool;
  lastMessage : string;
  isFpsView : bool;
  debugPlayerPos : Q * Q             (* debugInfo.playerPosX / playerPosZ *)
}.

(** The [set...] calls used by the effects. *)
Definition setVisitedCellTrail (f : list string -> list string) (s : State) : State :=
  let 'mkState d g gr ps sm em cur st en tr h m t go tg w msg fps dbg := s in
  mkState d g gr ps sm em cur st en (f tr) h m t go tg w msg fps dbg.

Definition setCurrentGridIndices (v : Indices) (s : State) : State :=
  let 'mkState d g gr ps sm em cur st en tr h m t go tg w msg fps dbg := s in
  mkState d g gr ps sm em v st en tr h m t go tg w msg fps dbg.

Definition setPlayerHealth (v : Z) (s : State) : State :=
  let 'mkState d g gr ps sm em cur st en tr h m t go tg w msg fps dbg := s in
  mkState d g gr ps sm em cur st en tr v m t go tg w msg fps dbg.

Definition setPlayerMoves (v : Z) (s : State) : State :=
  let 'mkState d g gr ps sm em cur st en tr h m t go tg w msg fps dbg := s in
  mkState d g gr ps sm em cur st en tr h v t go tg w msg fps dbg.

Definition setTimeLeft (f : Z -> Z) (s : State) : State :=
  let 'mkState d g gr ps sm em cur st en tr h m t go tg w msg fps dbg := s in
  mkState d g gr ps sm em cur st en tr h m (f t) go tg w msg fps dbg.

Definition setGameOver (v : bool) (s : State) : State :=
  let 'mkState d g gr ps sm em cur st en tr h m t go tg w msg fps dbg := s in
  mkState d g gr ps sm em cur st en tr h m t v tg w msg fps dbg.

Definition setTimerGameOver (v : bool) (s : State) : State :=
  let 'mkState d g gr ps sm em cur st en tr h m t go tg w msg fps dbg := s in
  mkState d g gr ps sm em cur st en tr h m t go v w msg fps dbg.

Definition setHasWon (v : bool) (s : State) : State :=
  let 'mkState d g gr ps sm em cur st en tr h m t go tg w msg fps dbg := s in
  mkState d g gr ps sm em cur st en tr h m t go tg v msg fps dbg.

Definition setLastMessage (v : string) (s : State) : State :=
  let 'mkState d g gr ps sm em cur st en tr h m t go tg w msg fps dbg := s in
  mkState d g gr ps sm em cur st en tr h m t go tg w v fps dbg.

(** [setDebugInfo] with the position that the render loop reads off the
    sphere, and [setIsFpsView] of the view key. *)
Definition setDebugPlayerPos (v : Q * Q) (s : State) : State :=
  let 'mkState d g gr ps sm em cur st en tr h m t go tg w msg fps dbg := s in
  mkState d g gr ps sm em cur st en tr h m t go tg w msg fps v.

Definition setIsFpsView (v : bool) (s : State) : State :=
  let 'mkState d g gr ps sm em cur st en tr h m t go tg w msg fps dbg := s in
  mkState d g gr ps sm em cur st en tr h m t go tg w msg v dbg.

(** The initial values of the state variables. *)
Definition initialState : State :=
  {| difficulty := medium; gameId := 0; gridData := [];
     playerStartPos := (0, 0)%Q; startMarkerPos := (0, 0)%Q;
     endMarkerPos := (0, 0)%Q; currentGridIndices := (0, 0);
     actualStartCellIndices := (0, 0); endCell := (0, 0);
     visitedCellTrail := []; playerHealth := INITIAL_PLAYER_HEALTH;
     playerMoves := INITIAL_PLAYER_MOVES; timeLeft := GAME_DURATION_SECONDS;
     gameOver := false; timerGameOver := false; hasWon := false;
     lastMessage := "Game Started!"; isFpsView := false;
     debugPlayerPos := (0, 0)%Q |}.

(** The five outcomes the screen distinguishes.  A win shows the win
    overlay, [timerGameOver] the time-out overlay, and [gameOver] alone
    the game-over overlay with the text of [lastMessage]. *)
Inductive Outcome := Ongoing | Won | LostHealth | LostMoves | LostTimeout.

Definition MSG_HEALTH : string := "Game Over: Health depleted!".
Definition MSG_MOVES : string := "Game Over: Ran out of moves!".
Definition MSG_WIN : string := "You Win! Congratulations!".
Definition MSG_TIME : string := "Time&apos;s Up! YOU LOSE!".

Definition outcome (s : State) : Outcome :=
  if hasWon s then Won
  else if timerGameOver s then LostTimeout
  else if gameOver s then
         if String.eqb (lastMessage s) MSG_HEALTH then LostHealth else LostMoves
  else Ongoing.

(** No terminal flag is set. *)
Definition isOngoing (s : State) : bool :=
  negb (gameOver s || hasWon s || timerGameOver s).

(** ** The timer effect

    The effect runs after every render in which [timeLeft] or a flag
    changed.  With a flag set it does nothing; at [timeLeft <= 0] it
    commits the time-out; otherwise it arms a one-second interval whose
    callback is [setTimeLeft(prevTime => prevTime - 1)]. *)
Definition timerEffect (s : State) : State :=
  if gameOver s || hasWon s || timerGameOver s then s
  else if timeLeft s <=? 0 then
         setGameOver true (setTimerGameOver true (setLastMessage MSG_TIME s))
  else s.

(** Whether the effect, run on [s], leaves an interval armed. *)
Definition timerArmed (s : State) : bool :=
  negb (gameOver s || hasWon s || timerGameOver s) && negb (timeLeft s <=? 0).

(** One firing of the interval (nothing fires when none is armed),
    followed by the re-run of the effect on the new state. *)
Definition onClockTick (s : State) : State :=
  if timerArmed s then timerEffect (setTimeLeft (fun prevTime => prevTime - 1) s)
  else s.

(** ** The game tick effect *)

(** The effect-name message of a move. *)
Definition signPrefix (n : Z) : string := if 0 <=? n then "+" else "".

Definition moveMessage (effect : CellEffect) : string :=
  ("Player on " ++ name effect ++ ": Health "
   ++ signPrefix (healthChange effect) ++ numToString (healthChange effect)
   ++ ", Moves "
   ++ signPrefix (movesChange effect) ++ numToString (movesChange effect)
   ++ ".")%string.

(** The body of the 100 ms interval callback, closed over the state [s]
    of the render that armed it, at the sphere position [position]
    (its [x] and [z]). *)
Definition gameTick (s : State) (position : Q * Q) : State :=
  let gridX := indexOfWorld (fst position) in
  let gridZ := indexOfWorld (snd position) in
  let clampedGridX := clampIndex gridX in
  let clampedGridZ := clampIndex gridZ in
  let cur := currentGridIndices s in
  if negb (clampedGridX =? ix cur) || negb (clampedGridZ =? iz cur) then
    let s1 :=
      match cellAt (gridData s) (ix cur) (iz cur) with
      | Some _ =>
          let prevCellKey := cellKey cur in
          let isPrevStart := Indices_eqb cur (actualStartCellIndices s) in
          let isPrevEnd := Indices_eqb cur (endCell s) in
          if negb isPrevStart && negb isPrevEnd
          then setVisitedCellTrail (Set_add prevCellKey) s
          else s
      | None => s
      end in
    let s2 := setCurrentGridIndices (clampedGridX, clampedGridZ) s1 in
    match cellAt (gridData s) clampedGridX clampedGridZ with
    | Some currentCellData =>
        if (clampedGridX =? ix (endCell s)) && (clampedGridZ =? iz (endCell s)) then
          setLastMessage MSG_WIN (setGameOver true (setHasWon true s2))
        else
          let effect := CELL_EFFECTS (GridCell.type currentCellData) in
          let newHealth := playerHealth s + healthChange effect in
          let newMoves := playerMoves s + movesChange effect in
          let s3 := setPlayerMoves newMoves (setPlayerHealth newHealth s2) in
          let message := moveMessage effect in
          let '(message, s4) :=
            if (newHealth <=? 0) || (newMoves <=? 0) then
              if negb (timerGameOver s)
              then ((if newHealth <=? 0 then MSG_HEALTH else MSG_MOVES),
                    setGameOver true s3)
              else (message, s3)
            else (message, s3) in
          if negb (gameOver s) && negb (hasWon s) && negb (timerGameOver s)
          then setLastMessage message s4
          else s4
    | None => s2
    end
  else s.

(** The effect arms the interval only when neither [gameOver] nor
    [hasWon] is set; a sample then runs the callback.  (The timer effect
    does not depend on what the callback changes, except for the flags,
    and with a flag set it returns at once.) *)
Definition onPositionSample (s : State) (position : Q * Q) : State :=
  if gameOver s || hasWon s then s else gameTick s position.

(** ** The randomness source

    A value of [Math.random()] is a rational in [[0, 1)]; the bound is
    part of the value.  The source is the sequence of values the calls
    return, and a computation that draws from it threads the number of
    calls made so far.  A computation may also fail to produce a value:
    that is how the rejection loop of [getRandomPerimeterCell], which
    has no bound on its iterations, is given a structurally decreasing
    [fuel]. *)

Record Draw := mkDraw {
  dnum : N;
  dden : positive;
  dbound : (dnum <? Npos dden)%N = true
}.

Definition Draw_value (d : Draw) : Q := Z.of_N (dnum d) # dden d.

Definition Rand (A : Type) : Type := nat -> option (A * nat).

Definition ret {A} (a : A) : Rand A := fun c => Some (a, c).

Definition bind {A B} (m : Rand A) (k : A -> Rand B) : Rand B :=
  fun c => match m c with
           | Some (a, c') => k a c'
           | None => None
           end.

Definition diverge {A} : Rand A := fun _ => None.

Notation "x <- m ;; k" := (bind m (fun x => k))
  (at level 61, m at next level, right associativity).

(** [Math.floor(r * (max - min) + min)], the value of [getRandomInt]
    when [Math.random()] returns [r]. *)
Definition randomInt (min max : Z) (r : Q) : Z :=
  Math_floor (r * inject_Z (max - min) + inject_Z min)%Q.

(** The cell that the [switch (edge)] of [getRandomPerimeterCell] yields
    for an edge and the offset drawn along it (lemma
    [perimeterAttempt_eq] relates it to the loop body). *)
Definition perimeterCellOf (edge offset : Z) : Indices :=
  match edge with
  | 0 => (offset, 0)
  | 1 => (offset, GRID_SIZE - 1)
  | 2 => (0, offset)
  | _ => (GRID_SIZE - 1, offset)
  end.

Definition effectCellTypes : list GridCellType := [SPEEDER; LAVA; MUD].

(** [effectCellTypes[Math.floor(r * effectCellTypes.length)]].  The index
    is below the length for every [r] in [[0, 1)] (lemma
    [effectIndex_range]), so the default of [nth] is never returned. *)
Definition effectIndex (r : Q) : Z :=
  Math_floor (r * inject_Z (Z.of_nat (List.length effectCellTypes)))%Q.

Definition pickEffectType (r : Q) : GridCellType :=
  nth (Z.to_nat (effectIndex r)) effectCellTypes BLANK.

(** Loop indices [0 .. GRID_SIZE - 1]. *)
Definition gridIndices : list Z := map Z.of_nat (seq 0 (Z.to_nat GRID_SIZE)).

Definition cellId (i j : Z) : string :=
  ("cell-" ++ numToString i ++ "-" ++ numToString j)%string.

Fixpoint forEach {A B} (f : A -> Rand B) (l : list A) : Rand (list B) :=
  match l with
  | [] => ret []
  | a :: rest => b <- f a ;; bs <- forEach f rest ;; ret (b :: bs)
  end.

Section Generator.

(** [rnd n] is what the [n]-th call of [Math.random()] returns. *)
Variable rnd : nat -> Draw.

Definition Math_random : Rand Q :=
  fun c => Some (Draw_value (rnd c), S c).

Definition getRandomInt (min max : Z) : Rand Z :=
  r <- Math_random ;; ret (randomInt min max r).

(** One pass through the body of the do-while loop. *)
Definition perimeterAttempt : Rand Indices :=
  edge <- getRandomInt 0 4 ;;
  match edge with
  | 0 => gx <- getRandomInt 0 GRID_SIZE ;; ret (gx, 0)
  | 1 => gx <- getRandomInt 0 GRID_SIZE ;; ret (gx, GRID_SIZE - 1)
  | 2 => gz <- getRandomInt 0 GRID_SIZE ;; ret (0, gz)
  | _ => gz <- getRandomInt 0 GRID_SIZE ;; ret (GRID_SIZE - 1, gz)
  end.

Fixpoint getRandomPerimeterCell (fuel : nat) (excludeGridX excludeGridZ : Z)
  : Rand Indices :=
  match fuel with
  | O => diverge
  | S fuel' =>
      cell <- perimeterAttempt ;;
      if (ix cell =? excludeGridX) && (iz cell =? excludeGridZ)
      then getRandomPerimeterCell fuel' excludeGridX excludeGridZ
      else ret cell
  end.

Definition generateCellType (startCellIndices endCellIndices : Indices)
    (blankCellRatio : Q) (i j : Z) : Rand GridCellType :=
  if ((i =? ix startCellIndices) && (j =? iz startCellIndices))
     || ((i =? ix endCellIndices) && (j =? iz endCellIndices))
  then ret BLANK
  else
    r <- Math_random ;;
    if Qltb r blankCellRatio then ret BLANK
    else r' <- Math_random ;; ret (pickEffectType r').

Definition generateCell (startCellIndices endCellIndices : Indices)
    (blankCellRatio : Q) (i j : Z) : Rand GridCell.t :=
  cellType <- generateCellType startCellIndices endCellIndices blankCellRatio i j ;;
  ret (GridCell.mk (cellId i j) cellType (worldOfIndex i) (worldOfIndex j) i j).

Definition initializeGameData (fuel : nat) (difficulty : DifficultyLevel)
  : Rand (list (list GridCell.t) * Indices * Indices) :=
  let blankCellRatio := blankRatio difficulty in
  startCellIndices <- getRandomPerimeterCell fuel (-1) (-1) ;;
  endCellIndices <-
    getRandomPerimeterCell fuel (ix startCellIndices) (iz startCellIndices) ;;
  grid <- forEach (fun i =>
            forEach (generateCell startCellIndices endCellIndices blankCellRatio i)
                    gridIndices)
          gridIndices ;;
  ret (grid, startCellIndices, endCellIndices).

End Generator.

(** ** The saved game: the [GameState] interface *)

Module GameState.
Record Player := mkPlayer {
  gridX : Z;
  gridZ : Z;
  worldX : Q;
  worldZ : Q;
  health : Z;
  moves : Z
}.

Record Game := mkGame {
  timeLeft : Z;
  isFpsView : bool;
  currentCellType : option GridCellType;     (* [null] is [None] *)
  startCell : Indices;
  endCell : Indices;
  isOver : bool;
  hasWon : bool;
  timerGameOver : bool
}.

Record t := mk {
  playerName : string;
  difficulty : DifficultyLevel;
  player : Player;
  game : Game;
  gridData : list (list GridCell.t);
  visitedCellTrail : list string
}.
End GameState.

(** ** [resetGame] *)

Section Reset.

Variable rnd : nat -> Draw.

(** [resetGame(newDifficulty, stateToLoad)] on the state [s]: the fields
    it does not set keep their value. *)
Definition resetGame (fuel : nat) (newDifficulty : DifficultyLevel)
    (stateToLoad : option GameState.t) (s : State) : Rand State :=
  match stateToLoad with
  | Some st =>
      let p := GameState.player st in
      let g := GameState.game st in
      ret {| difficulty := GameState.difficulty st;
             gameId := gameId s + 1;
             gridData := GameState.gridData st;
             playerStartPos := (GameState.worldX p, GameState.worldZ p);
             startMarkerPos := (worldOfIndex (ix (GameState.startCell g)),
                                worldOfIndex (iz (GameState.startCell g)));
             endMarkerPos := (worldOfIndex (ix (GameState.endCell g)),
                              worldOfIndex (iz (GameState.endCell g)));
             currentGridIndices := (GameState.gridX p, GameState.gridZ p);
             actualStartCellIndices := GameState.startCell g;
             endCell := GameState.endCell g;
             visitedCellTrail := Set_ofArray (GameState.visitedCellTrail st);
             playerHealth := GameState.health p;
             playerMoves := GameState.moves p;
             timeLeft := GameState.timeLeft g;
             gameOver := false;
             timerGameOver := false;
             hasWon := false;
             lastMessage := "Game Loaded!";
             isFpsView := GameState.isFpsView g;
             debugPlayerPos := debugPlayerPos s |}
  | None =>
      data <- initializeGameData rnd fuel newDifficulty ;;
      let '(grid, startCellIndices, endCellIndices) := data in
      ret {| difficulty := difficulty s;
             gameId := gameId s + 1;
             gridData := grid;
             playerStartPos := (worldOfIndex (ix startCellIndices),
                                worldOfIndex (iz startCellIndices));
             startMarkerPos := (worldOfIndex (ix startCellIndices),
                                worldOfIndex (iz startCellIndices));
             endMarkerPos := (worldOfIndex (ix endCellIndices),
                              worldOfIndex (iz endCellIndices));
             currentGridIndices := startCellIndices;
             actualStartCellIndices := startCellIndices;
             endCell := endCellIndices;
             visitedCellTrail := Set_ofArray [];
             playerHealth := INITIAL_PLAYER_HEALTH;
             playerMoves := INITIAL_PLAYER_MOVES;
             timeLeft := GAME_DURATION_SECONDS;
             gameOver := false;
             timerGameOver := false;
             hasWon := false;
             lastMessage := "Game Reset! Good luck!";
             isFpsView := false;
             debugPlayerPos := debugPlayerPos s |}
  end.

End Reset.

(** ** Saving

    [handleSaveGame] builds the [GameState] object from the state of the
    screen and the [playerName] prop. *)
Definition currentGameStateForSave (playerName : string) (s : State) : GameState.t :=
  let cur := currentGridIndices s in
  {| GameState.playerName := playerName;
     GameState.difficulty := difficulty s;
     GameState.player :=
       {| GameState.gridX := ix cur;
          GameState.gridZ := iz cur;
          GameState.worldX := fst (debugPlayerPos s);
          GameState.worldZ := snd (debugPlayerPos s);
          GameState.health := playerHealth s;
          GameState.moves := playerMoves s |};
     GameState.game :=
       {| GameState.timeLeft := timeLeft s;
          GameState.isFpsView := isFpsView s;
          GameState.currentCellType :=
            option_map GridCell.type (cellAt (gridData s) (ix cur) (iz cur));
          GameState.startCell := actualStartCellIndices s;
          GameState.endCell := endCell s;
          GameState.isOver := gameOver s;
          GameState.hasWon := hasWon s;
          GameState.timerGameOver := timerGameOver s |};
     GameState.gridData := gridData s;
     GameState.visitedCellTrail := visitedCellTrail s |}.

(** ** Documents

    What [JSON.stringify] writes to local storage and [JSON.parse] reads
    back is modelled as the document tree the two agree on.  An object is
    the list of its properties in insertion order. *)

#[local] Set Warnings "-register-all".

Inductive JSON :=
| JNull
| JBool (b : bool)
| JNumber (q : Q)
| JString (s : string)
| JArray (items : list JSON)
| JObject (props : list (string * JSON)).

(** [obj.key]: [None] is [undefined]. *)
Fixpoint assoc (key : string) (props : list (string * JSON)) : option JSON :=
  match props with
  | [] => None
  | (k, v) :: rest => if String.eqb k key then Some v else assoc key rest
  end.

Definition getProp (key : string) (doc : JSON) : option JSON :=
  match doc with
  | JObject props => assoc key props
  | _ => None
  end.

(** [obj.key = v]: an existing property keeps its place, a new one goes
    last. *)
Fixpoint assign (key : string) (v : JSON) (props : list (string * JSON))
  : list (string * JSON) :=
  match props with
  | [] => [(key, v)]
  | (k, w) :: rest =>
      if String.eqb k key then (k, v) :: rest else (k, w) :: assign key v rest
  end.

(** *** Writing a [GameState] *)

Definition JInt (n : Z) : JSON := JNumber (inject_Z n).

Definition DifficultyLevel_value (d : DifficultyLevel) : string :=
  match d with
  | easy => "easy"
  | medium => "medium"
  | hell => "hell"
  end.

Definition Indices_toJSON (c : Indices) : JSON :=
  JObject [("x", JInt (ix c)); ("z", JInt (iz c))].

Definition GridCell_toJSON (c : GridCell.t) : JSON :=
  JObject [("id", JString (GridCell.id c));
           ("type", JString (GridCellType_value (GridCell.type c)));
           ("gridX", JInt (GridCell.gridX c));
           ("gridZ", JInt (GridCell.gridZ c));
           ("x", JNumber (GridCell.x c));
           ("z", JNumber (GridCell.z c))].

Definition Player_toJSON (p : GameState.Player) : JSON :=
  JObject [("gridX", JInt (GameState.gridX p));
           ("gridZ", JInt (GameState.gridZ p));
           ("worldX", JNumber (GameState.worldX p));
           ("worldZ", JNumber (GameState.worldZ p));
           ("health", JInt (GameState.health p));
           ("moves", JInt (GameState.moves p))].

Definition Game_toJSON (g : GameState.Game) : JSON :=
  JObject [("timeLeft", JInt (GameState.timeLeft g));
           ("isFpsView", JBool (GameState.isFpsView g));
           ("currentCellType",
              match GameState.currentCellType g with
              | Some t => JString (GridCellType_value t)
              | None => JNull
              end);
           ("startCell", Indices_toJSON (GameState.startCell g));
           ("endCell", Indices_toJSON (GameState.endCell g));
           ("isOver", JBool (GameState.isOver g));
           ("hasWon", JBool (GameState.hasWon g));
           ("timerGameOver", JBool (GameState.timerGameOver g))].

(** [JSON.stringify(currentGameStateForSave)]. *)
Definition GameState_toJSON (st : GameState.t) : JSON :=
  JObject [("playerName", JString (GameState.playerName st));
           ("difficulty", JString (DifficultyLevel_value (GameState.difficulty st)));
           ("player", Player_toJSON (GameState.player st));
           ("game", Game_toJSON (GameState.game st));
           ("gridData",
              JArray (map (fun row => JArray (map GridCell_toJSON row))
                          (GameState.gridData st)));
           ("visitedCellTrail",
              JArray (map JString (GameState.visitedCellTrail st)))].

(** *** Loading

    [handleLoadGame(pName)], given the parsed content of the storage slot
    of [pName] ([None]: the slot is empty or does not parse).  The result
    is the loaded object, or [None] for [null]. *)
Definition handleLoadGame (pName : string) (stored : option JSON) : option JSON :=
  match stored with
  | Some (JObject props) =>
      match assoc "playerName" props with
      | Some (JString n) =>
          if String.eqb n pName then
            (* Array.isArray(trail) ? trail : [] *)
            let trail := assoc "visitedCellTrail" props in
            Some (JObject (assign "visitedCellTrail"
                             (match trail with
                              | Some (JArray items) => JArray items
                              | _ => JArray []
                              end)
                             props))
          else None
      | _ => None
      end
  | _ => None
  end.

(** *** Reading a document at the type [GameState]

    The cast [as GameState] checks nothing; [asGameState] is the reading
    of a document under which the cast is what the interface says, and is
    undefined on every other document. *)

Definition obind {A B} (o : option A) (k : A -> option B) : option B :=
  match o with
  | Some a => k a
  | None => None
  end.

Notation "x <-? o ;; k" := (obind o (fun x => k))
  (at level 61, o at next level, right associativity).

Fixpoint traverse {A B} (f : A -> option B) (l : list A) : option (list B) :=
  match l with
  | [] => Some []
  | a :: rest => b <-? f a ;; bs <-? traverse f rest ;; Some (b :: bs)
  end.

Definition asNumber (v : JSON) : option Q :=
  match v with JNumber q => Some q | _ => None end.

Definition asInt (v : JSON) : option Z :=
  match v with
  | JNumber (n # 1) => Some n
  | _ => None
  end.

Definition asBool (v : JSON) : option bool :=
  match v with JBool b => Some b | _ => None end.

Definition asString (v : JSON) : option string :=
  match v with JString s => Some s | _ => None end.

Definition asArray (v : JSON) : option (list JSON) :=
  match v with JArray l => Some l | _ => None end.

Definition asGridCellType (v : JSON) : option GridCellType :=
  s <-? asString v ;;
  if String.eqb s "blank" then Some BLANK
  else if String.eqb s "speeder" then Some SPEEDER
  else if String.eqb s "lava" then Some LAVA
  else if String.eqb s "mud" then Some MUD
  else None.

Definition asDifficultyLevel (v : JSON) : option DifficultyLevel :=
  s <-? asString v ;;
  if String.eqb s "easy" then Some easy
  else if String.eqb s "medium" then Some medium
  else if String.eqb s "hell" then Some hell
  else None.

Definition field {A} (key : string) (read : JSON -> option A) (doc : JSON)
  : option A :=
  v <-? getProp key doc ;; read v.

Definition asIndices (v : JSON) : option Indices :=
  x <-? field "x" asInt v ;;
  z <-? field "z" asInt v ;;
  Some (x, z).

Definition asGridCell (v : JSON) : option GridCell.t :=
  id <-? field "id" asString v ;;
  type <-? field "type" asGridCellType v ;;
  gridX <-? field "gridX" asInt v ;;
  gridZ <-? field "gridZ" asInt v ;;
  x <-? field "x" asNumber v ;;
  z <-? field "z" asNumber v ;;
  Some (GridCell.mk id type x z gridX gridZ).

Definition asPlayer (v : JSON) : option GameState.Player :=
  gridX <-? field "gridX" asInt v ;;
  gridZ <-? field "gridZ" asInt v ;;
  worldX <-? field "worldX" asNumber v ;;
  worldZ <-? field "worldZ" asNumber v ;;
  health <-? field "health" asInt v ;;
  moves <-? field "moves" asInt v ;;
  Some (GameState.mkPlayer gridX gridZ worldX worldZ health moves).

Definition asCurrentCellType (v : JSON) : option (option GridCellType) :=
  match v with
  | JNull => Some None
  | _ => t <-? asGridCellType v ;; Some (Some t)
  end.

Definition asGame (v : JSON) : option GameState.Game :=
  timeLeft <-? field "timeLeft" asInt v ;;
  isFpsView <-? field "isFpsView" asBool v ;;
  currentCellType <-? field "currentCellType" asCurrentCellType v ;;
  startCell <-? field "startCell" asIndices v ;;
  endCell <-? field "endCell" asIndices v ;;
  isOver <-? field "isOver" asBool v ;;
  hasWon <-? field "hasWon" asBool v ;;
  timerGameOver <-? field "timerGameOver" asBool v ;;
  Some (GameState.mkGame timeLeft isFpsView currentCellType startCell endCell
                         isOver hasWon timerGameOver).

Definition asGrid (v : JSON) : option (list (list GridCell.t)) :=
  rows <-? asArray v ;;
  traverse (fun row => cells <-? asArray row ;; traverse asGridCell cells) rows.

Definition asTrail (v : JSON) : option (list string) :=
  items <-? asArray v ;; traverse asString items.

Definition asGameState (doc : JSON) : option GameState.t :=
  playerName <-? field "playerName" asString doc ;;
  difficulty <-? field "difficulty" asDifficultyLevel doc ;;
  player <-? field "player" asPlayer doc ;;
  game <-? field "game" asGame doc ;;
  gridData <-? field "gridData" asGrid doc ;;
  visitedCellTrail <-? field "visitedCellTrail" asTrail doc ;;
  Some (GameState.mk playerName difficulty player game gridData visitedCellTrail).

(** The [GameState | null] that [handleLoadGame] hands to its caller. *)
Definition loadedGameState (pName : string) (stored : option JSON)
  : option GameState.t :=
  loadedData <-? handleLoadGame pName stored ;; asGameState loadedData.

(** * Vocabulary of the properties

    Predicates, derived states, the reachable states and the worked
    examples that the statements below are about. *)

(** ** The clock *)

(** The committed state after [n] firings of the one-second interval. *)
Definition clockLoop (n : nat) (s : State) : State := Nat.iter n onClockTick s.

(** A game with three seconds left: two ticks leave one second, the third
    commits the time-out at zero, and a fourth changes nothing. *)
Definition demoClockState : State :=
  {| difficulty := easy; gameId := 1; gridData := [];
     playerStartPos := (0, 0)%Q; startMarkerPos := (0, 0)%Q;
     endMarkerPos := (0, 0)%Q; currentGridIndices := (0, 0);
     actualStartCellIndices := (0, 0); endCell := (0, 12);
     visitedCellTrail := []; playerHealth := 100; playerMoves := 200;
     timeLeft := 3; gameOver := false; timerGameOver := false;
     hasWon := false; lastMessage := "Game Reset! Good luck!";
     isFpsView := false; debugPlayerPos := (0, 0)%Q |}.

(** ** The board *)

(** Positions on the board and on its outer ring. *)
Definition inGrid (c : Indices) : Prop :=
  0 <= ix c < GRID_SIZE /\ 0 <= iz c < GRID_SIZE.

Definition onPerimeter (c : Indices) : Prop :=
  inGrid c
  /\ (ix c = 0 \/ ix c = GRID_SIZE - 1 \/ iz c = 0 \/ iz c = GRID_SIZE - 1).

(** The cell proposed by the loop body when it starts at call [c] of the
    source [rnd]. *)
Definition attemptAt (rnd : nat -> Draw) (c : nat) : Indices :=
  perimeterCellOf (randomInt 0 4 (Draw_value (rnd c)))
                  (randomInt 0 GRID_SIZE (Draw_value (rnd (S c)))).

(** What the loop body stores in [grid[i][j]]. *)
Definition cellOk (startCellIndices endCellIndices : Indices) (i j : Z)
    (cell : GridCell.t) : Prop :=
  GridCell.id cell = cellId i j
  /\ GridCell.gridX cell = i /\ GridCell.gridZ cell = j
  /\ GridCell.x cell = worldOfIndex i /\ GridCell.z cell = worldOfIndex j
  /\ In (GridCell.type cell) [BLANK; SPEEDER; LAVA; MUD]
  /\ ((i, j) = startCellIndices \/ (i, j) = endCellIndices ->
      GridCell.type cell = BLANK).

(** A full board: every position of the square holds its cell. *)
Definition gridOk (startCellIndices endCellIndices : Indices)
    (grid : list (list GridCell.t)) : Prop :=
  forall i j, 0 <= i < GRID_SIZE -> 0 <= j < GRID_SIZE ->
    exists cell, cellAt grid i j = Some cell
                 /\ cellOk startCellIndices endCellIndices i j cell.

(** The two nested loops of [initializeGameData]. *)
Definition generateGrid (rnd : nat -> Draw)
    (startCellIndices endCellIndices : Indices) (blankCellRatio : Q)
  : Rand (list (list GridCell.t)) :=
  forEach (fun i =>
    forEach (generateCell rnd startCellIndices endCellIndices blankCellRatio i)
            gridIndices)
  gridIndices.

(** What the generator promises of its result. *)
Definition validGameData (data : list (list GridCell.t) * Indices * Indices)
  : Prop :=
  let '(grid, startCellIndices, endCellIndices) := data in
  startCellIndices <> endCellIndices
  /\ onPerimeter startCellIndices /\ onPerimeter endCellIndices
  /\ gridOk startCellIndices endCellIndices grid.

(** A source that proposes the corner (0, 0) as start cell, proposes it
    again for the end cell, then (0, 12); the first cell drawn after that,
    (0, 1), becomes Lava and every other cell Blank. *)
Definition drawZero : Draw := mkDraw 0 1 eq_refl.
Definition drawHalf : Draw := mkDraw 1 2 eq_refl.
Definition drawHigh : Draw := mkDraw 9 10 eq_refl.

Definition demoRnd (n : nat) : Draw :=
  match n with
  | 4 | 5 | 7 => drawHalf
  | 6 => drawHigh
  | _ => drawZero
  end%nat.

(** ** Samples and sessions *)

(** The clamped grid indices of a sphere position. *)
Definition sampleCell (position : Q * Q) : Indices :=
  (clampIndex (indexOfWorld (fst position)),
   clampIndex (indexOfWorld (snd position))).

(** The trail after leaving the cell [cur]. *)
Definition trailAfterLeaving (s : State) : list string :=
  let cur := currentGridIndices s in
  match cellAt (gridData s) (ix cur) (iz cur) with
  | Some _ =>
      if negb (Indices_eqb cur (actualStartCellIndices s))
         && negb (Indices_eqb cur (endCell s))
      then Set_add (cellKey cur) (visitedCellTrail s)
      else visitedCellTrail s
  | None => visitedCellTrail s
  end.

(** The state committed by a sample that wins. *)
Definition wonState (s : State) (c : Indices) : State :=
  {| difficulty := difficulty s; gameId := gameId s; gridData := gridData s;
     playerStartPos := playerStartPos s; startMarkerPos := startMarkerPos s;
     endMarkerPos := endMarkerPos s; currentGridIndices := c;
     actualStartCellIndices := actualStartCellIndices s; endCell := endCell s;
     visitedCellTrail := trailAfterLeaving s;
     playerHealth := playerHealth s; playerMoves := playerMoves s;
     timeLeft := timeLeft s; gameOver := true; timerGameOver := false;
     hasWon := true; lastMessage := MSG_WIN; isFpsView := isFpsView s;
     debugPlayerPos := debugPlayerPos s |}.

(** The state committed by a sample that moves onto a cell of type [t]
    other than the end cell. *)
Definition movedState (s : State) (c : Indices) (t : GridCellType) : State :=
  let effect := CELL_EFFECTS t in
  let newHealth := playerHealth s + healthChange effect in
  let newMoves := playerMoves s + movesChange effect in
  {| difficulty := difficulty s; gameId := gameId s; gridData := gridData s;
     playerStartPos := playerStartPos s; startMarkerPos := startMarkerPos s;
     endMarkerPos := endMarkerPos s; currentGridIndices := c;
     actualStartCellIndices := actualStartCellIndices s; endCell := endCell s;
     visitedCellTrail := trailAfterLeaving s;
     playerHealth := newHealth; playerMoves := newMoves;
     timeLeft := timeLeft s;
     gameOver := (newHealth <=? 0) || (newMoves <=? 0);
     timerGameOver := false; hasWon := false;
     lastMessage := if newHealth <=? 0 then MSG_HEALTH
                    else if newMoves <=? 0 then MSG_MOVES
                    else moveMessage effect;
     isFpsView := isFpsView s; debugPlayerPos := debugPlayerPos s |}.

(** The states the screen gets into: a new game; a game restored from a
    snapshot that the Save button took (the button is disabled once a
    terminal flag is set); and what position samples, clock ticks, the
    timer effect, and the two updates above make of such a state. *)
Inductive reachable : State -> Prop :=
| reach_new rnd fuel d s0 c s c' :
    resetGame rnd fuel d None s0 c = Some (s, c') -> reachable s
| reach_load rnd fuel d pName saved s0 c s c' :
    reachable saved -> isOngoing saved = true ->
    resetGame rnd fuel d (Some (currentGameStateForSave pName saved)) s0 c
    = Some (s, c') ->
    reachable s
| reach_sample s position :
    reachable s -> reachable (onPositionSample s position)
| reach_tick s : reachable s -> reachable (onClockTick s)
| reach_effect s : reachable s -> reachable (timerEffect s)
| reach_debug s v : reachable s -> reachable (setDebugPlayerPos v s)
| reach_view s v : reachable s -> reachable (setIsFpsView v s).

(** What holds of every reachable state: the board is full, a running
    game has the player off the end cell, and the time-out flag is never
    set without [gameOver]. *)
Definition playable (s : State) : Prop :=
  gridOk (actualStartCellIndices s) (endCell s) (gridData s)
  /\ (isOngoing s = true -> currentGridIndices s <> endCell s)
  /\ (timerGameOver s = true -> gameOver s = true).

(** Events of a session and the state they lead to. *)
Inductive Event := PositionSample (position : Q * Q) | ClockTick.

Definition step (s : State) (e : Event) : State :=
  match e with
  | PositionSample position => onPositionSample s position
  | ClockTick => onClockTick s
  end.

Definition run (events : list Event) (s : State) : State :=
  fold_left step events s.

(** *** A worked game

    The new game that [resetGame] makes of the source [demoRnd] at
    difficulty easy: the player starts on (0, 0), the end cell is
    (0, 12), and (0, 1) is Lava. *)
Definition demoGame : State :=
  Eval vm_compute in
    match resetGame demoRnd 2 easy None initialState 0%nat with
    | Some (s, _) => s
    | None => initialState
    end.

(** World positions of the centres of (0, 1) and of the end cell. *)
Definition atLava : Q * Q := (-12 # 1, -11 # 1)%Q.
Definition atEnd : Q * Q := (-12 # 1, 0)%Q.

(** Pacing between the blank cells (1, 0) and (0, 0), [n] moves. *)
Fixpoint pacing (n : nat) : list Event :=
  match n with
  | O => []
  | S n' =>
      PositionSample (if Nat.even n' then (-11 # 1, -12 # 1)%Q
                      else (-12 # 1, -12 # 1)%Q)
      :: pacing n'
  end.

(** After 199 such moves the player has one move left.  The end cell is
    Blank and would cost that move; the step onto it wins instead, and
    the move is not charged. *)
Definition demoLastMove : State := run (pacing 199) demoGame.

(** The demo game after sixty clock ticks is lost on time; a sample on
    the end cell leaves it so. *)
Definition demoTimedOut : State := run (repeat ClockTick 60) demoGame.

(** ** Stored documents *)

(** The fields a snapshot must have. *)
Definition requiredFields : list string :=
  ["playerName"; "difficulty"; "player"; "game"; "gridData"; "visitedCellTrail"].

(** A stored document with neither [gridData] nor [visitedCellTrail]. *)
Definition incompleteDoc : JSON :=
  JObject [("playerName", JString "ada");
           ("difficulty", JString "easy");
           ("player", Player_toJSON (GameState.mkPlayer 0 0 0 0 100 200));
           ("game", Game_toJSON (GameState.mkGame 60 false None (0, 0) (0, 12)
                                                  false false false))].

(** A stored document that lacks only [visitedCellTrail]. *)
Definition trailLessDoc : JSON :=
  JObject [("playerName", JString "ada");
           ("difficulty", JString "easy");
           ("player", Player_toJSON (GameState.mkPlayer 0 0 0 0 100 200));
           ("game", Game_toJSON (GameState.mkGame 60 false None (0, 0) (0, 12)
                                                  false false false));
           ("gridData", JArray [])].

(** ** The distribution of the start cell *)

(** The outcomes of one pass through the loop body: an edge and an
    offset along it. *)
Definition passes : list (Z * Z) := list_prod [0; 1; 2; 3] gridIndices.

(** The passes that yield the cell [c]. *)
Definition passesOnto (c : Indices) : list (Z * Z) :=
  filter (fun pass => Indices_eqb (perimeterCellOf (fst pass) (snd pass)) c)
         passes.

(** Under a uniform source the edge is each of its four values with
    probability 1/4 and the offset each of its 25 values with
    probability 1/25 (lemma [randomInt_interval]). *)
Definition passProbability : Q := ((1 # 4) * (1 # 25))%Q.

(** The probability that the start cell is [c]. *)
Definition startProbability (c : Indices) : Q :=
  (inject_Z (Z.of_nat (List.length (passesOnto c))) * passProbability)%Q.

(** The same, counted on the code itself.  [fraction i m] is the value
    [i/m] of [Math.random()]; the sources whose first two values are
    [i/m] and [j/n], for [i < m] and [j < n], are [m * n] equally likely
    outcomes of the two calls of the loop body, and [hits m n c] is the
    number of them for which the body proposes the cell [c]. *)
Definition fraction (i : nat) (m : positive) : Draw :=
  match (N.of_nat i <? Npos m)%N as b
        return ((N.of_nat i <? Npos m)%N = b -> Draw) with
  | true => fun H => mkDraw (N.of_nat i) m H
  | false => fun _ => mkDraw 0 1 eq_refl
  end eq_refl.

Definition twoDraws (r r' : Draw) (n : nat) : Draw :=
  match n with
  | O => r
  | _ => r'
  end.

Definition proposals (m n : positive) : list Indices :=
  map (fun ij => attemptAt (twoDraws (fraction (fst ij) m)
                                     (fraction (snd ij) n)) 0)
      (list_prod (seq 0 (Pos.to_nat m)) (seq 0 (Pos.to_nat n))).

Definition countOf (c : Indices) (cells : list Indices) : nat :=
  List.length (filter (fun p => Indices_eqb p c) cells).

Definition hits (m n : positive) (c : Indices) : nat :=
  countOf c (proposals m n).

Definition allCells : list Indices := list_prod gridIndices gridIndices.

Definition isCorner (c : Indices) : bool :=
  ((ix c =? 0) || (ix c =? GRID_SIZE - 1))
  && ((iz c =? 0) || (iz c =? GRID_SIZE - 1)).

Definition onPerimeterb (c : Indices) : bool :=
  (0 <=? ix c) && (ix c <? GRID_SIZE) && (0 <=? iz c) && (iz c <? GRID_SIZE)
  && ((ix c =? 0) || (ix c =? GRID_SIZE - 1)
      || (iz c =? 0) || (iz c =? GRID_SIZE - 1)).

(** The probability of each cell under a uniform source. *)
Definition expectedProbability (c : Indices) : Q :=
  if isCorner c then 2 # 100
  else if onPerimeterb c then 1 # 100
  else 0.

(** * Further parts of the page

    The movement and camera components, the renderer's choice of cell
    colours, the keyboard handlers of the game screen, local storage and
    the load button of the start screen. *)

(** ** More constants *)

Definition PLAYER_SPHERE_RADIUS : Q := 35 # 100.
Definition PLAYER_BOUNDING_BOX_RADIUS_FACTOR : Q := 85 # 100.
Definition INITIAL_CAMERA_Y_POSITION : Q := (inject_Z GRID_SIZE * (8 # 10))%Q.
Definition MIN_CAMERA_ZOOM : Q := (inject_Z GRID_SIZE * (3 # 10))%Q.
Definition MAX_CAMERA_ZOOM : Q := (inject_Z GRID_SIZE * (15 # 10))%Q.
Definition CURRENT_CELL_HIGHLIGHT_COLOR : string := "#FFFF99".
Definition VISITED_CELL_TRAIL_COLOR : string := "#32CD32".
Definition CELL_HIGHLIGHT_OPACITY : Q := 7 # 10.
Definition CELL_TRAIL_OPACITY : Q := 6 # 10.
Definition DEFAULT_CELL_OPACITY : Q := 1.

(** [Math.max] and [Math.min] on rationals. *)
Definition Math_max (a b : Q) : Q := if Qle_bool a b then b else a.
Definition Math_min (a b : Q) : Q := if Qle_bool a b then a else b.

(** [attr || d] for an optional number: the default stands in for a
    missing attribute and for zero. *)
Definition orDefault (attr : option Q) (d : Q) : Q :=
  match attr with
  | Some q => if Qeq_bool q 0 then d else q
  | None => d
  end.

(** ** The [arrow-controls] component: the end of [tick]

    What [tick] does once [this.velocity] has been computed from the
    keys: the bounds of the board for a sphere of the given radius, the
    velocity with the components that would cross a bound set to zero,
    and either that velocity handed to the kinematic body or, without a
    body, the clamped next position written to the sphere. *)
Definition arrowRadius (radiusAttr : option Q) : Q :=
  (orDefault radiusAttr PLAYER_SPHERE_RADIUS * PLAYER_BOUNDING_BOX_RADIUS_FACTOR)%Q.

Definition arrowMaxPos (radiusAttr : option Q) : Q :=
  ((inject_Z GRID_SIZE / 2 - (1 # 2)) * inject_Z CELL_UNIT_SIZE
   - arrowRadius radiusAttr)%Q.

Definition arrowMinPos (radiusAttr : option Q) : Q :=
  ((- inject_Z GRID_SIZE / 2 + (1 # 2)) * inject_Z CELL_UNIT_SIZE
   + arrowRadius radiusAttr)%Q.

Inductive BodyUpdate :=
| SetVelocity (x z : Q)       (* setAttribute('kinematic-body', 'velocity', ...) *)
| SetPosition (x z : Q).      (* setAttribute('position', ...) *)

Definition actualVelocity (minPos maxPos v next : Q) : Q :=
  if (Qltb 0 v && Qltb maxPos next) || (Qltb v 0 && Qltb next minPos)
  then 0%Q else v.

Definition arrowControlsMove (radiusAttr : option Q) (kinematicBody : bool)
    (velocity : Q * Q) (dt : Q) (currentPosition : Q * Q) : BodyUpdate :=
  let maxPos := arrowMaxPos radiusAttr in
  let minPos := arrowMinPos radiusAttr in
  let nextX := (fst currentPosition + fst velocity * dt)%Q in
  let nextZ := (snd currentPosition + snd velocity * dt)%Q in
  let actualVelocityX := actualVelocity minPos maxPos (fst velocity) nextX in
  let actualVelocityZ := actualVelocity minPos maxPos (snd velocity) nextZ in
  if kinematicBody then SetVelocity actualVelocityX actualVelocityZ
  else SetPosition (Math_max minPos (Math_min maxPos nextX))
                   (Math_max minPos (Math_min maxPos nextZ)).

(** ** The [camera-controls] component: the height of the rig

    The zoom part of [tick]: KeyZ lowers the rig, KeyX raises it, and
    the height is clamped to the zoom range of the schema. *)
Definition cameraZoom (minZoom maxZoom zoomSpeed dt : Q) (keyZ keyX : bool)
    (y : Q) : Q :=
  let currentY := y in
  let currentY := if keyZ then (currentY - zoomSpeed * dt)%Q else currentY in
  let currentY := if keyX then (currentY + zoomSpeed * dt)%Q else currentY in
  Math_max minZoom (Math_min maxZoom currentY).

(** A run of ticks of the camera, each with its elapsed time and keys. *)
Definition cameraZoomRun (minZoom maxZoom zoomSpeed : Q)
    (ticks : list (Q * bool * bool)) (y : Q) : Q :=
  fold_left (fun y t => cameraZoom minZoom maxZoom zoomSpeed
                          (fst (fst t)) (snd (fst t)) (snd t) y)
            ticks y.

(** ** The keyboard handlers of [NowPlayingScreen]

    [handleKeyControls] on the key code of a [keydown] event: the state
    of the game and the [showGameStateDebugger] flag, which is a state
    variable of its own. *)
Definition handleKeyControls (code : string) (s : State)
    (showGameStateDebugger : bool) : State * bool :=
  if gameOver s || hasWon s then (s, showGameStateDebugger)
  else
    let s1 :=
      if String.eqb code "KeyC" then
        let nextIsFpsView := negb (isFpsView s) in
        setLastMessage (if nextIsFpsView then "Switched to FPS View."
                        else "Switched to Bird&apos;s-Eye View.")
                       (setIsFpsView nextIsFpsView s)
      else s in
    (s1, if String.eqb code "KeyQ" then negb showGameStateDebugger
         else showGameStateDebugger).

(** [handleOverlayKeys]: Enter or Space on a finished game starts a new
    one at the current difficulty. *)
Definition handleOverlayKeys (rnd : nat -> Draw) (fuel : nat) (code : string)
    (s : State) : Rand State :=
  if (gameOver s || hasWon s || timerGameOver s)
     && (String.eqb code "Enter" || String.eqb code "Space")
  then resetGame rnd fuel (difficulty s) None s
  else ret s.

(** ** The overlays of a finished game

    The three conditional blocks at the end of the page, in the order of
    the source; the text of the first is
    [lastMessage.startsWith("Game Over:") ? lastMessage.substring(10) : "Try again!"]. *)
Inductive Overlay :=
| GameOverOverlay (text : string)
| TimesUpOverlay
| YouWinOverlay.

Definition gameOverText (lastMessage : string) : string :=
  if String.prefix "Game Over:" lastMessage
  then String.substring 10 (String.length lastMessage - 10) lastMessage
  else "Try again!".

Definition overlays (s : State) : list Overlay :=
  (if gameOver s && negb (hasWon s) && negb (timerGameOver s)
   then [GameOverOverlay (gameOverText (lastMessage s))] else [])
  ++ (if timerGameOver s then [TimesUpOverlay] else [])
  ++ (if hasWon s then [YouWinOverlay] else []).

(** ** The planes of [AFrameGridGame]

    Colour and opacity of the plane drawn for [cell], from the props that
    [NowPlayingScreen] passes down. *)
Definition cellAppearance (s : State) (cell : GridCell.t) : string * Q :=
  let baseEffect := CELL_EFFECTS (GridCell.type cell) in
  let cellKey := cellKey (GridCell.gridX cell, GridCell.gridZ cell) in
  let isStartCell :=
    (GridCell.gridX cell =? indexOfWorld (fst (startMarkerPos s)))
    && (GridCell.gridZ cell =? indexOfWorld (snd (startMarkerPos s))) in
  let isEndCell :=
    (GridCell.gridX cell =? indexOfWorld (fst (endMarkerPos s)))
    && (GridCell.gridZ cell =? indexOfWorld (snd (endMarkerPos s))) in
  if (GridCell.gridX cell =? ix (currentGridIndices s))
     && (GridCell.gridZ cell =? iz (currentGridIndices s))
     && negb isStartCell && negb isEndCell
  then (CURRENT_CELL_HIGHLIGHT_COLOR, CELL_HIGHLIGHT_OPACITY)
  else if existsb (String.eqb cellKey) (visitedCellTrail s)
          && negb isStartCell && negb isEndCell
  then (VISITED_CELL_TRAIL_COLOR, CELL_TRAIL_OPACITY)
  else (color baseEffect, DEFAULT_CELL_OPACITY).

(** ** Local storage and the two buttons

    The browser's local storage holds one document per key; the key of
    a player is [`gameState_${playerName}`]. *)
Definition Storage := string -> option JSON.

Definition storageKey (playerName : string) : string :=
  ("gameState_" ++ playerName)%string.

Definition localStorage_setItem (key : string) (value : JSON)
    (storage : Storage) : Storage :=
  fun k => if String.eqb k key then Some value else storage k.

(** [handleSaveGame], when [setItem] succeeds: the new storage and the
    snapshot handed to [onSetSavedGameState]. *)
Definition handleSaveGame (playerName : string) (s : State) (storage : Storage)
  : Storage * option GameState.t :=
  let snapshot := currentGameStateForSave playerName s in
  (localStorage_setItem (storageKey playerName) (GameState_toJSON snapshot) storage,
   Some snapshot).

(** [handleLoadGame(pName)] of [App], on a storage. *)
Definition handleLoadGameFrom (storage : Storage) (pName : string) : option JSON :=
  handleLoadGame pName (storage (storageKey pName)).

(** [handleLoadFromSavedState]: the Load button of the running page. *)
Definition handleLoadFromSavedState (rnd : nat -> Draw) (fuel : nat)
    (savedGameStateFromApp : option GameState.t) (s : State) : Rand State :=
  match savedGameStateFromApp with
  | Some saved => resetGame rnd fuel (GameState.difficulty saved) (Some saved) s
  | None => ret s
  end.

(** The four ways [handleLoadGameClick] of the start screen ends, with
    the delay in milliseconds after which it calls [onToggleScreen]. *)
Inductive LoadClick :=
| NameMissing
| LoadedSuccessfully (loadedState : JSON)
| NameMismatch (loadedState : JSON)
| NoSavedGame.

Definition toggleDelay (r : LoadClick) : option Z :=
  match r with
  | NameMissing => None
  | LoadedSuccessfully _ => Some 1500
  | NameMismatch _ => Some 4000
  | NoSavedGame => Some 3000
  end.

Section LoadClick.

(** [!playerName.trim()]. *)
Variable isBlank : string -> bool.

Definition handleLoadGameClick (storage : Storage) (playerName : string)
  : LoadClick :=
  if isBlank playerName then NameMissing
  else match handleLoadGameFrom storage playerName with
       | Some loadedState =>
           match getProp "playerName" loadedState with
           | Some (JString n) =>
               if String.eqb n playerName then LoadedSuccessfully loadedState
               else NameMismatch loadedState
           | _ => NameMismatch loadedState
           end
       | None => NoSavedGame
       end.

End LoadClick.

(** ** Sessions with the keyboard

    The states the page gets into when the two keyboard handlers are
    counted in: a new game, a game restored from a snapshot that the
    Save button took, and what position samples, clock ticks, the timer
    effect, the debug update and the key handlers make of such a
    state. *)
Inductive inSession : State -> Prop :=
| session_new rnd fuel d s0 c s c' :
    resetGame rnd fuel d None s0 c = Some (s, c') -> inSession s
| session_load rnd fuel d pName saved s0 c s c' :
    inSession saved -> isOngoing saved = true ->
    resetGame rnd fuel d (Some (currentGameStateForSave pName saved)) s0 c
    = Some (s, c') ->
    inSession s
| session_sample s position :
    inSession s -> inSession (onPositionSample s position)
| session_tick s : inSession s -> inSession (onClockTick s)
| session_effect s : inSession s -> inSession (timerEffect s)
| session_debug s v : inSession s -> inSession (setDebugPlayerPos v s)
| session_key s code dbg :
    inSession s -> inSession (fst (handleKeyControls code s dbg))
| session_overlay rnd fuel code s c s' c' :
    inSession s -> handleOverlayKeys rnd fuel code s c = Some (s', c') ->
    inSession s'.

(** A board of [GRID_SIZE] rows of [GRID_SIZE] cells, each as the loop
    body stores it. *)
Definition gridFull (startCellIndices endCellIndices : Indices)
    (grid : list (list GridCell.t)) : Prop :=
  Forall2 (fun i row =>
             Forall2 (cellOk startCellIndices endCellIndices i) gridIndices row)
          gridIndices grid.

(** The board of a session state. *)
Definition boardOk (s : State) : Prop :=
  gridFull (actualStartCellIndices s) (endCell s) (gridData s)
  /\ actualStartCellIndices s <> endCell s
  /\ onPerimeter (actualStartCellIndices s) /\ onPerimeter (endCell s)
  /\ startMarkerPos s = (worldOfIndex (ix (actualStartCellIndices s)),
                         worldOfIndex (iz (actualStartCellIndices s)))
  /\ endMarkerPos s = (worldOfIndex (ix (endCell s)),
                       worldOfIndex (iz (endCell s))).

(** Its player and trail: a key of the trail is the key of a cell of the
    board other than the start and the end cell. *)
Definition trailKeyOk (s : State) (k : string) : Prop :=
  exists c, inGrid c /\ c <> actualStartCellIndices s /\ c <> endCell s
            /\ k = cellKey c.

Definition trailOk (s : State) : Prop :=
  inGrid (currentGridIndices s)
  /\ NoDup (visitedCellTrail s)
  /\ forall k, In k (visitedCellTrail s) -> trailKeyOk s k.

(** Its flags and counters. *)
Definition flagsOk (s : State) : Prop :=
  (hasWon s = true ->
     gameOver s = true /\ timerGameOver s = false
     /\ currentGridIndices s = endCell s /\ lastMessage s = MSG_WIN)
  /\ (timerGameOver s = true ->
        gameOver s = true /\ timeLeft s = 0 /\ lastMessage s = MSG_TIME)
  /\ (gameOver s = true -> hasWon s = false -> timerGameOver s = false ->
        (playerHealth s <= 0 /\ lastMessage s = MSG_HEALTH)
        \/ (0 < playerHealth s /\ playerMoves s <= 0
            /\ lastMessage s = MSG_MOVES))
  /\ (isOngoing s = true -> currentGridIndices s <> endCell s)
  /\ (gameOver s = false \/ hasWon s = true \/ timerGameOver s = true ->
        0 < playerHealth s /\ 0 < playerMoves s)
  /\ (timerGameOver s = false -> 0 < timeLeft s)
  /\ 0 <= timeLeft s <= GAME_DURATION_SECONDS
  /\ -50 < playerHealth s <= INITIAL_PLAYER_HEALTH
  /\ -10 < playerMoves s <= INITIAL_PLAYER_MOVES.

Definition consistent (s : State) : Prop :=
  boardOk s /\ trailOk s /\ flagsOk s.

(** ** Measures of a run *)

(** The samples of a run that changed the player's cell. *)
Fixpoint cellChanges (events : list Event) (s : State) : nat :=
  match events with
  | [] => 0
  | e :: rest =>
      ((if Indices_eqb (currentGridIndices (step s e)) (currentGridIndices s)
        then 0 else 1)
       + cellChanges rest (step s e))%nat
  end.

(** The clock ticks of a run. *)
Definition clockTicks (events : list Event) : nat :=
  List.length
    (filter (fun e => match e with ClockTick => true | _ => false end) events).

(** What the player can still afford: a move costs one unit of moves or
    five of health, at least. *)
Definition stamina (s : State) : Z :=
  playerMoves s + (playerHealth s + 4) / 5.

(** * Properties *)

(** Case analysis on every test that a handler makes. *)
Ltac case_tests :=
  repeat match goal with
         | |- context [if ?b then _ else _] => destruct b eqn:?; simpl
         end.

(** ** The effect table *)

(** C4. The lookup in [CELL_EFFECTS] is defined for each of the four cell
    types, which are all the cell types there are, and returns the fixed
    deltas: Blank (0, -1), Speeder (-5, 0), Lava (-50, -10),
    Mud (-10, -5). *)
Theorem CELL_EFFECTS_table :
  (forall t, t = BLANK \/ t = SPEEDER \/ t = LAVA \/ t = MUD)
  /\ (forall t, exists e, CELL_EFFECTS t = e
        /\ (healthChange e, movesChange e)
           = match t with
             | BLANK => (0, -1)
             | SPEEDER => (-5, 0)
             | LAVA => (-50, -10)
             | MUD => (-10, -5)
             end).
Proof.
  split.
  - intros []; auto.
  - intros t; exists (CELL_EFFECTS t); split; [reflexivity|].
    destruct t; reflexivity.
Qed.

(** ** The clock *)

Lemma setTimeLeft_fields (f : Z -> Z) (s : State) :
  timeLeft (setTimeLeft f s) = f (timeLeft s)
  /\ gameOver (setTimeLeft f s) = gameOver s
  /\ hasWon (setTimeLeft f s) = hasWon s
  /\ timerGameOver (setTimeLeft f s) = timerGameOver s
  /\ playerHealth (setTimeLeft f s) = playerHealth s
  /\ playerMoves (setTimeLeft f s) = playerMoves s.
Proof. destruct s; simpl; repeat split. Qed.


Lemma timerEffect_timeLeft (s : State) : timeLeft (timerEffect s) = timeLeft s.
Proof.
  unfold timerEffect; destruct s; simpl.
  case_tests; reflexivity.
Qed.

(** What the effect commits on a state without flags. *)
Lemma timerEffect_ongoing (s : State) :
  isOngoing s = true ->
  (timeLeft s <= 0 ->
     timerGameOver (timerEffect s) = true /\ gameOver (timerEffect s) = true
     /\ hasWon (timerEffect s) = false /\ outcome (timerEffect s) = LostTimeout)
  /\ (0 < timeLeft s -> timerEffect s = s).
Proof.
  unfold isOngoing, timerEffect, outcome; intros H.
  apply negb_true_iff in H; rewrite H.
  apply orb_false_iff in H as [H Ht]; apply orb_false_iff in H as [Hg Hw].
  split; intros Hlt.
  - apply Z.leb_le in Hlt; rewrite Hlt.
    destruct s; simpl in *; subst; auto.
  - apply Z.leb_gt in Hlt; now rewrite Hlt.
Qed.

Lemma onClockTick_terminal (s : State) :
  isOngoing s = false -> onClockTick s = s.
Proof.
  unfold isOngoing, onClockTick, timerArmed; intros H.
  apply negb_false_iff in H; now rewrite H.
Qed.

(** One tick, case by case. *)
Lemma onClockTick_cases (s : State) :
  (isOngoing s = true /\ 0 < timeLeft s
   /\ timeLeft (onClockTick s) = timeLeft s - 1
   /\ playerHealth (onClockTick s) = playerHealth s
   /\ playerMoves (onClockTick s) = playerMoves s
   /\ hasWon (onClockTick s) = false
   /\ ((timeLeft s = 1 /\ timerGameOver (onClockTick s) = true
        /\ gameOver (onClockTick s) = true)
       \/ (1 < timeLeft s /\ isOngoing (onClockTick s) = true)))
  \/ ((isOngoing s = false \/ timeLeft s <= 0) /\ onClockTick s = s).
Proof.
  destruct s as [d g gr ps sm em cur st en tr h m t go tg w msg fps dbg].
  unfold onClockTick, timerArmed, timerEffect, isOngoing; simpl.
  destruct go, w, tg; simpl; try (right; split; [now left|reflexivity]).
  destruct (t <=? 0) eqn:Ht; simpl.
  - right; split; [right; lia|reflexivity].
  - left. destruct (t - 1 <=? 0) eqn:Ht1; simpl; repeat split;
      first [lia | left; repeat split; lia | right; repeat split; lia].
Qed.

Lemma outcome_ongoing (s : State) : isOngoing s = true <-> outcome s = Ongoing.
Proof.
  unfold isOngoing, outcome.
  destruct (hasWon s), (timerGameOver s), (gameOver s); simpl;
    try (split; intros; congruence);
    destruct (String.eqb _ _); split; intros; congruence.
Qed.

Lemma outcome_timeout (s : State) :
  hasWon s = false -> timerGameOver s = true -> outcome s = LostTimeout.
Proof. unfold outcome; intros -> ->; reflexivity. Qed.

Lemma isOngoing_flags (s : State) :
  isOngoing s = true ->
  gameOver s = false /\ hasWon s = false /\ timerGameOver s = false.
Proof.
  unfold isOngoing; destruct (gameOver s), (hasWon s), (timerGameOver s);
    simpl; intros; repeat split; congruence.
Qed.

(** The clock alone, from a running game with [t] seconds left: after
    [n] seconds the game still runs with [t - n] seconds left, or it is
    lost on time with none. *)
Lemma clockLoop_spec (s : State) (n : nat) :
  isOngoing s = true -> 0 < timeLeft s ->
  (Z.of_nat n < timeLeft s /\ isOngoing (clockLoop n s) = true
   /\ timeLeft (clockLoop n s) = timeLeft s - Z.of_nat n)
  \/ (timeLeft s <= Z.of_nat n /\ outcome (clockLoop n s) = LostTimeout
      /\ timeLeft (clockLoop n s) = 0).
Proof.
  intros Ho Ht. induction n as [|n IH].
  - left; simpl; repeat split; [lia|assumption|lia].
  - change (clockLoop (S n) s) with (onClockTick (clockLoop n s)).
    destruct IH as [(Hn & Hon & Htn)|(Hn & Hout & Htn)].
    + destruct (onClockTick_cases (clockLoop n s))
        as [(_ & _ & Et & _ & _ & Hw & [(E1 & Htg & _)|(E1 & Hon')])
           |([Hoff|Hle] & _)]; try congruence; try lia.
      * right; repeat split; try lia. now apply outcome_timeout.
      * left; repeat split; try lia; assumption.
    + right. rewrite onClockTick_terminal.
      * repeat split; try lia; assumption.
      * destruct (isOngoing (clockLoop n s)) eqn:E; [|reflexivity].
        apply outcome_ongoing in E; congruence.
Qed.

(** C10. From a state with [timeLeft >= 0] the clock never takes
    [timeLeft] below zero, however many times it ticks; a tick changes
    [timeLeft] only when no terminal flag is set and [timeLeft > 0], and
    then by exactly one; and the time-out (both [timerGameOver] and
    [gameOver]) is committed exactly when [timeLeft] has reached 0: by the
    tick that takes it to 0, by the effect on a running state that
    already is at 0, and after [n] ticks of a game started with
    [timeLeft <= n]. *)
Theorem clock_never_negative (s : State) :
  0 <= timeLeft s ->
  (forall n, 0 <= timeLeft (clockLoop n s))
  /\ (timeLeft (onClockTick s) <> timeLeft s ->
        isOngoing s = true /\ 0 < timeLeft s
        /\ timeLeft (onClockTick s) = timeLeft s - 1)
  /\ (isOngoing s = true -> 0 < timeLeft s ->
        (timerGameOver (onClockTick s) = true /\ gameOver (onClockTick s) = true
         <-> timeLeft (onClockTick s) = 0))
  /\ (isOngoing s = true ->
        (timerGameOver (timerEffect s) = true /\ gameOver (timerEffect s) = true
         <-> timeLeft s = 0))
  /\ (isOngoing s = true -> 0 < timeLeft s ->
        forall n, outcome (clockLoop n s) = LostTimeout
                  <-> timeLeft (clockLoop n s) = 0).
Proof.
  intros H0. split; [|split; [|split; [|split]]].
  - intros n; revert s H0; induction n as [|n IH]; intros s H0; [exact H0|].
    change (clockLoop (S n) s) with (onClockTick (clockLoop n s)).
    specialize (IH s H0).
    destruct (onClockTick_cases (clockLoop n s))
      as [(_ & Hp & Et & _)|(_ & E)]; [lia|now rewrite E].
  - intros Hne.
    destruct (onClockTick_cases s) as [(Ho & Hp & Et & _)|(_ & E)];
      [auto|congruence].
  - intros Ho Hp.
    destruct (onClockTick_cases s)
      as [(_ & _ & Et & _ & _ & _ & [(E1 & Htg & Hg)|(E1 & Hon)])|([Hoff|Hle] & _)];
      try congruence; try lia.
    + split; intros; [lia|auto].
    + apply isOngoing_flags in Hon as (_ & _ & Hf).
      split; [intros [Htg _]; congruence|lia].
  - intros Ho. destruct (timerEffect_ongoing s Ho) as [Hz Hp].
    split.
    + intros [Htg _].
      destruct (Z.eq_dec (timeLeft s) 0) as [|Hn]; [assumption|].
      rewrite Hp in Htg by lia.
      apply isOngoing_flags in Ho as (_ & _ & Hf); congruence.
    + intros E; destruct Hz as (? & ? & _); [lia|auto].
  - intros Ho Hp n.
    destruct (clockLoop_spec s n Ho Hp) as [(Hn & Hon & Htn)|(Hn & Hout & Htn)].
    + apply outcome_ongoing in Hon. split; [congruence|lia].
    + split; auto.
Qed.

Lemma clock_never_negative_witness :
  0 <= timeLeft demoClockState
  /\ timeLeft (clockLoop 2 demoClockState) = 1
  /\ outcome (clockLoop 3 demoClockState) = LostTimeout
  /\ forall n, 0 <= timeLeft (clockLoop n demoClockState).
Proof.
  split; [simpl; lia|].
  split; [reflexivity|].
  split; [reflexivity|].
  apply (clock_never_negative demoClockState); simpl; lia.
Defined.

(** ** Grid generation *)

Lemma Qfloor_bounds (q : Q) (a b : Z) :
  (inject_Z a <= q)%Q -> (q < inject_Z b)%Q -> a <= Qfloor q < b.
Proof.
  intros Ha Hb. split.
  - rewrite <- (Qfloor_Z a). now apply Qfloor_resp_le.
  - rewrite Zlt_Qlt. eapply Qle_lt_trans; [apply Qfloor_le|exact Hb].
Qed.

Lemma Draw_value_range (d : Draw) : (0 <= Draw_value d)%Q /\ (Draw_value d < 1)%Q.
Proof.
  destruct d as [n p Hb]; unfold Draw_value, Qle, Qlt; simpl.
  apply N.ltb_lt in Hb. split; lia.
Qed.

Lemma randomInt_range (min max : Z) (d : Draw) :
  min < max -> min <= randomInt min max (Draw_value d) < max.
Proof.
  intros Hlt. destruct (Draw_value_range d) as [H0 H1].
  unfold randomInt, Math_floor.
  assert (Hm : (0 < inject_Z (max - min))%Q) by (change 0%Q with (inject_Z 0); rewrite <- Zlt_Qlt; lia).
  assert (Hmax : (inject_Z max == inject_Z min + inject_Z (max - min))%Q)
    by (rewrite <- inject_Z_plus; f_equiv; lia).
  pose proof (Qmult_le_0_compat _ _ H0 (Qlt_le_weak _ _ Hm)) as Hlo.
  pose proof (Qmult_lt_compat_r _ _ _ Hm H1) as Hhi.
  apply Qfloor_bounds; [lra|]. rewrite Hmax. lra.
Qed.

Lemma effectIndex_range (d : Draw) : 0 <= effectIndex (Draw_value d) < 3.
Proof.
  pose proof (randomInt_range 0 3 d ltac:(lia)) as H.
  unfold randomInt, Math_floor in H. unfold effectIndex, Math_floor.
  rewrite (Qfloor_comp _ (Draw_value d * inject_Z (3 - 0) + inject_Z 0)%Q);
    [exact H|].
  change (inject_Z (Z.of_nat (List.length effectCellTypes))) with (3 # 1)%Q.
  change (inject_Z (3 - 0)) with (3 # 1)%Q. change (inject_Z 0) with 0%Q. ring.
Qed.

Lemma pickEffectType_In (d : Draw) :
  In (pickEffectType (Draw_value d)) effectCellTypes.
Proof.
  unfold pickEffectType. pose proof (effectIndex_range d) as H.
  apply nth_In. simpl. lia.
Qed.

Lemma perimeterCellOf_onPerimeter (edge offset : Z) :
  0 <= offset < GRID_SIZE -> onPerimeter (perimeterCellOf edge offset).
Proof.
  unfold onPerimeter, inGrid, perimeterCellOf, GRID_SIZE; intros H.
  destruct edge as [|[p|[p|p|]|]|p]; simpl; lia.
Qed.

Section GeneratorFacts.

Variable rnd : nat -> Draw.

Lemma perimeterAttempt_eq (c : nat) :
  perimeterAttempt rnd c = Some (attemptAt rnd c, S (S c)).
Proof.
  unfold perimeterAttempt, attemptAt, perimeterCellOf, getRandomInt,
    Math_random, bind, ret.
  destruct (randomInt 0 4 (Draw_value (rnd c))) as [|[p|[p|p|]|]|p];
    reflexivity.
Qed.

Lemma attemptAt_onPerimeter (c : nat) : onPerimeter (attemptAt rnd c).
Proof.
  apply perimeterCellOf_onPerimeter, randomInt_range. unfold GRID_SIZE; lia.
Qed.

(** The loop, unfolded once. *)
Lemma getRandomPerimeterCell_step (fuel : nat) (ex ez : Z) (c : nat) :
  getRandomPerimeterCell rnd (S fuel) ex ez c =
  if (ix (attemptAt rnd c) =? ex) && (iz (attemptAt rnd c) =? ez)
  then getRandomPerimeterCell rnd fuel ex ez (S (S c))
  else Some (attemptAt rnd c, S (S c)).
Proof.
  simpl. unfold bind at 1. rewrite perimeterAttempt_eq.
  destruct (_ && _); reflexivity.
Qed.

(** What the loop returns is a proposed cell, on the ring, other than
    the excluded one. *)
Lemma getRandomPerimeterCell_sound (fuel : nat) (ex ez : Z) (c c' : nat)
    (cell : Indices) :
  getRandomPerimeterCell rnd fuel ex ez c = Some (cell, c') ->
  onPerimeter cell /\ cell <> (ex, ez)
  /\ exists k, cell = attemptAt rnd (c + 2 * k) /\ c' = (c + 2 * k + 2)%nat.
Proof.
  revert c; induction fuel as [|fuel IH]; intros c; [discriminate|].
  rewrite getRandomPerimeterCell_step.
  destruct (_ && _) eqn:E.
  - intros H; apply IH in H as (Hp & Hne & k & Hk & Hc).
    split; [assumption|split; [assumption|]]. exists (S k).
    replace (c + 2 * S k)%nat with (S (S c) + 2 * k)%nat by lia. auto.
  - intros H; injection H as <- <-.
    split; [apply attemptAt_onPerimeter|]. split.
    + intros Heq. rewrite Heq in E. unfold ix, iz in E; simpl in E.
      rewrite !Z.eqb_refl in E. discriminate.
    + exists 0%nat. rewrite Nat.add_0_r. split; [reflexivity|lia].
Qed.

(** The loop returns as soon as a proposal differs from the excluded
    cell: fuel beyond the index of such a proposal is enough. *)
Lemma getRandomPerimeterCell_returns (ex ez : Z) (k : nat) :
  forall c fuel,
    attemptAt rnd (c + 2 * k) <> (ex, ez) -> (k < fuel)%nat ->
    exists cell c', getRandomPerimeterCell rnd fuel ex ez c = Some (cell, c').
Proof.
  induction k as [|k IH]; intros c fuel Hne Hf;
    (destruct fuel as [|fuel]; [lia|]);
    rewrite getRandomPerimeterCell_step;
    destruct (_ && _) eqn:E; eauto.
  - exfalso; apply Hne. rewrite Nat.add_0_r.
    apply andb_true_iff in E as [Ex Ez].
    apply Z.eqb_eq in Ex, Ez. destruct (attemptAt rnd c); simpl in *; congruence.
  - apply IH; [|lia].
    replace (S (S c) + 2 * k)%nat with (c + 2 * S k)%nat by lia. exact Hne.
Qed.

(** More fuel does not change a result. *)
Lemma getRandomPerimeterCell_fuel (ex ez : Z) (fuel fuel' : nat) (c : nat) r :
  getRandomPerimeterCell rnd fuel ex ez c = Some r -> (fuel <= fuel')%nat ->
  getRandomPerimeterCell rnd fuel' ex ez c = Some r.
Proof.
  revert fuel' c; induction fuel as [|fuel IH]; intros fuel' c; [discriminate|].
  destruct fuel' as [|fuel']; [lia|].
  rewrite !getRandomPerimeterCell_step.
  destruct (_ && _); [|auto]. intros H Hle; apply IH; [exact H|lia].
Qed.

End GeneratorFacts.

(** *** The loops over the cells *)

Lemma forEach_total {A B} (f : A -> Rand B) :
  (forall a c, exists r, f a c = Some r) ->
  forall l c, exists r, forEach f l c = Some r.
Proof.
  intros Hf l; induction l as [|a l IH]; intros c; simpl.
  - eexists; reflexivity.
  - unfold bind. destruct (Hf a c) as [[b c1] ->].
    destruct (IH c1) as [[bs c2] ->]. eexists; reflexivity.
Qed.

Lemma forEach_Forall2 {A B} (f : A -> Rand B) (R : A -> B -> Prop) :
  (forall a c b c', f a c = Some (b, c') -> R a b) ->
  forall l c bs c', forEach f l c = Some (bs, c') -> Forall2 R l bs.
Proof.
  intros Hf l; induction l as [|a l IH]; intros c bs c'; simpl.
  - unfold ret; intros H; injection H as <- _. constructor.
  - unfold bind, ret. destruct (f a c) as [[b c1]|] eqn:Ea; [|discriminate].
    destruct (forEach f l c1) as [[bs' c2]|] eqn:El; [|discriminate].
    intros H; injection H as <- _. constructor; eauto.
Qed.

Lemma Forall2_nth_error_l {A B} (R : A -> B -> Prop) (l : list A) (bs : list B) :
  Forall2 R l bs ->
  forall n a, nth_error l n = Some a ->
              exists b, nth_error bs n = Some b /\ R a b.
Proof.
  induction 1 as [|a0 b0 l bs Hab _ IH]; intros [|n] a; simpl; try discriminate.
  - intros H; injection H as <-. eauto.
  - apply IH.
Qed.

Lemma gridIndices_nth (i : Z) :
  0 <= i < GRID_SIZE -> nth_error gridIndices (Z.to_nat i) = Some i.
Proof.
  intros Hi. unfold gridIndices.
  rewrite nth_error_map, nth_error_seq.
  replace (Z.to_nat i <? Z.to_nat GRID_SIZE)%nat with true
    by (symmetry; apply Nat.ltb_lt; lia).
  simpl. f_equal. lia.
Qed.

Section CellFacts.

Variable rnd : nat -> Draw.
Variables startCellIndices endCellIndices : Indices.
Variable blankCellRatio : Q.

Lemma generateCellType_total (i j : Z) (c : nat) :
  exists r, generateCellType rnd startCellIndices endCellIndices
              blankCellRatio i j c = Some r.
Proof.
  unfold generateCellType, bind, ret, Math_random.
  destruct (_ || _); [eexists; reflexivity|].
  destruct (Qltb _ _); eexists; reflexivity.
Qed.

Lemma generateCellType_spec (i j : Z) (c c' : nat) (t : GridCellType) :
  generateCellType rnd startCellIndices endCellIndices blankCellRatio i j c
  = Some (t, c') ->
  In t [BLANK; SPEEDER; LAVA; MUD]
  /\ ((i, j) = startCellIndices \/ (i, j) = endCellIndices -> t = BLANK).
Proof.
  unfold generateCellType, bind, ret, Math_random.
  destruct (_ || _) eqn:E.
  - intros H; injection H as <- _. simpl; auto.
  - assert (Hno : ~ ((i, j) = startCellIndices \/ (i, j) = endCellIndices)).
    { intros [<-|<-]; unfold ix, iz in E; simpl in E;
        rewrite !Z.eqb_refl in E; simpl in E;
        [discriminate|rewrite orb_true_r in E; discriminate]. }
    destruct (Qltb _ _).
    + intros H; injection H as <- _. split; [simpl; auto|tauto].
    + intros H; injection H as <- _. split; [|tauto].
      pose proof (pickEffectType_In (rnd (S c))) as Hin.
      simpl in Hin |- *. tauto.
Qed.

Lemma generateCell_total (i j : Z) (c : nat) :
  exists r, generateCell rnd startCellIndices endCellIndices
              blankCellRatio i j c = Some r.
Proof.
  unfold generateCell, bind at 1.
  destruct (generateCellType_total i j c) as [[t c'] ->].
  eexists; reflexivity.
Qed.

Lemma generateCell_spec (i j : Z) (c c' : nat) (cell : GridCell.t) :
  generateCell rnd startCellIndices endCellIndices blankCellRatio i j c
  = Some (cell, c') ->
  cellOk startCellIndices endCellIndices i j cell.
Proof.
  unfold generateCell, bind at 1.
  destruct (generateCellType _ _ _ _ _ _ _) as [[t c1]|] eqn:Et; [|discriminate].
  apply generateCellType_spec in Et as [Hin Hb].
  unfold ret; intros H; injection H as <- _.
  unfold cellOk; simpl. repeat split; try reflexivity; assumption.
Qed.

Lemma generateGrid_total (c : nat) :
  exists r, generateGrid rnd startCellIndices endCellIndices blankCellRatio c
            = Some r.
Proof.
  apply forEach_total; intros i c0.
  apply forEach_total; intros j c1. apply generateCell_total.
Qed.

Lemma generateGrid_spec (c c' : nat) (grid : list (list GridCell.t)) :
  generateGrid rnd startCellIndices endCellIndices blankCellRatio c
  = Some (grid, c') ->
  gridOk startCellIndices endCellIndices grid.
Proof.
  intros H.
  apply (forEach_Forall2 _
           (fun i row => Forall2 (cellOk startCellIndices endCellIndices i)
                                 gridIndices row)) in H.
  2:{ intros i c0 row c1 Hrow.
      eapply forEach_Forall2; [|exact Hrow].
      intros j c2 cell c3. apply generateCell_spec. }
  intros i j Hi Hj.
  destruct (Forall2_nth_error_l _ _ _ H _ _ (gridIndices_nth i Hi))
    as (row & Erow & Hrow).
  destruct (Forall2_nth_error_l _ _ _ Hrow _ _ (gridIndices_nth j Hj))
    as (cell & Ecell & Hcell).
  exists cell. split; [|exact Hcell].
  unfold cellAt.
  replace (i <? 0) with false by (symmetry; apply Z.ltb_ge; lia).
  replace (j <? 0) with false by (symmetry; apply Z.ltb_ge; lia).
  simpl. now rewrite Erow.
Qed.

End CellFacts.

(** *** [initializeGameData] *)

Section InitFacts.

Variable rnd : nat -> Draw.

Lemma getRandomPerimeterCell_first (fuel : nat) (c : nat) :
  getRandomPerimeterCell rnd (S fuel) (-1) (-1) c
  = Some (attemptAt rnd c, S (S c)).
Proof.
  rewrite getRandomPerimeterCell_step.
  destruct (attemptAt_onPerimeter rnd c) as [[Hx _] _].
  replace (ix (attemptAt rnd c) =? -1) with false
    by (symmetry; apply Z.eqb_neq; lia).
  reflexivity.
Qed.

Lemma initializeGameData_eq (fuel : nat) (difficulty : DifficultyLevel) (c : nat) :
  initializeGameData rnd (S fuel) difficulty c =
  match getRandomPerimeterCell rnd (S fuel)
          (ix (attemptAt rnd c)) (iz (attemptAt rnd c)) (S (S c)) with
  | Some (endCellIndices, c1) =>
      match generateGrid rnd (attemptAt rnd c) endCellIndices
              (blankRatio difficulty) c1 with
      | Some (grid, c2) => Some ((grid, attemptAt rnd c, endCellIndices), c2)
      | None => None
      end
  | None => None
  end.
Proof.
  unfold initializeGameData. unfold bind at 1.
  rewrite getRandomPerimeterCell_first. unfold bind at 1.
  destruct (getRandomPerimeterCell _ _ _ _ _) as [[e c1]|]; [|reflexivity].
  unfold bind at 1, generateGrid.
  destruct (forEach _ _ _) as [[grid c2]|]; reflexivity.
Qed.

(** Every result of the generator is valid. *)
Lemma initializeGameData_sound (fuel : nat) (difficulty : DifficultyLevel)
    (c c' : nat) data :
  initializeGameData rnd fuel difficulty c = Some (data, c') ->
  validGameData data.
Proof.
  destruct fuel as [|fuel]; [discriminate|].
  rewrite initializeGameData_eq.
  destruct (getRandomPerimeterCell _ _ _ _ _) as [[e c1]|] eqn:Ee; [|discriminate].
  destruct (generateGrid _ _ _ _ _) as [[grid c2]|] eqn:Eg; [|discriminate].
  intros H; injection H as <- _.
  apply getRandomPerimeterCell_sound in Ee as (Hp & Hne & _).
  apply generateGrid_spec in Eg.
  unfold validGameData. split; [|split; [|split]]; try assumption.
  - intros Heq; apply Hne. rewrite <- Heq.
    destruct (attemptAt rnd c); reflexivity.
  - apply attemptAt_onPerimeter.
Qed.

(** The generator returns whenever some proposal for the end cell
    differs from the start cell. *)
Lemma initializeGameData_returns (difficulty : DifficultyLevel) (c k fuel : nat) :
  attemptAt rnd (c + 2 + 2 * k) <> attemptAt rnd c -> (k < fuel)%nat ->
  exists data c', initializeGameData rnd fuel difficulty c = Some (data, c').
Proof.
  intros Hne Hf. destruct fuel as [|fuel]; [lia|].
  rewrite initializeGameData_eq.
  destruct (getRandomPerimeterCell_returns rnd
              (ix (attemptAt rnd c)) (iz (attemptAt rnd c)) k (S (S c)) (S fuel))
    as (e & c1 & ->); [|lia|].
  - replace (S (S c) + 2 * k)%nat with (c + 2 + 2 * k)%nat by lia.
    destruct (attemptAt rnd c); exact Hne.
  - destruct (generateGrid_total rnd (attemptAt rnd c) e
                (blankRatio difficulty) c1) as [[grid c2] ->].
    eauto.
Qed.

(** And only then: on a source whose every proposal for the end cell is
    the start cell, the loop never exits, whatever the fuel. *)
Lemma getRandomPerimeterCell_stuck (ex ez : Z) (fuel : nat) :
  forall c, (forall k, attemptAt rnd (c + 2 * k) = (ex, ez)) ->
            getRandomPerimeterCell rnd fuel ex ez c = None.
Proof.
  induction fuel as [|fuel IH]; intros c Hall; [reflexivity|].
  rewrite getRandomPerimeterCell_step.
  pose proof (Hall 0%nat) as H0. rewrite Nat.add_0_r in H0. rewrite H0.
  unfold ix, iz; simpl. rewrite !Z.eqb_refl; simpl.
  apply IH. intros k. specialize (Hall (S k)).
  replace (S (S c) + 2 * k)%nat with (c + 2 * S k)%nat by lia. exact Hall.
Qed.

Lemma initializeGameData_stuck (difficulty : DifficultyLevel) (c fuel : nat) :
  (forall k, attemptAt rnd (c + 2 + 2 * k) = attemptAt rnd c) ->
  initializeGameData rnd fuel difficulty c = None.
Proof.
  intros Hall. destruct fuel as [|fuel]; [reflexivity|].
  rewrite initializeGameData_eq.
  rewrite getRandomPerimeterCell_stuck; [reflexivity|].
  intros k. specialize (Hall k).
  replace (S (S c) + 2 * k)%nat with (c + 2 + 2 * k)%nat by lia.
  rewrite Hall. destruct (attemptAt rnd c); reflexivity.
Qed.

End InitFacts.

Lemma gridOk_cell (startCellIndices endCellIndices : Indices) grid (c : Indices) :
  gridOk startCellIndices endCellIndices grid -> inGrid c ->
  exists cell, cellAt grid (ix c) (iz c) = Some cell
               /\ cellOk startCellIndices endCellIndices (ix c) (iz c) cell.
Proof. intros Hg [Hx Hz]; now apply Hg. Qed.

(** C5, amended.  For every difficulty and every randomness source on
    which the resampling loop for the end cell exits (some proposal
    differs from the start cell), [initializeGameData] returns, with
    enough fuel, a
    grid, a start cell and an end cell such that: the two cells differ;
    both lie on the perimeter (row or column [0] or [GRID_SIZE - 1]);
    the grid holds a cell of type Blank at both; and every position of
    the square holds a cell whose type is one of Blank, Speeder, Lava,
    Mud, whose indices are the position, and whose world coordinates are
    [(index - GRID_SIZE / 2 + 0.5) * CELL_UNIT_SIZE] on each axis. *)
Theorem initializeGameData_valid (rnd : nat -> Draw)
    (difficulty : DifficultyLevel) (c k : nat) :
  attemptAt rnd (c + 2 + 2 * k) <> attemptAt rnd c ->
  forall fuel, (k < fuel)%nat ->
  exists grid startCellIndices endCellIndices c',
    initializeGameData rnd fuel difficulty c
    = Some ((grid, startCellIndices, endCellIndices), c')
    /\ startCellIndices <> endCellIndices
    /\ onPerimeter startCellIndices /\ onPerimeter endCellIndices
    /\ (exists cell, cellAt grid (ix startCellIndices) (iz startCellIndices)
                     = Some cell /\ GridCell.type cell = BLANK)
    /\ (exists cell, cellAt grid (ix endCellIndices) (iz endCellIndices)
                     = Some cell /\ GridCell.type cell = BLANK)
    /\ forall i j, 0 <= i < GRID_SIZE -> 0 <= j < GRID_SIZE ->
         exists cell,
           cellAt grid i j = Some cell
           /\ In (GridCell.type cell) [BLANK; SPEEDER; LAVA; MUD]
           /\ GridCell.gridX cell = i /\ GridCell.gridZ cell = j
           /\ GridCell.x cell
              = ((inject_Z i - inject_Z GRID_SIZE / 2 + (1 # 2))
                 * inject_Z CELL_UNIT_SIZE)%Q
           /\ GridCell.z cell
              = ((inject_Z j - inject_Z GRID_SIZE / 2 + (1 # 2))
                 * inject_Z CELL_UNIT_SIZE)%Q.
Proof.
  intros Hne fuel Hf.
  destruct (initializeGameData_returns rnd difficulty c k fuel Hne Hf)
    as ([[grid st] en] & c' & E).
  exists grid, st, en, c'. split; [exact E|].
  apply initializeGameData_sound in E as (Hd & Hs & He & Hg).
  split; [exact Hd|]. split; [exact Hs|]. split; [exact He|].
  split; [|split].
  - destruct (gridOk_cell _ _ _ st Hg (proj1 Hs)) as (cell & Ec & Hc).
    exists cell; split; [exact Ec|].
    apply Hc. left. destruct st; reflexivity.
  - destruct (gridOk_cell _ _ _ en Hg (proj1 He)) as (cell & Ec & Hc).
    exists cell; split; [exact Ec|].
    apply Hc. right. destruct en; reflexivity.
  - intros i j Hi Hj. destruct (Hg i j Hi Hj) as (cell & Ec & Hc).
    exists cell. destruct Hc as (_ & Hx & Hz & Hwx & Hwz & Hin & _).
    repeat split; assumption.
Qed.

(** C5, as stated for every outcome of the source, fails: on the source
    whose every value is 0 each proposal is the corner (0, 0), the loop
    that resamples the end cell never exits, and the generator returns
    nothing, whatever the fuel. *)
Lemma constant_source_never_returns :
  (forall k, attemptAt (fun _ => drawZero) k = (0, 0))
  /\ (forall fuel difficulty,
        initializeGameData (fun _ => drawZero) fuel difficulty 0%nat = None)
  /\ ~ (forall (rnd : nat -> Draw) (difficulty : DifficultyLevel),
          exists fuel data c',
            initializeGameData rnd fuel difficulty 0%nat = Some (data, c')
            /\ validGameData data).
Proof.
  assert (Hall : forall k, attemptAt (fun _ => drawZero) k = (0, 0))
    by (intros k; reflexivity).
  assert (Hnone : forall fuel difficulty,
             initializeGameData (fun _ => drawZero) fuel difficulty 0%nat = None).
  { intros fuel difficulty. apply initializeGameData_stuck.
    intros k. now rewrite !Hall. }
  split; [exact Hall|]. split; [exact Hnone|].
  intros H. destruct (H (fun _ => drawZero) easy) as (fuel & data & c' & E & _).
  rewrite Hnone in E. discriminate.
Qed.

Lemma demoRnd_generated :
  exists grid c',
    initializeGameData demoRnd 2 easy 0%nat = Some ((grid, (0, 0), (0, 12)), c')
    /\ option_map GridCell.type (cellAt grid 0 1) = Some LAVA.
Proof.
  assert (Hdata : option_map (fun r => (snd (fst (fst r)), snd (fst r),
                     option_map GridCell.type (cellAt (fst (fst (fst r))) 0 1)))
                    (initializeGameData demoRnd 2 easy 0%nat)
                  = Some ((0, 0), (0, 12), Some LAVA))
    by (vm_compute; reflexivity).
  destruct (initializeGameData demoRnd 2 easy 0%nat)
    as [[[[grid st] en] c']|]; [|discriminate].
  simpl in Hdata. injection Hdata as -> -> Hl.
  exists grid, c'. split; [reflexivity|exact Hl].
Qed.

Lemma initializeGameData_valid_witness :
  attemptAt demoRnd 2 = attemptAt demoRnd 0
  /\ attemptAt demoRnd 4 <> attemptAt demoRnd 0
  /\ exists grid c',
       initializeGameData demoRnd 2 easy 0%nat
       = Some ((grid, (0, 0), (0, 12)), c')
       /\ option_map GridCell.type (cellAt grid 0 1) = Some LAVA
       /\ exists cell, cellAt grid 0 12 = Some cell /\ GridCell.type cell = BLANK.
Proof.
  split; [vm_compute; reflexivity|].
  split; [vm_compute; discriminate|].
  destruct (initializeGameData_valid demoRnd easy 0%nat 1%nat) with (fuel := 2%nat)
    as (grid & st & en & c' & E & _ & _ & _ & _ & Hend & _).
  - vm_compute; discriminate.
  - lia.
  - destruct demoRnd_generated as (grid' & c'' & E' & Hl).
    rewrite E in E'. injection E' as -> -> -> ->.
    exists grid', c''. split; [exact E|]. split; [exact Hl|exact Hend].
Defined.

(** ** Position samples *)

Lemma sampleCell_inGrid (position : Q * Q) : inGrid (sampleCell position).
Proof. unfold inGrid, sampleCell, clampIndex, GRID_SIZE, ix, iz; simpl; lia. Qed.

Lemma Indices_eqb_eq (a b : Indices) : Indices_eqb a b = true <-> a = b.
Proof.
  destruct a as [ax az], b as [bx bz]; unfold Indices_eqb, ix, iz; simpl.
  rewrite andb_true_iff, !Z.eqb_eq. split; [intros []|intros [=]]; subst; auto.
Qed.

(** A sample on a running game, case by case. *)
Lemma onPositionSample_ongoing (s : State) (position : Q * Q) :
  isOngoing s = true ->
  onPositionSample s position =
  if Indices_eqb (sampleCell position) (currentGridIndices s) then s
  else match cellAt (gridData s) (ix (sampleCell position))
                    (iz (sampleCell position)) with
       | Some cell =>
           if Indices_eqb (sampleCell position) (endCell s)
           then wonState s (sampleCell position)
           else movedState s (sampleCell position) (GridCell.type cell)
       | None =>
           setCurrentGridIndices (sampleCell position)
             (setVisitedCellTrail (fun _ => trailAfterLeaving s) s)
       end.
Proof.
  intros Ho. apply isOngoing_flags in Ho as (Hg & Hw & Ht).
  unfold onPositionSample. rewrite Hg, Hw. simpl.
  unfold sampleCell.
  set (cx := clampIndex (indexOfWorld (fst position))).
  set (cz := clampIndex (indexOfWorld (snd position))).
  destruct s as [d g gr ps sm em [ax az] [sx sz] [ex ez] tr h m t go tg w msg fps dbg].
  simpl in Hg, Hw, Ht. subst go tg w.
  unfold gameTick, wonState, movedState.
  unfold trailAfterLeaving, Indices_eqb, ix, iz.
  cbn [currentGridIndices gridData actualStartCellIndices endCell fst snd
       visitedCellTrail playerHealth playerMoves gameOver hasWon timerGameOver
       difficulty gameId playerStartPos startMarkerPos endMarkerPos timeLeft
       lastMessage isFpsView debugPlayerPos].
  fold cx cz.
  destruct (cx =? ax) eqn:Ex, (cz =? az) eqn:Ez; simpl; try reflexivity;
    destruct (cellAt gr cx cz) as [cell|]; simpl;
    destruct (cellAt gr ax az) as [prev|]; simpl;
    case_tests; try reflexivity; try discriminate.
Qed.

(** ** Reset *)

Lemma Set_add_In (key k : string) (trail : list string) :
  In k (Set_add key trail) <-> k = key \/ In k trail.
Proof.
  unfold Set_add. destruct (existsb (String.eqb key) trail) eqn:E.
  - split; [auto|]. intros [->|H]; [|exact H].
    apply existsb_exists in E as (x & Hx & Ex).
    apply String.eqb_eq in Ex; now subst.
  - rewrite in_app_iff; simpl. intuition.
Qed.

Lemma Set_add_fresh (key : string) (trail : list string) :
  ~ In key trail -> Set_add key trail = trail ++ [key].
Proof.
  unfold Set_add; intros Hn.
  destruct (existsb (String.eqb key) trail) eqn:E; [|reflexivity].
  apply existsb_exists in E as (x & Hx & Ex).
  apply String.eqb_eq in Ex; subst; contradiction.
Qed.

Lemma Set_ofArray_acc_In (k : string) (array acc : list string) :
  In k (Set_ofArray_acc acc array) <-> In k acc \/ In k array.
Proof.
  revert acc; induction array as [|a array IH]; intros acc; simpl.
  - tauto.
  - rewrite IH, Set_add_In. intuition.
Qed.

Lemma Set_ofArray_acc_NoDup (array acc : list string) :
  NoDup (acc ++ array) -> Set_ofArray_acc acc array = acc ++ array.
Proof.
  revert acc; induction array as [|a array IH]; intros acc H; simpl.
  - now rewrite app_nil_r.
  - rewrite Set_add_fresh.
    + rewrite IH; rewrite <- app_assoc; [reflexivity|exact H].
    + apply NoDup_remove_2 in H. rewrite in_app_iff in H. tauto.
Qed.

(** [new Set(array)] has the elements of [array], and is [array] itself
    when no element is repeated. *)
Lemma Set_ofArray_spec (array : list string) :
  (forall k, In k (Set_ofArray array) <-> In k array)
  /\ (NoDup array -> Set_ofArray array = array).
Proof.
  split.
  - intros k. unfold Set_ofArray. rewrite Set_ofArray_acc_In. simpl; tauto.
  - intros H. unfold Set_ofArray. now rewrite Set_ofArray_acc_NoDup.
Qed.

(** C6, amended.  [resetGame] with a snapshot returns a state whose
    grid, trail, player position, health, moves, time left, difficulty,
    view flag, start cell and end cell are those of the snapshot (the
    trail as the set of the snapshot's array: the same keys, and the
    same list when the array repeats none), and which is running:
    [gameOver], [hasWon] and [timerGameOver] are false whatever the
    snapshot stored in [isOver], [hasWon] and [timerGameOver].  Without
    a snapshot, on every randomness source on which the resampling of
    the end cell ends (some proposal differs from the start cell), it
    returns, with enough fuel, a state that holds a freshly generated
    valid grid with its start and end cell, the player on the start
    cell, health 100, moves 200, 60 seconds left, an empty trail, and is
    running; the grid and the cells are those that [initializeGameData]
    returns, and [resetGame] returns exactly when it does, so on the
    sources whose every proposal for the end cell is the start cell it
    never returns. *)
Theorem resetGame_spec (rnd : nat -> Draw) (fuel : nat)
    (newDifficulty : DifficultyLevel) (s0 : State) (c : nat) :
  (forall st : GameState.t,
     exists s,
       resetGame rnd fuel newDifficulty (Some st) s0 c = Some (s, c)
       /\ gridData s = GameState.gridData st
       /\ (forall k, In k (visitedCellTrail s)
                     <-> In k (GameState.visitedCellTrail st))
       /\ (NoDup (GameState.visitedCellTrail st) ->
           visitedCellTrail s = GameState.visitedCellTrail st)
       /\ currentGridIndices s
          = (GameState.gridX (GameState.player st),
             GameState.gridZ (GameState.player st))
       /\ playerStartPos s
          = (GameState.worldX (GameState.player st),
             GameState.worldZ (GameState.player st))
       /\ playerHealth s = GameState.health (GameState.player st)
       /\ playerMoves s = GameState.moves (GameState.player st)
       /\ timeLeft s = GameState.timeLeft (GameState.game st)
       /\ difficulty s = GameState.difficulty st
       /\ isFpsView s = GameState.isFpsView (GameState.game st)
       /\ actualStartCellIndices s = GameState.startCell (GameState.game st)
       /\ endCell s = GameState.endCell (GameState.game st)
       /\ gameOver s = false /\ hasWon s = false /\ timerGameOver s = false
       /\ outcome s = Ongoing)
  /\ (forall grid startCellIndices endCellIndices c',
        initializeGameData rnd fuel newDifficulty c
        = Some ((grid, startCellIndices, endCellIndices), c') ->
        exists s,
          resetGame rnd fuel newDifficulty None s0 c = Some (s, c')
          /\ gridData s = grid
          /\ actualStartCellIndices s = startCellIndices
          /\ endCell s = endCellIndices
          /\ currentGridIndices s = startCellIndices
          /\ playerHealth s = 100 /\ playerMoves s = 200 /\ timeLeft s = 60
          /\ visitedCellTrail s = []
          /\ gameOver s = false /\ hasWon s = false /\ timerGameOver s = false
          /\ outcome s = Ongoing)
  /\ (initializeGameData rnd fuel newDifficulty c = None ->
      resetGame rnd fuel newDifficulty None s0 c = None)
  /\ (forall k,
        attemptAt rnd (c + 2 + 2 * k) <> attemptAt rnd c -> (k < fuel)%nat ->
        exists s c',
          resetGame rnd fuel newDifficulty None s0 c = Some (s, c')
          /\ validGameData (gridData s, actualStartCellIndices s, endCell s)
          /\ currentGridIndices s = actualStartCellIndices s
          /\ playerHealth s = 100 /\ playerMoves s = 200 /\ timeLeft s = 60
          /\ visitedCellTrail s = []
          /\ gameOver s = false /\ hasWon s = false /\ timerGameOver s = false
          /\ outcome s = Ongoing)
  /\ ((forall k, attemptAt rnd (c + 2 + 2 * k) = attemptAt rnd c) ->
      resetGame rnd fuel newDifficulty None s0 c = None).
Proof.
  assert (Hnew : forall grid startCellIndices endCellIndices c',
             initializeGameData rnd fuel newDifficulty c
             = Some ((grid, startCellIndices, endCellIndices), c') ->
             exists s,
               resetGame rnd fuel newDifficulty None s0 c = Some (s, c')
               /\ gridData s = grid
               /\ actualStartCellIndices s = startCellIndices
               /\ endCell s = endCellIndices
               /\ currentGridIndices s = startCellIndices
               /\ playerHealth s = 100 /\ playerMoves s = 200 /\ timeLeft s = 60
               /\ visitedCellTrail s = []
               /\ gameOver s = false /\ hasWon s = false
               /\ timerGameOver s = false
               /\ outcome s = Ongoing).
  { intros grid st en c' E.
    unfold resetGame, bind. rewrite E. unfold ret.
    eexists. split; [reflexivity|]. simpl.
    repeat split; reflexivity. }
  assert (Hnone : initializeGameData rnd fuel newDifficulty c = None ->
                  resetGame rnd fuel newDifficulty None s0 c = None).
  { intros E. unfold resetGame, bind. now rewrite E. }
  split; [|split; [exact Hnew|split; [exact Hnone|split]]].
  - intros st. eexists. split; [reflexivity|]. simpl.
    destruct (Set_ofArray_spec (GameState.visitedCellTrail st)) as [Hin Hnd].
    repeat split; try reflexivity; try apply Hin; try apply Hnd.
  - intros k Hne Hk.
    destruct (initializeGameData_returns rnd newDifficulty c k fuel Hne Hk)
      as ([[grid st] en] & c' & E).
    destruct (Hnew grid st en c' E)
      as (s & Er & Eg & Est & Een & Ecur & Hh & Hm & Ht & Htr & Hgo & Hw & Htg & Ho).
    exists s, c'. split; [exact Er|].
    split; [rewrite Eg, Est, Een; exact (initializeGameData_sound _ _ _ _ _ _ E)|].
    split; [congruence|]. tauto.
  - intros Hall. apply Hnone. now apply initializeGameData_stuck.
Qed.

(** C6, as stated for the case without snapshot ("a fresh grid is
    generated"), fails on the source whose every value is 0: each
    proposal is the corner (0, 0), the loop that resamples the end cell
    never exits, and [resetGame] returns no state, whatever the fuel. *)
Lemma resetGame_constant_source :
  (forall fuel difficulty s0,
     resetGame (fun _ => drawZero) fuel difficulty None s0 0%nat = None)
  /\ ~ (forall (rnd : nat -> Draw) (difficulty : DifficultyLevel) (s0 : State),
          exists fuel s c',
            resetGame rnd fuel difficulty None s0 0%nat = Some (s, c')
            /\ playerHealth s = 100 /\ playerMoves s = 200 /\ timeLeft s = 60
            /\ visitedCellTrail s = [] /\ outcome s = Ongoing).
Proof.
  assert (Hnone : forall fuel difficulty s0,
             resetGame (fun _ => drawZero) fuel difficulty None s0 0%nat = None).
  { intros fuel difficulty s0. unfold resetGame, bind.
    rewrite initializeGameData_stuck; [reflexivity|].
    intros k; reflexivity. }
  split; [exact Hnone|].
  intros H. destruct (H (fun _ => drawZero) easy initialState)
    as (fuel & s & c' & E & _).
  rewrite Hnone in E. discriminate.
Qed.

(** ** Reachable states *)

Lemma playable_flags (s : State) :
  playable s -> gameOver s || hasWon s = false -> isOngoing s = true.
Proof.
  intros (_ & _ & Ht) H. unfold isOngoing.
  destruct (timerGameOver s); [|now rewrite H].
  rewrite Ht in H by reflexivity. discriminate.
Qed.

Lemma playable_sample (s : State) (position : Q * Q) :
  playable s -> playable (onPositionSample s position).
Proof.
  intros Hp. destruct (gameOver s || hasWon s) eqn:Hg.
  { unfold onPositionSample; now rewrite Hg. }
  pose proof (playable_flags s Hp Hg) as Ho.
  rewrite (onPositionSample_ongoing s position Ho).
  destruct Hp as (Hgrid & Hcur & Htg).
  destruct (Indices_eqb _ (currentGridIndices s)); [now repeat split|].
  destruct (gridOk_cell _ _ _ _ Hgrid (sampleCell_inGrid position))
    as (cell & -> & _).
  destruct (Indices_eqb _ (endCell s)) eqn:Ee.
  - unfold playable, wonState, isOngoing; simpl. repeat split; try assumption.
    discriminate.
  - unfold playable, movedState, isOngoing; simpl.
    split; [assumption|]. split; [|discriminate].
    intros _ Heq. apply Indices_eqb_eq in Heq. congruence.
Qed.

Lemma playable_timerEffect (s : State) : playable s -> playable (timerEffect s).
Proof.
  intros Hp. unfold timerEffect.
  destruct (gameOver s || hasWon s || timerGameOver s); [exact Hp|].
  destruct (timeLeft s <=? 0); [|exact Hp].
  destruct Hp as (Hgrid & Hcur & Htg).
  destruct s; unfold playable, isOngoing in *; simpl in *.
  repeat split; try assumption. discriminate.
Qed.

Lemma playable_setTimeLeft (f : Z -> Z) (s : State) :
  playable s -> playable (setTimeLeft f s).
Proof. destruct s; unfold playable, isOngoing; simpl; auto. Qed.

Lemma playable_tick (s : State) : playable s -> playable (onClockTick s).
Proof.
  intros Hp. unfold onClockTick. destruct (timerArmed s); [|exact Hp].
  now apply playable_timerEffect, playable_setTimeLeft.
Qed.

Lemma reachable_playable (s : State) : reachable s -> playable s.
Proof.
  induction 1 as [rnd fuel d s0 c s c' E
                 |rnd fuel d pName saved s0 c s c' _ IH Ho E
                 |s position _ IH|s _ IH|s _ IH|s v _ IH|s v _ IH].
  - unfold resetGame, bind in E.
    destruct (initializeGameData rnd fuel d c) as [[[[grid st] en] c1]|] eqn:Ei;
      [|discriminate].
    apply initializeGameData_sound in Ei as (Hd & _ & _ & Hg).
    unfold ret in E; injection E as <- _.
    unfold playable, isOngoing; simpl.
    split; [exact Hg|split; [intros _; exact Hd|discriminate]].
  - simpl in E. unfold ret in E; injection E as <- _.
    destruct IH as (Hg & Hcur & _).
    unfold playable, isOngoing; simpl. split; [exact Hg|]. split; [|discriminate].
    intros _. specialize (Hcur Ho).
    destruct (currentGridIndices saved); exact Hcur.
  - now apply playable_sample.
  - now apply playable_tick.
  - now apply playable_timerEffect.
  - destruct s; exact IH.
  - destruct s; exact IH.
Qed.

(** The trail never repeats a key. *)
Lemma Set_add_NoDup (key : string) (trail : list string) :
  NoDup trail -> NoDup (Set_add key trail).
Proof.
  intros Hnd. unfold Set_add.
  destruct (existsb (String.eqb key) trail) eqn:E; [exact Hnd|].
  apply NoDup_app; [exact Hnd|repeat constructor; intros []|].
  intros a Ha [Heq|[]]. subst a.
  assert (Hex : existsb (String.eqb key) trail = true)
    by (apply existsb_exists; exists key; split;
        [exact Ha|apply String.eqb_refl]).
  congruence.
Qed.

Lemma Set_ofArray_NoDup (array : list string) : NoDup (Set_ofArray array).
Proof.
  unfold Set_ofArray. generalize (NoDup_nil string).
  generalize (@nil string) as acc. induction array as [|k array IH];
    intros acc Hacc; simpl; [exact Hacc|].
  apply IH, Set_add_NoDup, Hacc.
Qed.

Lemma trailAfterLeaving_NoDup (s : State) :
  NoDup (visitedCellTrail s) -> NoDup (trailAfterLeaving s).
Proof.
  intros H. unfold trailAfterLeaving.
  destruct (cellAt _ _ _); [|exact H].
  destruct (_ && _); [now apply Set_add_NoDup|exact H].
Qed.

Lemma onClockTick_trail (s : State) :
  visitedCellTrail (onClockTick s) = visitedCellTrail s.
Proof.
  unfold onClockTick, timerEffect.
  destruct s as [d g gr ps sm em cur st en tr h m t go tg w msg fps dbg]; simpl.
  case_tests; reflexivity.
Qed.

Lemma timerEffect_trail (s : State) :
  visitedCellTrail (timerEffect s) = visitedCellTrail s.
Proof.
  unfold timerEffect.
  destruct s as [d g gr ps sm em cur st en tr h m t go tg w msg fps dbg]; simpl.
  case_tests; reflexivity.
Qed.

Lemma reachable_trail_NoDup (s : State) :
  reachable s -> NoDup (visitedCellTrail s).
Proof.
  induction 1 as [rnd fuel d s0 c s c' E
                 |rnd fuel d pName saved s0 c s c' _ _ _ E
                 |s position Hr IH|s _ IH|s _ IH|s v _ IH|s v _ IH].
  - unfold resetGame, bind in E.
    destruct (initializeGameData rnd fuel d c) as [[[[grid st] en] c1]|];
      [|discriminate].
    unfold ret in E; injection E as <- _. simpl. constructor.
  - simpl in E. unfold ret in E; injection E as <- _. simpl.
    apply Set_ofArray_NoDup.
  - destruct (gameOver s || hasWon s) eqn:Hg.
    { unfold onPositionSample; now rewrite Hg. }
    rewrite (onPositionSample_ongoing s position
               (playable_flags s (reachable_playable s Hr) Hg)).
    pose proof (trailAfterLeaving_NoDup s IH) as Hl.
    destruct (Indices_eqb _ (currentGridIndices s)); [exact IH|].
    destruct (cellAt _ _ _); [destruct (Indices_eqb _ _); exact Hl|].
    destruct s; exact Hl.
  - now rewrite onClockTick_trail.
  - now rewrite timerEffect_trail.
  - destruct s; exact IH.
  - destruct s; exact IH.
Qed.

(** ** Win precedence, terminal states, and the effect of a move *)

(** On any board: if the sample leaves the current cell for the end
    cell and the board has a cell there, the win is committed whatever
    the type of that cell. *)
Lemma win_on_any_board (s : State) (position : Q * Q) (cell : GridCell.t) :
  isOngoing s = true ->
  sampleCell position <> currentGridIndices s ->
  sampleCell position = endCell s ->
  cellAt (gridData s) (ix (endCell s)) (iz (endCell s)) = Some cell ->
  onPositionSample s position = wonState s (endCell s).
Proof.
  intros Ho Hne He Hc.
  rewrite (onPositionSample_ongoing s position Ho).
  destruct (Indices_eqb _ (currentGridIndices s)) eqn:E;
    [apply Indices_eqb_eq in E; contradiction|].
  rewrite He, Hc.
  replace (Indices_eqb (endCell s) (endCell s)) with true
    by (symmetry; now apply Indices_eqb_eq).
  reflexivity.
Qed.


Lemma outcome_movedState (s : State) (c : Indices) (t : GridCellType) :
  outcome (movedState s c t)
  = if playerHealth (movedState s c t) <=? 0 then LostHealth
    else if playerMoves (movedState s c t) <=? 0 then LostMoves
    else Ongoing.
Proof.
  unfold outcome, movedState; simpl.
  destruct (_ <=? 0); simpl; [reflexivity|].
  destruct (_ <=? 0); simpl; reflexivity.
Qed.


Lemma demoGame_reset :
  exists c', resetGame demoRnd 2 easy None initialState 0%nat
             = Some (demoGame, c').
Proof. eexists. vm_compute. reflexivity. Qed.


(** On a board whose end cell were Lava, with health 10: still a win,
    health still 10. *)
Example win_over_lava :
  let lavaEnd := GridCell.mk "cell-0-1" LAVA (-12 # 1) (-11 # 1) 0 1 in
  let s := {| difficulty := easy; gameId := 1;
              gridData := [[GridCell.mk "cell-0-0" BLANK (-12 # 1) (-12 # 1) 0 0;
                            lavaEnd]];
              playerStartPos := (0, 0)%Q; startMarkerPos := (0, 0)%Q;
              endMarkerPos := (0, 0)%Q; currentGridIndices := (0, 0);
              actualStartCellIndices := (0, 0); endCell := (0, 1);
              visitedCellTrail := []; playerHealth := 10; playerMoves := 3;
              timeLeft := 5; gameOver := false; timerGameOver := false;
              hasWon := false; lastMessage := ""; isFpsView := false;
              debugPlayerPos := (0, 0)%Q |} in
  outcome (onPositionSample s atLava) = Won
  /\ playerHealth (onPositionSample s atLava) = 10
  /\ playerMoves (onPositionSample s atLava) = 3.
Proof. vm_compute. repeat split. Qed.


Lemma resetGame_spec_witness :
  let wonSnapshot :=
    currentGameStateForSave "ada" (onPositionSample demoGame atEnd) in
  GameState.isOver (GameState.game wonSnapshot) = true
  /\ GameState.hasWon (GameState.game wonSnapshot) = true
  /\ (exists s,
        resetGame demoRnd 2 easy (Some wonSnapshot) initialState 0%nat
        = Some (s, 0%nat)
        /\ outcome s = Ongoing /\ currentGridIndices s = (0, 12))
  /\ (exists s c',
        resetGame demoRnd 2 easy None initialState 0%nat = Some (s, c')
        /\ currentGridIndices s = (0, 0) /\ endCell s = (0, 12)
        /\ playerHealth s = 100 /\ playerMoves s = 200 /\ timeLeft s = 60
        /\ visitedCellTrail s = [] /\ outcome s = Ongoing)
  /\ (exists s c',
        resetGame demoRnd 2 easy None initialState 0%nat = Some (s, c')
        /\ validGameData (gridData s, actualStartCellIndices s, endCell s)).
Proof.
  intros wonSnapshot.
  split; [vm_compute; reflexivity|]. split; [vm_compute; reflexivity|].
  destruct (resetGame_spec demoRnd 2 easy initialState 0%nat)
    as (Hload & Hnew & _ & Hret & _).
  split; [|split].
  - destruct (Hload wonSnapshot)
      as (s & E & _ & _ & _ & Hcur & _ & _ & _ & _ & _ & _ & _ & _ & _ & _ & _ & Ho).
    exists s. split; [exact E|]. split; [exact Ho|].
    rewrite Hcur. vm_compute; reflexivity.
  - destruct demoRnd_generated as (grid & c' & E & _).
    destruct (Hnew grid (0, 0) (0, 12) c' E)
      as (s & Er & _ & _ & Hen & Hcur & Hh & Hm & Ht & Htr & _ & _ & _ & Ho).
    exists s, c'. repeat split; assumption.
  - destruct (Hret 1%nat) as (s & c' & Er & Hv & _).
    + vm_compute; discriminate.
    + lia.
    + exists s, c'. split; assumption.
Defined.

(** ** Save and load *)

Lemma traverse_map {A B} (g : B -> A) (f : A -> option B) (l : list B) :
  (forall b, f (g b) = Some b) -> traverse f (map g l) = Some l.
Proof.
  intros H; induction l as [|b l IH]; simpl; [reflexivity|].
  rewrite H; simpl. rewrite IH; reflexivity.
Qed.

Lemma asGridCell_toJSON (c : GridCell.t) : asGridCell (GridCell_toJSON c) = Some c.
Proof. destruct c as [id [] x z gx gz]; reflexivity. Qed.

Lemma asGrid_toJSON (grid : list (list GridCell.t)) :
  asGrid (JArray (map (fun row => JArray (map GridCell_toJSON row)) grid))
  = Some grid.
Proof.
  unfold asGrid; simpl.
  apply (traverse_map (fun row => JArray (map GridCell_toJSON row))).
  intros row; simpl. apply traverse_map, asGridCell_toJSON.
Qed.

Lemma asTrail_toJSON (trail : list string) :
  asTrail (JArray (map JString trail)) = Some trail.
Proof. unfold asTrail; simpl. now apply traverse_map. Qed.

Lemma asPlayer_toJSON (p : GameState.Player) : asPlayer (Player_toJSON p) = Some p.
Proof. destruct p; reflexivity. Qed.

Lemma asGame_toJSON (g : GameState.Game) : asGame (Game_toJSON g) = Some g.
Proof.
  destruct g as [t f [[]|] [sx sz] [ex ez] o w tg]; reflexivity.
Qed.

Lemma asGameState_toJSON (st : GameState.t) :
  asGameState (GameState_toJSON st) = Some st.
Proof.
  destruct st as [n d p g grid trail].
  unfold asGameState, GameState_toJSON, field, getProp.
  cbn [assoc String.eqb Ascii.eqb Bool.eqb obind asString
       GameState.playerName GameState.difficulty GameState.player
       GameState.game GameState.gridData GameState.visitedCellTrail].
  replace (asDifficultyLevel (JString (DifficultyLevel_value d))) with (Some d)
    by (destruct d; reflexivity).
  cbn [obind]. rewrite asPlayer_toJSON, asGame_toJSON, asGrid_toJSON,
    asTrail_toJSON. reflexivity.
Qed.

Lemma handleLoadGame_toJSON (st : GameState.t) :
  handleLoadGame (GameState.playerName st) (Some (GameState_toJSON st))
  = Some (GameState_toJSON st).
Proof.
  unfold handleLoadGame, GameState_toJSON.
  cbn [assoc String.eqb Ascii.eqb Bool.eqb].
  rewrite String.eqb_refl. reflexivity.
Qed.

(** C9. Whatever the storage holds, after [handleSaveGame] has saved the
    state of the page under a player name, [handleLoadGame] under that
    name returns the document of the snapshot that was saved, and that
    document read at the type [GameState] is the snapshot, equal in
    every field, the rows of [gridData] and the trail included; the
    snapshot is also the one handed to [App], and each of its fields is
    the state variable of the page it was taken from.  The same holds
    of every
    [GameState] whose document is stored under the key of its player
    name: loading returns the document unchanged and reading it gives
    the state back.  ([JSON.stringify] and [JSON.parse] are modelled by
    the document they agree on.) *)
Theorem save_load_roundtrip (storage : Storage) (playerName : string)
    (s : State) (st : GameState.t) :
  (let saved := handleSaveGame playerName s storage in
   let snapshot := currentGameStateForSave playerName s in
   snd saved = Some snapshot
   /\ fst saved (storageKey playerName) = Some (GameState_toJSON snapshot)
   /\ handleLoadGameFrom (fst saved) playerName
      = Some (GameState_toJSON snapshot)
   /\ (loadedData <-? handleLoadGameFrom (fst saved) playerName ;;
       asGameState loadedData) = Some snapshot
   /\ GameState.playerName snapshot = playerName
   /\ GameState.difficulty snapshot = difficulty s
   /\ GameState.gridData snapshot = gridData s
   /\ GameState.visitedCellTrail snapshot = visitedCellTrail s
   /\ (GameState.gridX (GameState.player snapshot),
       GameState.gridZ (GameState.player snapshot))
      = (ix (currentGridIndices s), iz (currentGridIndices s))
   /\ (GameState.worldX (GameState.player snapshot),
       GameState.worldZ (GameState.player snapshot))
      = (fst (debugPlayerPos s), snd (debugPlayerPos s))
   /\ GameState.health (GameState.player snapshot) = playerHealth s
   /\ GameState.moves (GameState.player snapshot) = playerMoves s
   /\ GameState.timeLeft (GameState.game snapshot) = timeLeft s
   /\ GameState.isFpsView (GameState.game snapshot) = isFpsView s
   /\ GameState.startCell (GameState.game snapshot) = actualStartCellIndices s
   /\ GameState.endCell (GameState.game snapshot) = endCell s
   /\ GameState.isOver (GameState.game snapshot) = gameOver s
   /\ GameState.hasWon (GameState.game snapshot) = hasWon s
   /\ GameState.timerGameOver (GameState.game snapshot) = timerGameOver s)
  /\ (let stored :=
        localStorage_setItem (storageKey (GameState.playerName st))
          (GameState_toJSON st) storage in
      handleLoadGameFrom stored (GameState.playerName st)
      = Some (GameState_toJSON st)
      /\ (loadedData <-? handleLoadGameFrom stored (GameState.playerName st) ;;
          asGameState loadedData) = Some st)
  /\ loadedGameState (GameState.playerName st) (Some (GameState_toJSON st))
     = Some st
  /\ handleLoadGame (GameState.playerName st) (Some (GameState_toJSON st))
     = Some (GameState_toJSON st).
Proof.
  assert (Hstored : forall st' : GameState.t,
             handleLoadGameFrom
               (localStorage_setItem (storageKey (GameState.playerName st'))
                  (GameState_toJSON st') storage)
               (GameState.playerName st')
             = Some (GameState_toJSON st')).
  { intros st'. unfold handleLoadGameFrom, localStorage_setItem.
    rewrite String.eqb_refl. apply handleLoadGame_toJSON. }
  split; [|split; [|split]].
  - cbv zeta. unfold handleSaveGame. cbn [fst snd].
    pose proof (Hstored (currentGameStateForSave playerName s)) as E.
    cbn [GameState.playerName currentGameStateForSave] in E.
    split; [reflexivity|]. split.
    { unfold localStorage_setItem. now rewrite String.eqb_refl. }
    split; [exact E|]. split.
    { rewrite E. simpl. apply asGameState_toJSON. }
    simpl. repeat split.
  - cbv zeta. split; [apply Hstored|].
    rewrite Hstored. simpl. apply asGameState_toJSON.
  - unfold loadedGameState. rewrite handleLoadGame_toJSON. simpl.
    apply asGameState_toJSON.
  - apply handleLoadGame_toJSON.
Qed.

(** Saving a running game and loading it back restores the game: the
    board, the cells, the trail, the player and the clock are those of
    the saved state. *)
Lemma save_load_restore (rnd : nat -> Draw) (fuel : nat) (d : DifficultyLevel)
    (pName : string) (s s0 : State) (c : nat) :
  reachable s -> isOngoing s = true ->
  exists st s',
    loadedGameState pName
      (Some (GameState_toJSON (currentGameStateForSave pName s))) = Some st
    /\ resetGame rnd fuel d (Some st) s0 c = Some (s', c)
    /\ gridData s' = gridData s
    /\ currentGridIndices s' = currentGridIndices s
    /\ actualStartCellIndices s' = actualStartCellIndices s
    /\ endCell s' = endCell s
    /\ visitedCellTrail s' = visitedCellTrail s
    /\ playerHealth s' = playerHealth s /\ playerMoves s' = playerMoves s
    /\ timeLeft s' = timeLeft s
    /\ difficulty s' = difficulty s /\ isFpsView s' = isFpsView s
    /\ isOngoing s' = true.
Proof.
  intros Hr Ho.
  exists (currentGameStateForSave pName s). eexists. split.
  { unfold loadedGameState.
    pose proof (handleLoadGame_toJSON (currentGameStateForSave pName s)) as E.
    cbn [GameState.playerName currentGameStateForSave] in E.
    rewrite E. simpl. apply asGameState_toJSON. }
  split; [reflexivity|]. simpl.
  destruct (Set_ofArray_spec (visitedCellTrail s)) as [_ Hnd].
  rewrite (Hnd (reachable_trail_NoDup s Hr)).
  destruct (currentGridIndices s). repeat split.
Qed.

(** *** Incomplete documents *)

Lemma assoc_assign_same (key : string) (v : JSON) (props : list (string * JSON)) :
  assoc key (assign key v props) = Some v.
Proof.
  induction props as [|[k w] props IH]; simpl.
  - now rewrite String.eqb_refl.
  - destruct (String.eqb k key) eqn:E; simpl; rewrite E; [reflexivity|exact IH].
Qed.

Lemma assoc_assign_other (key key' : string) (v : JSON)
    (props : list (string * JSON)) :
  key' <> key -> assoc key' (assign key v props) = assoc key' props.
Proof.
  intros Hne. induction props as [|[k w] props IH]; simpl.
  - destruct (String.eqb key key') eqn:E; [|reflexivity].
    apply String.eqb_eq in E; congruence.
  - destruct (String.eqb k key) eqn:E; simpl.
    + apply String.eqb_eq in E; subst k.
      destruct (String.eqb key key') eqn:E'; [|reflexivity].
      apply String.eqb_eq in E'; congruence.
    + now rewrite IH.
Qed.

(** C8, as stated, fails: loading does not reject a document that
    misses a required field.  A document without [gridData] and
    [visitedCellTrail] is returned to the caller, with an empty
    [visitedCellTrail] put in; and a document that lacks only the trail
    reads as a complete [GameState] with the empty trail, which
    [resetGame] then restores as a running game. *)
Lemma load_accepts_incomplete :
  getProp "gridData" incompleteDoc = None
  /\ getProp "visitedCellTrail" incompleteDoc = None
  /\ (exists loaded,
        handleLoadGame "ada" (Some incompleteDoc) = Some loaded
        /\ getProp "visitedCellTrail" loaded = Some (JArray [])
        /\ getProp "gridData" loaded = None)
  /\ (exists st s,
        getProp "visitedCellTrail" trailLessDoc = None
        /\ loadedGameState "ada" (Some trailLessDoc) = Some st
        /\ GameState.visitedCellTrail st = []
        /\ resetGame demoRnd 0 easy (Some st) initialState 0%nat = Some (s, 0%nat)
        /\ outcome s = Ongoing)
  /\ ~ (forall pName doc key,
          In key requiredFields -> getProp key doc = None ->
          handleLoadGame pName (Some doc) = None).
Proof.
  split; [reflexivity|]. split; [reflexivity|]. split; [|split].
  - eexists. split; [reflexivity|]. split; reflexivity.
  - eexists; eexists. split; [reflexivity|]. split; [reflexivity|].
    split; [reflexivity|]. split; reflexivity.
  - intros H.
    specialize (H "ada" incompleteDoc "gridData").
    assert (Hin : In "gridData" requiredFields) by (simpl; tauto).
    specialize (H Hin eq_refl). discriminate H.
Qed.

(** C8, amended.  [handleLoadGame] returns [null] exactly when the
    stored value is not an object whose [playerName] is the requested
    name (so also when [playerName] is missing).  Otherwise it returns
    the stored object, with [visitedCellTrail] kept when it is an array
    and set to the empty array when it is missing or not an array; every
    other property is returned as stored, present or not. *)
Theorem handleLoadGame_spec (pName : string) (doc : JSON) :
  (handleLoadGame pName (Some doc) = None
   <-> getProp "playerName" doc <> Some (JString pName))
  /\ (forall loaded,
        handleLoadGame pName (Some doc) = Some loaded ->
        getProp "visitedCellTrail" loaded
        = Some (match getProp "visitedCellTrail" doc with
                | Some (JArray items) => JArray items
                | _ => JArray []
                end)
        /\ forall key, key <> "visitedCellTrail" ->
                       getProp key loaded = getProp key doc).
Proof.
  unfold handleLoadGame.
  assert (Hnone : forall v : option JSON,
            v <> Some (JString pName) ->
            (@None JSON = None <-> v <> Some (JString pName))
            /\ (forall loaded, @None JSON = Some loaded ->
                  getProp "visitedCellTrail" loaded
                  = Some (match getProp "visitedCellTrail" doc with
                          | Some (JArray items) => JArray items
                          | _ => JArray []
                          end)
                  /\ forall key, key <> "visitedCellTrail" ->
                                 getProp key loaded = getProp key doc)).
  { intros v Hv. split; [tauto|intros loaded H; discriminate H]. }
  destruct doc as [| | | |items|props]; try (apply Hnone; discriminate).
  cbn [getProp] in *.
  destruct (assoc "playerName" props) as [[| | |n| |]|] eqn:En;
    try (apply Hnone; discriminate).
  destruct (String.eqb n pName) eqn:E.
  - apply String.eqb_eq in E; subst n. split.
    + split; [discriminate|congruence].
    + intros loaded H; injection H as <-. cbn [getProp]. split.
      * apply assoc_assign_same.
      * intros key Hk. now apply assoc_assign_other.
  - apply String.eqb_neq in E. apply Hnone. congruence.
Qed.

Lemma handleLoadGame_spec_witness :
  exists loaded,
    handleLoadGame "ada" (Some trailLessDoc) = Some loaded
    /\ getProp "visitedCellTrail" loaded = Some (JArray [])
    /\ getProp "gridData" loaded = Some (JArray []).
Proof.
  eexists. split; [reflexivity|].
  destruct (handleLoadGame_spec "ada" trailLessDoc) as [_ H].
  destruct (H _ eq_refl) as [Ht Hk].
  split; [exact Ht|]. rewrite Hk; [reflexivity|discriminate].
Defined.

(** ** The distribution of the start cell

    The first call of [getRandomPerimeterCell] excludes nothing, so the
    start cell is the cell of the first pass through the loop body: an
    edge [e = floor(4 r)] and an offset [o = floor(25 r')] for two values
    [r], [r'] of [Math.random()].  The values that give the pass [(e, o)]
    are those of the rectangle [e/4 <= r < (e+1)/4],
    [o/25 <= r' < (o+1)/25], so that under a uniform source each of the
    100 passes has probability [1/4 * 1/25], and a cell has that
    probability times the number of passes that yield it. *)

Lemma randomInt_interval (n k : Z) (r : Q) :
  randomInt 0 n r = k
  <-> (inject_Z k <= r * inject_Z n)%Q /\ (r * inject_Z n < inject_Z (k + 1))%Q.
Proof.
  unfold randomInt, Math_floor.
  assert (Hv : (r * inject_Z (n - 0) + inject_Z 0 == r * inject_Z n)%Q).
  { rewrite Z.sub_0_r. change (inject_Z 0) with 0%Q. ring. }
  rewrite (Qfloor_comp _ _ Hv). split.
  - intros <-. split; [apply Qfloor_le|apply Qlt_floor].
  - intros [Hlo Hhi].
    pose proof (Qfloor_bounds _ _ _ Hlo Hhi). lia.
Qed.

Lemma onPerimeterb_spec (c : Indices) : onPerimeterb c = true <-> onPerimeter c.
Proof.
  unfold onPerimeterb, onPerimeter, inGrid.
  rewrite !andb_true_iff, !orb_true_iff, !Z.leb_le, !Z.ltb_lt, !Z.eqb_eq.
  tauto.
Qed.

Lemma gridIndices_In (i : Z) : In i gridIndices <-> 0 <= i < GRID_SIZE.
Proof.
  unfold gridIndices. rewrite in_map_iff. split.
  - intros (n & <- & Hn). apply in_seq in Hn. unfold GRID_SIZE in *. lia.
  - intros Hi. exists (Z.to_nat i). split; [lia|].
    apply in_seq. unfold GRID_SIZE in *. lia.
Qed.

Lemma allCells_In (c : Indices) : In c allCells <-> inGrid c.
Proof.
  destruct c as [x z]. unfold allCells, inGrid, ix, iz; cbn [fst snd].
  rewrite <- !gridIndices_In. apply in_prod_iff.
Qed.

(** The pass that yields the start cell, for any source. *)
Lemma startCell_pass (rnd : nat -> Draw) (fuel c c' : nat) (cell : Indices) :
  getRandomPerimeterCell rnd fuel (-1) (-1) c = Some (cell, c') ->
  let e := randomInt 0 4 (Draw_value (rnd c)) in
  let o := randomInt 0 GRID_SIZE (Draw_value (rnd (S c))) in
  cell = perimeterCellOf e o /\ In (e, o) passes /\ In (e, o) (passesOnto cell).
Proof.
  destruct fuel as [|fuel]; [discriminate|].
  rewrite getRandomPerimeterCell_first. intros H; injection H as <- _.
  intros e o. split; [reflexivity|].
  assert (Hp : In (e, o) passes).
  { unfold passes. apply in_prod_iff. split.
    - pose proof (randomInt_range 0 4 (rnd c) ltac:(lia)) as He. fold e in He.
      simpl. lia.
    - apply gridIndices_In, randomInt_range. unfold GRID_SIZE; lia. }
  split; [exact Hp|].
  unfold passesOnto. apply filter_In. split; [exact Hp|].
  now apply Indices_eqb_eq.
Qed.

Lemma filter_none {A} (f : A -> bool) (l : list A) :
  (forall a, In a l -> f a = false) -> filter f l = [].
Proof.
  induction l as [|a l IH]; intros H; simpl; [reflexivity|].
  rewrite (H a) by (left; reflexivity). apply IH. intros b Hb; apply H; now right.
Qed.

Lemma passesOnto_outside (c : Indices) : ~ inGrid c -> passesOnto c = [].
Proof.
  intros Hout. apply filter_none. intros [e o] Hin; simpl.
  apply in_prod_iff in Hin as [_ Ho]. apply gridIndices_In in Ho.
  destruct (Indices_eqb _ c) eqn:E; [|reflexivity].
  apply Indices_eqb_eq in E. destruct Hout. rewrite <- E.
  apply (perimeterCellOf_onPerimeter e o Ho).
Qed.

Lemma startProbability_inGrid :
  forallb (fun c => Qeq_bool (startProbability c) (expectedProbability c))
          allCells = true.
Proof. vm_compute. reflexivity. Qed.

(** On the 4 x 25 equally likely pairs of values [(e/4, o/25)], the loop
    body proposes each cell as often as there are passes onto it. *)
Lemma hits_inGrid :
  (let cells := proposals 4 25 in
   forallb (fun c => Nat.eqb (countOf c cells) (List.length (passesOnto c)))
           allCells) = true.
Proof. vm_compute. reflexivity. Qed.

(** C7, as stated, fails: the corner (0, 0) lies on two edges and is
    yielded by two passes, its neighbour (1, 0) by one; under a uniform
    source the corner is twice as likely to be the start cell. *)
Lemma corner_twice_as_likely :
  onPerimeter (0, 0) /\ onPerimeter (1, 0)
  /\ hits 100 100 (0, 0) = 200%nat /\ hits 100 100 (1, 0) = 100%nat
  /\ passesOnto (0, 0) = [(0, 0); (2, 0)]
  /\ passesOnto (1, 0) = [(0, 1)]
  /\ (startProbability (0, 0)%Z == 2 # 100)%Q
  /\ (startProbability (1, 0)%Z == 1 # 100)%Q
  /\ ~ (forall c1 c2, onPerimeter c1 -> onPerimeter c2 ->
                      (startProbability c1 == startProbability c2)%Q).
Proof.
  assert (H0 : onPerimeter (0, 0)) by (apply onPerimeterb_spec; reflexivity).
  assert (H1 : onPerimeter (1, 0)) by (apply onPerimeterb_spec; reflexivity).
  split; [exact H0|]. split; [exact H1|].
  split; [vm_compute; reflexivity|]. split; [vm_compute; reflexivity|].
  split; [vm_compute; reflexivity|]. split; [vm_compute; reflexivity|].
  split; [vm_compute; reflexivity|]. split; [vm_compute; reflexivity|].
  intros H. specialize (H (0, 0) (1, 0) H0 H1). vm_compute in H. discriminate.
Qed.

(** C7, amended.  Under a uniform source each of the 100 passes (edge,
    offset) is equally likely, and the start cell is distributed over
    the [4 * GRID_SIZE - 4 = 96] perimeter cells as follows: each of the
    four corners has probability 2/100, each of the other 92 perimeter
    cells 1/100, and every other cell 0.  (The second part counts the
    proposals of the loop body itself on the 4 x 25 equally likely pairs
    of values.) *)
Theorem startCell_distribution :
  (forall c, startProbability c == expectedProbability c)%Q
  /\ (forall c, In c allCells ->
                hits 4 25 c = List.length (passesOnto c))
  /\ List.length passes = 100%nat
  /\ List.length (filter onPerimeterb allCells) = Z.to_nat (4 * GRID_SIZE - 4)
  /\ List.length (filter isCorner allCells) = 4%nat
  /\ (forall c, isCorner c = true -> onPerimeter c).
Proof.
  split; [|split; [|split; [reflexivity|split; [reflexivity|split;
                                                   [reflexivity|]]]]].
  2:{ intros c Hin. pose proof hits_inGrid as H. cbv zeta in H.
      rewrite forallb_forall in H. apply Nat.eqb_eq, H, Hin. }
  - intros c. destruct (onPerimeterb c) eqn:Ep.
    + apply onPerimeterb_spec in Ep as [Hin _].
      apply allCells_In in Hin.
      pose proof startProbability_inGrid as H.
      rewrite forallb_forall in H. apply Qeq_bool_iff, H, Hin.
    + assert (Hc : isCorner c = false).
      { destruct (isCorner c) eqn:Ec; [|reflexivity].
        exfalso. revert Ep Ec. unfold isCorner, onPerimeterb, GRID_SIZE.
        rewrite !andb_true_iff, !orb_true_iff, !Z.eqb_eq.
        intros Ep [[Hx|Hx] [Hz|Hz]]; rewrite Hx, Hz in Ep; discriminate. }
      unfold expectedProbability. rewrite Hc, Ep.
      destruct (Z_le_dec 0 (ix c)) as [Hx0|];
        [destruct (Z_lt_dec (ix c) GRID_SIZE) as [Hx1|];
         [destruct (Z_le_dec 0 (iz c)) as [Hz0|];
          [destruct (Z_lt_dec (iz c) GRID_SIZE) as [Hz1|]|]|]|];
        try (unfold startProbability; rewrite passesOnto_outside;
             [reflexivity|unfold inGrid; lia]).
      assert (Hin : In c allCells) by (apply allCells_In; unfold inGrid; lia).
      pose proof startProbability_inGrid as H.
      rewrite forallb_forall in H. specialize (H c Hin).
      apply Qeq_bool_iff in H.
      unfold expectedProbability in H. now rewrite Hc, Ep in H.
  - intros c Hc. apply onPerimeterb_spec.
    unfold isCorner, GRID_SIZE in Hc.
    rewrite !andb_true_iff, !orb_true_iff, !Z.eqb_eq in Hc.
    unfold onPerimeterb, GRID_SIZE.
    destruct Hc as [[Hx|Hx] [Hz|Hz]]; rewrite Hx, Hz; reflexivity.
Qed.

(** * Further properties *)

(** ** Grid indices and world coordinates *)

Lemma indexOfWorld_floor (w : Q) : indexOfWorld w = Qfloor (w + (25 # 2))%Q.
Proof.
  unfold indexOfWorld, Math_round. apply Qfloor_comp.
  unfold GRID_SIZE, CELL_UNIT_SIZE.
  change (inject_Z 1) with 1%Q. change (inject_Z 25) with 25%Q. field.
Qed.

Lemma worldOfIndex_value (i : Z) : (worldOfIndex i == inject_Z i - 12)%Q.
Proof.
  unfold worldOfIndex, GRID_SIZE, CELL_UNIT_SIZE.
  change (inject_Z 1) with 1%Q. change (inject_Z 25) with 25%Q. field.
Qed.

(** The world positions that the tick converts to the index [i] are
    those of the unit square around the centre of cell [i], its lower
    edge included and its upper edge excluded. *)
Lemma indexOfWorld_square (w : Q) (i : Z) :
  indexOfWorld w = i
  <-> (worldOfIndex i - (1 # 2) <= w)%Q /\ (w < worldOfIndex i + (1 # 2))%Q.
Proof.
  rewrite indexOfWorld_floor, !worldOfIndex_value. split.
  - intros <-.
    pose proof (Qfloor_le (w + (25 # 2))) as H1.
    pose proof (Qlt_floor (w + (25 # 2))) as H2.
    rewrite inject_Z_plus in H2. change (inject_Z 1) with 1%Q in H2.
    split; lra.
  - intros [H1 H2].
    assert (H : i <= Qfloor (w + (25 # 2)) < i + 1).
    { apply Qfloor_bounds;
        [|rewrite inject_Z_plus; change (inject_Z 1) with 1%Q]; lra. }
    lia.
Qed.

(** X1. Grid indices and world coordinates, in a form that does not
    depend on how the sums are rounded.  For the indices of the board,
    the index of the world coordinate of an index is that index, so the
    centre of every generated cell is sampled as that cell.  A world
    coordinate within the unit square of a cell of the board, and not
    closer than [2^-40] to its edges, is converted to the index of that
    cell, which clamping leaves as it is; conversely a coordinate
    converted to the index of a cell of the board lies within [2^-40]
    of the unit square of that cell.  The conversion never decreases
    when the coordinate grows. *)
Theorem index_world_roundtrip :
  (forall i, 0 <= i < GRID_SIZE -> indexOfWorld (worldOfIndex i) = i)
  /\ (forall w i,
        0 <= i < GRID_SIZE ->
        (worldOfIndex i - (1 # 2) + (1 # 2 ^ 40) <= w)%Q ->
        (w <= worldOfIndex i + (1 # 2) - (1 # 2 ^ 40))%Q ->
        indexOfWorld w = i /\ clampIndex (indexOfWorld w) = i)
  /\ (forall w i,
        0 <= i < GRID_SIZE -> indexOfWorld w = i ->
        (worldOfIndex i - (1 # 2) - (1 # 2 ^ 40) <= w)%Q
        /\ (w <= worldOfIndex i + (1 # 2) + (1 # 2 ^ 40))%Q)
  /\ (forall w w', (w <= w')%Q -> indexOfWorld w <= indexOfWorld w')
  /\ (forall startCellIndices endCellIndices i j cell,
        0 <= i < GRID_SIZE -> 0 <= j < GRID_SIZE ->
        cellOk startCellIndices endCellIndices i j cell ->
        sampleCell (GridCell.x cell, GridCell.z cell) = (i, j)).
Proof.
  assert (Hrt : forall i, indexOfWorld (worldOfIndex i) = i).
  { intros i. apply indexOfWorld_square. split; lra. }
  split; [intros i _; apply Hrt|]. split.
  { intros w i Hi Hlo Hhi.
    assert (E : indexOfWorld w = i).
    { apply indexOfWorld_square.
      change (1 # 2 ^ 40)%Q with (1 # 1099511627776)%Q in *. split; lra. }
    split; [exact E|]. rewrite E. unfold clampIndex, GRID_SIZE in *. lia. }
  split.
  { intros w i _ E. apply indexOfWorld_square in E as [H1 H2].
    change (1 # 2 ^ 40)%Q with (1 # 1099511627776)%Q. split; lra. }
  split.
  { intros w w' Hle. rewrite !indexOfWorld_floor.
    apply Qfloor_resp_le. lra. }
  intros st en i j cell Hi Hj (_ & _ & _ & Hx & Hz & _).
  unfold sampleCell; simpl. rewrite Hx, Hz, !Hrt.
  unfold clampIndex, GRID_SIZE in *. f_equal; lia.
Qed.

Lemma index_world_roundtrip_witness :
  indexOfWorld (worldOfIndex 12) = 12
  /\ clampIndex (indexOfWorld (49 # 100)) = 12.
Proof.
  destruct index_world_roundtrip as (Hrt & Hin & _).
  split.
  - apply Hrt. unfold GRID_SIZE; lia.
  - apply (Hin (49 # 100)%Q 12); [unfold GRID_SIZE; lia| |];
      vm_compute; discriminate.
Defined.

(** ** Movement and camera bounds *)

Lemma Qltb_lt (a b : Q) : Qltb a b = true <-> (a < b)%Q.
Proof.
  unfold Qltb. rewrite negb_true_iff. split.
  - intros H. apply Qnot_le_lt. intros Hle.
    apply Qle_bool_iff in Hle. congruence.
  - intros H. destruct (Qle_bool b a) eqn:E; [|reflexivity].
    apply Qle_bool_iff in E. exfalso. apply (Qlt_not_le _ _ H E).
Qed.

Lemma Qltb_ge (a b : Q) : Qltb a b = false <-> (b <= a)%Q.
Proof.
  unfold Qltb. rewrite negb_false_iff. apply Qle_bool_iff.
Qed.

Lemma Math_clamp_range (lo hi x : Q) :
  (lo <= hi)%Q ->
  (lo <= Math_max lo (Math_min hi x))%Q /\ (Math_max lo (Math_min hi x) <= hi)%Q.
Proof.
  intros Hle. unfold Math_max, Math_min.
  destruct (Qle_bool hi x) eqn:E1.
  - apply Qle_bool_iff in E1. destruct (Qle_bool lo hi) eqn:E2.
    + split; lra.
    + split; lra.
  - assert (H1 : (x < hi)%Q).
    { apply Qnot_le_lt. intros H. apply Qle_bool_iff in H. congruence. }
    destruct (Qle_bool lo x) eqn:E2.
    + apply Qle_bool_iff in E2. split; lra.
    + split; lra.
Qed.

Lemma Math_clamp_inside (lo hi x : Q) :
  (lo <= x)%Q -> (x <= hi)%Q -> (Math_max lo (Math_min hi x) == x)%Q.
Proof.
  intros Hlo Hhi. unfold Math_max, Math_min.
  destruct (Qle_bool hi x) eqn:E1.
  - apply Qle_bool_iff in E1. destruct (Qle_bool lo hi) eqn:E2; [lra|].
    assert (H : (hi < lo)%Q).
    { apply Qnot_le_lt. intros H. apply Qle_bool_iff in H. congruence. }
    lra.
  - destruct (Qle_bool lo x) eqn:E2; [reflexivity|].
    assert (H : (x < lo)%Q).
    { apply Qnot_le_lt. intros H. apply Qle_bool_iff in H. congruence. }
    lra.
Qed.

Lemma actualVelocity_safe (minPos maxPos v dt cur : Q) :
  (0 <= dt)%Q -> (minPos <= cur)%Q -> (cur <= maxPos)%Q ->
  let v' := actualVelocity minPos maxPos v (cur + v * dt) in
  (minPos <= cur + v' * dt)%Q /\ (cur + v' * dt <= maxPos)%Q
  /\ (v' == v \/ v' == 0)%Q.
Proof.
  intros Hdt Hlo Hhi. cbv zeta. unfold actualVelocity.
  destruct (Qltb 0 v) eqn:Ep; [apply Qltb_lt in Ep|apply Qltb_ge in Ep].
  - pose proof (Qmult_le_0_compat v dt (Qlt_le_weak _ _ Ep) Hdt) as Hm.
    destruct (Qltb maxPos (cur + v * dt)) eqn:En; simpl.
    + split; [lra|]. split; [lra|]. right; reflexivity.
    + apply Qltb_ge in En.
      replace (Qltb v 0) with false
        by (symmetry; apply Qltb_ge; lra). simpl.
      split; [lra|]. split; [lra|]. left; reflexivity.
  - simpl. destruct (Qltb v 0) eqn:Eneg; simpl.
    + apply Qltb_lt in Eneg.
      assert (Hm : (0 <= (- v) * dt)%Q)
        by (apply Qmult_le_0_compat; lra).
      assert (Hm' : (v * dt <= 0)%Q) by lra.
      destruct (Qltb (cur + v * dt) minPos) eqn:En; simpl.
      * split; [lra|]. split; [lra|]. right; reflexivity.
      * apply Qltb_ge in En. split; [lra|]. split; [lra|]. left; reflexivity.
    + apply Qltb_ge in Eneg.
      assert (Hv : (v == 0)%Q) by lra.
      assert (Hm : (v * dt == 0)%Q) by (rewrite Hv; ring).
      split; [lra|]. split; [lra|]. left; reflexivity.
Qed.

(** X2. For a sphere radius whose bounding radius lies between 0 and 12
    (the default 0.35 * 0.85 does), [arrow-controls] keeps the sphere on
    the board.  Without a kinematic body, the position it writes lies
    between [minPos] and [maxPos] on both axes, and such a position is
    converted by the game tick to an index of the grid without any
    clamping.  With a kinematic body, each component of the velocity it
    hands over is the requested one or zero, and moving at it for the
    elapsed time from a position within the bounds stays within the
    bounds. *)
Theorem arrowControls_keeps_board (radiusAttr : option Q) (velocity : Q * Q)
    (dt : Q) (currentPosition : Q * Q) :
  (0 <= arrowRadius radiusAttr)%Q -> (arrowRadius radiusAttr <= 12)%Q ->
  (forall x z,
     arrowControlsMove radiusAttr false velocity dt currentPosition
     = SetPosition x z ->
     (arrowMinPos radiusAttr <= x)%Q /\ (x <= arrowMaxPos radiusAttr)%Q
     /\ (arrowMinPos radiusAttr <= z)%Q /\ (z <= arrowMaxPos radiusAttr)%Q
     /\ clampIndex (indexOfWorld x) = indexOfWorld x
     /\ clampIndex (indexOfWorld z) = indexOfWorld z
     /\ inGrid (indexOfWorld x, indexOfWorld z))
  /\ (forall vx vz,
        arrowControlsMove radiusAttr true velocity dt currentPosition
        = SetVelocity vx vz ->
        (0 <= dt)%Q ->
        (vx == fst velocity \/ vx == 0)%Q /\ (vz == snd velocity \/ vz == 0)%Q
        /\ ((arrowMinPos radiusAttr <= fst currentPosition)%Q ->
            (fst currentPosition <= arrowMaxPos radiusAttr)%Q ->
            (arrowMinPos radiusAttr <= fst currentPosition + vx * dt)%Q
            /\ (fst currentPosition + vx * dt <= arrowMaxPos radiusAttr)%Q)
        /\ ((arrowMinPos radiusAttr <= snd currentPosition)%Q ->
            (snd currentPosition <= arrowMaxPos radiusAttr)%Q ->
            (arrowMinPos radiusAttr <= snd currentPosition + vz * dt)%Q
            /\ (snd currentPosition + vz * dt <= arrowMaxPos radiusAttr)%Q)).
Proof.
  intros Hr0 Hr12.
  assert (Hmax : (arrowMaxPos radiusAttr == 12 - arrowRadius radiusAttr)%Q).
  { unfold arrowMaxPos, GRID_SIZE, CELL_UNIT_SIZE.
    change (inject_Z 1) with 1%Q. change (inject_Z 25) with 25%Q. field. }
  assert (Hmin : (arrowMinPos radiusAttr == - 12 + arrowRadius radiusAttr)%Q).
  { unfold arrowMinPos, GRID_SIZE, CELL_UNIT_SIZE.
    change (inject_Z 1) with 1%Q. change (inject_Z 25) with 25%Q. field. }
  assert (Hle : (arrowMinPos radiusAttr <= arrowMaxPos radiusAttr)%Q) by lra.
  assert (Hin : forall w,
             (arrowMinPos radiusAttr <= w)%Q -> (w <= arrowMaxPos radiusAttr)%Q ->
             clampIndex (indexOfWorld w) = indexOfWorld w
             /\ 0 <= indexOfWorld w < GRID_SIZE).
  { intros w Hlo Hhi. rewrite indexOfWorld_floor.
    assert (H : 0 <= Qfloor (w + (25 # 2)) < 25).
    { apply Qfloor_bounds;
        [change (inject_Z 0) with 0%Q|change (inject_Z 25) with 25%Q]; lra. }
    unfold clampIndex, GRID_SIZE. lia. }
  split.
  - intros x z H. unfold arrowControlsMove in H. injection H as <- <-.
    destruct (Math_clamp_range _ _ (fst currentPosition + fst velocity * dt) Hle)
      as [Hx1 Hx2].
    destruct (Math_clamp_range _ _ (snd currentPosition + snd velocity * dt) Hle)
      as [Hz1 Hz2].
    destruct (Hin _ Hx1 Hx2) as [Hcx Hix]. destruct (Hin _ Hz1 Hz2) as [Hcz Hiz].
    repeat split; try assumption; unfold ix, iz; simpl; lia.
  - intros vx vz H Hdt. unfold arrowControlsMove in H. injection H as <- <-.
    split; [|split; [|split]].
    + unfold actualVelocity. destruct (_ || _); [right|left]; reflexivity.
    + unfold actualVelocity. destruct (_ || _); [right|left]; reflexivity.
    + intros Hlo Hhi.
      destruct (actualVelocity_safe _ _ (fst velocity) dt _ Hdt Hlo Hhi)
        as (H1 & H2 & _). split; assumption.
    + intros Hlo Hhi.
      destruct (actualVelocity_safe _ _ (snd velocity) dt _ Hdt Hlo Hhi)
        as (H1 & H2 & _). split; assumption.
Qed.

(** The sphere of the scene (default radius) pushed right at speed 2.8
    for a tenth of a second from 11.6: without a body it is put on the
    bound 11.7025, with a body its velocity along x is cancelled. *)
Lemma arrowControls_keeps_board_witness :
  arrowControlsMove None false (28 # 10, 0)%Q (1 # 10) (116 # 10, 0)%Q
  = SetPosition (arrowMaxPos None) (0 + 0 * (1 # 10))
  /\ (arrowMaxPos None == 117025 # 10000)%Q
  /\ arrowControlsMove None true (28 # 10, 0)%Q (1 # 10) (116 # 10, 0)%Q
     = SetVelocity 0 0
  /\ forall x z,
       arrowControlsMove None false (28 # 10, 0)%Q (1 # 10) (116 # 10, 0)%Q
       = SetPosition x z ->
       inGrid (indexOfWorld x, indexOfWorld z).
Proof.
  split; [vm_compute; reflexivity|]. split; [vm_compute; reflexivity|].
  split; [vm_compute; reflexivity|].
  intros x z H.
  destruct (arrowControls_keeps_board None (28 # 10, 0)%Q (1 # 10) (116 # 10, 0)%Q)
    as [Hpos _].
  - vm_compute; discriminate.
  - vm_compute; discriminate.
  - apply (Hpos x z H).
Defined.

(** X3. With [minZoom <= maxZoom] (the schema has 7.5 and 37.5), the
    height that [camera-controls] gives the rig lies in the zoom range
    after every tick, whatever the elapsed time and the keys, and so
    after every run of ticks; and a tick with neither or both of KeyZ
    and KeyX pressed leaves a height that lies in the range as it is. *)
Theorem cameraZoom_in_range (minZoom maxZoom zoomSpeed : Q) :
  (minZoom <= maxZoom)%Q ->
  (forall dt keyZ keyX y,
     (minZoom <= cameraZoom minZoom maxZoom zoomSpeed dt keyZ keyX y)%Q
     /\ (cameraZoom minZoom maxZoom zoomSpeed dt keyZ keyX y <= maxZoom)%Q)
  /\ (forall ticks y,
        (minZoom <= y)%Q -> (y <= maxZoom)%Q ->
        (minZoom <= cameraZoomRun minZoom maxZoom zoomSpeed ticks y)%Q
        /\ (cameraZoomRun minZoom maxZoom zoomSpeed ticks y <= maxZoom)%Q)
  /\ (forall dt keys y,
        (minZoom <= y)%Q -> (y <= maxZoom)%Q ->
        (cameraZoom minZoom maxZoom zoomSpeed dt keys keys y == y)%Q).
Proof.
  intros Hle.
  assert (H1 : forall dt keyZ keyX y,
             (minZoom <= cameraZoom minZoom maxZoom zoomSpeed dt keyZ keyX y)%Q
             /\ (cameraZoom minZoom maxZoom zoomSpeed dt keyZ keyX y <= maxZoom)%Q).
  { intros dt keyZ keyX y. unfold cameraZoom. now apply Math_clamp_range. }
  split; [exact H1|]. split.
  - intros ticks. induction ticks as [|[[dt kz] kx] ticks IH]; intros y Hlo Hhi.
    + split; assumption.
    + unfold cameraZoomRun in *. simpl. destruct (H1 dt kz kx y). now apply IH.
  - intros dt keys y Hlo Hhi. unfold cameraZoom.
    destruct keys.
    + rewrite Math_clamp_inside; [ring|lra|lra].
    + now apply Math_clamp_inside.
Qed.

Lemma cameraZoom_in_range_witness :
  (MIN_CAMERA_ZOOM == 75 # 10)%Q /\ (MAX_CAMERA_ZOOM == 375 # 10)%Q
  /\ (cameraZoom MIN_CAMERA_ZOOM MAX_CAMERA_ZOOM 8 10 true false
        INITIAL_CAMERA_Y_POSITION == MIN_CAMERA_ZOOM)%Q
  /\ forall ticks,
       (MIN_CAMERA_ZOOM
        <= cameraZoomRun MIN_CAMERA_ZOOM MAX_CAMERA_ZOOM 8 ticks
             INITIAL_CAMERA_Y_POSITION)%Q.
Proof.
  split; [vm_compute; reflexivity|]. split; [vm_compute; reflexivity|].
  split; [vm_compute; reflexivity|].
  intros ticks.
  destruct (cameraZoom_in_range MIN_CAMERA_ZOOM MAX_CAMERA_ZOOM 8) as (_ & Hrun & _).
  - vm_compute; discriminate.
  - apply Hrun; vm_compute; discriminate.
Defined.

(** ** Keys and identifiers of cells *)

Lemma string_of_uint_digits (d : Decimal.uint) (c : ascii) :
  In c (list_ascii_of_string (NilEmpty.string_of_uint d)) ->
  (48 <= nat_of_ascii c <= 57)%nat.
Proof.
  induction d; simpl; try tauto;
    (intros [<-|H]; [vm_compute; split; repeat constructor|now apply IHd]).
Qed.

Lemma numToString_chars (n : Z) (c : ascii) :
  In c (list_ascii_of_string (numToString n)) ->
  (48 <= nat_of_ascii c <= 57)%nat \/ (n < 0 /\ c = "-"%char).
Proof.
  unfold numToString. destruct n as [|p|p]; simpl.
  - intros [<-|[]]. left. vm_compute; split; repeat constructor.
  - pose proof (DecimalPos.Unsigned.to_uint_nonnil p) as Hn.
    destruct (Pos.to_uint p) eqn:E; try congruence;
      intros H; left; now apply (string_of_uint_digits _ _ H).
  - pose proof (DecimalPos.Unsigned.to_uint_nonnil p) as Hn.
    intros [<-|H]; [right; split; [lia|reflexivity]|].
    destruct (Pos.to_uint p) eqn:E; try congruence;
      left; now apply (string_of_uint_digits _ _ H).
Qed.

Lemma numToString_inj (a b : Z) : numToString a = numToString b -> a = b.
Proof.
  unfold numToString. intros H.
  assert (Hnil : forall n, Z.to_int n <> Decimal.Pos Decimal.Nil
                           /\ Z.to_int n <> Decimal.Neg Decimal.Nil).
  { intros [|p|p]; simpl; split; try discriminate;
      intros [= E]; now apply (DecimalPos.Unsigned.to_uint_nonnil p). }
  apply DecimalZ.to_int_inj.
  pose proof (NilZero.isi (Z.to_int a) (proj1 (Hnil a)) (proj2 (Hnil a))) as Ea.
  pose proof (NilZero.isi (Z.to_int b) (proj1 (Hnil b)) (proj2 (Hnil b))) as Eb.
  rewrite H in Ea. congruence.
Qed.

(** Two strings cut at the first occurrence of a separator. *)
Lemma separator_unique (sep : ascii) (a a' b b' : string) :
  ~ In sep (list_ascii_of_string a) -> ~ In sep (list_ascii_of_string a') ->
  (a ++ String sep b = a' ++ String sep b')%string ->
  a = a' /\ b = b'.
Proof.
  revert a'. induction a as [|x a IH]; intros [|x' a'] Ha Ha'; simpl in *.
  - intros [= <-]. split; reflexivity.
  - intros [= <- _]. exfalso; apply Ha'; now left.
  - intros [= -> _]. exfalso; apply Ha; now left.
  - intros [= <- E]. destruct (IH a') as [-> ->]; try assumption; tauto.
Qed.

Lemma cellKey_inj (c c' : Indices) : cellKey c = cellKey c' -> c = c'.
Proof.
  destruct c as [x z], c' as [x' z']. unfold cellKey, ix, iz; cbn [fst snd].
  change ("," ++ ?s)%string with (String "," s).
  intros H. apply separator_unique in H as [Hx Hz].
  - apply numToString_inj in Hx, Hz. congruence.
  - intros Hin. apply numToString_chars in Hin as [Hd|[_ Hd]];
      [vm_compute in Hd; lia|discriminate].
  - intros Hin. apply numToString_chars in Hin as [Hd|[_ Hd]];
      [vm_compute in Hd; lia|discriminate].
Qed.

Lemma cellId_inj (i j i' j' : Z) :
  0 <= i -> 0 <= i' -> cellId i j = cellId i' j' -> i = i' /\ j = j'.
Proof.
  intros Hi Hi'. unfold cellId.
  change ("cell-" ++ ?s)%string
    with (String "c" (String "e" (String "l" (String "l" (String "-" s))))).
  change ("-" ++ ?s)%string with (String "-" s).
  intros [= H]. apply separator_unique in H as [Hx Hz].
  - apply numToString_inj in Hx, Hz. now split.
  - intros Hin. apply numToString_chars in Hin as [Hd|[Hn _]];
      [vm_compute in Hd; lia|lia].
  - intros Hin. apply numToString_chars in Hin as [Hd|[Hn _]];
      [vm_compute in Hd; lia|lia].
Qed.

(** X4. The rendering of a number determines the number, so two cells
    have the same trail key [`${x},${z}`] only if they are the same
    cell (whatever the sign of the indices), and two cells with
    non-negative row index have the same identifier
    [`cell-${i}-${j}`], the React key of their plane, only if they are
    the same cell. *)
Theorem cell_keys_distinct :
  (forall a b, numToString a = numToString b -> a = b)
  /\ (forall c c', cellKey c = cellKey c' -> c = c')
  /\ (forall i j i' j', 0 <= i -> 0 <= i' ->
        cellId i j = cellId i' j' -> i = i' /\ j = j').
Proof.
  split; [exact numToString_inj|]. split; [exact cellKey_inj|exact cellId_inj].
Qed.

Lemma cell_keys_distinct_witness :
  cellKey (1, 12) = "1,12" /\ cellKey (11, 2) = "11,2"
  /\ cellId 1 12 = "cell-1-12"
  /\ (cellId 1 12 = cellId 11 2 -> False).
Proof.
  split; [reflexivity|]. split; [reflexivity|]. split; [reflexivity|].
  intros H.
  destruct cell_keys_distinct as (_ & _ & Hid).
  destruct (Hid 1 12 11 2) as [E _]; [lia|lia|exact H|discriminate E].
Defined.

(** ** Session states *)

Lemma indexOfWorld_worldOfIndex (i : Z) : indexOfWorld (worldOfIndex i) = i.
Proof. apply indexOfWorld_square. split; lra. Qed.

Lemma generateGrid_full (rnd : nat -> Draw) (st en : Indices) (ratio : Q)
    (c c' : nat) (grid : list (list GridCell.t)) :
  generateGrid rnd st en ratio c = Some (grid, c') -> gridFull st en grid.
Proof.
  intros H. unfold gridFull.
  apply (forEach_Forall2 _
           (fun i row => Forall2 (cellOk st en i) gridIndices row)) in H;
    [exact H|].
  intros i c0 row c1 Hrow. eapply forEach_Forall2; [|exact Hrow].
  intros j c2 cell c3. apply generateCell_spec.
Qed.

Lemma gridFull_gridOk (st en : Indices) (grid : list (list GridCell.t)) :
  gridFull st en grid -> gridOk st en grid.
Proof.
  intros H i j Hi Hj.
  destruct (Forall2_nth_error_l _ _ _ H _ _ (gridIndices_nth i Hi))
    as (row & Erow & Hrow).
  destruct (Forall2_nth_error_l _ _ _ Hrow _ _ (gridIndices_nth j Hj))
    as (cell & Ecell & Hcell).
  exists cell. split; [|exact Hcell].
  unfold cellAt.
  replace (i <? 0) with false by (symmetry; apply Z.ltb_ge; lia).
  replace (j <? 0) with false by (symmetry; apply Z.ltb_ge; lia).
  simpl. now rewrite Erow.
Qed.

Lemma initializeGameData_full (rnd : nat -> Draw) (fuel : nat)
    (d : DifficultyLevel) (c c' : nat) grid st en :
  initializeGameData rnd fuel d c = Some ((grid, st, en), c') ->
  gridFull st en grid.
Proof.
  destruct fuel as [|fuel]; [discriminate|].
  rewrite initializeGameData_eq.
  destruct (getRandomPerimeterCell _ _ _ _ _) as [[e c1]|]; [|discriminate].
  destruct (generateGrid _ _ _ _ _) as [[g c2]|] eqn:Eg; [|discriminate].
  intros [= <- <- <- _]. now apply generateGrid_full in Eg.
Qed.

Lemma consistent_playable (s : State) : consistent s -> playable s.
Proof.
  intros ((Hg & _) & _ & (_ & Ht & _ & Hcur & _)).
  split; [now apply gridFull_gridOk|]. split; [exact Hcur|].
  intros H. now apply Ht.
Qed.

Lemma consistent_new (rnd : nat -> Draw) (fuel : nat) (d : DifficultyLevel)
    (s0 : State) (c : nat) (s : State) (c' : nat) :
  resetGame rnd fuel d None s0 c = Some (s, c') -> consistent s.
Proof.
  unfold resetGame, bind.
  destruct (initializeGameData rnd fuel d c) as [[[[grid st] en] c1]|] eqn:Ei;
    [|discriminate].
  pose proof (initializeGameData_sound _ _ _ _ _ _ Ei) as (Hd & Hps & Hpe & _).
  apply initializeGameData_full in Ei.
  unfold ret; intros [= <- _].
  split; [|split].
  - unfold boardOk; simpl. tauto.
  - unfold trailOk; simpl. split; [apply Hps|]. split; [constructor|tauto].
  - unfold flagsOk, isOngoing; simpl.
    unfold INITIAL_PLAYER_HEALTH, INITIAL_PLAYER_MOVES, GAME_DURATION_SECONDS.
    repeat split; try discriminate; try lia. intros _; exact Hd.
Qed.

Lemma consistent_load (rnd : nat -> Draw) (fuel : nat) (d : DifficultyLevel)
    (pName : string) (saved s0 : State) (c : nat) (s : State) (c' : nat) :
  consistent saved -> isOngoing saved = true ->
  resetGame rnd fuel d (Some (currentGameStateForSave pName saved)) s0 c
  = Some (s, c') ->
  consistent s.
Proof.
  intros (Hb & (Hcur & Hnd & Hk) & Hf) Ho.
  simpl. unfold ret; intros [= <- _].
  apply isOngoing_flags in Ho as (Hg & Hw & Ht).
  split; [|split].
  - destruct Hb as (Hb1 & Hb2 & Hb3 & Hb4 & _).
    unfold boardOk; simpl. tauto.
  - unfold trailOk; simpl.
    destruct (Set_ofArray_spec (visitedCellTrail saved)) as [_ Heq].
    rewrite (Heq Hnd).
    split; [|split; [exact Hnd|exact Hk]].
    destruct (currentGridIndices saved); exact Hcur.
  - destruct Hf as (_ & _ & _ & Hne & Hpos & Htl & Hbt & Hbh & Hbm).
    unfold flagsOk, isOngoing; simpl.
    split; [discriminate|]. split; [discriminate|]. split; [discriminate|].
    split.
    { intros _. unfold isOngoing in Hne. rewrite Hg, Hw, Ht in Hne.
      destruct (currentGridIndices saved); now apply Hne. }
    split; [intros _; apply Hpos; now left|].
    split; [intros _; now apply Htl|]. tauto.
Qed.

Lemma trailAfterLeaving_keys (s : State) :
  trailOk s -> forall k, In k (trailAfterLeaving s) -> trailKeyOk s k.
Proof.
  intros (Hcur & Hnd & Hk) k. unfold trailAfterLeaving.
  destruct (cellAt _ _ _); [|apply Hk].
  destruct (Indices_eqb (currentGridIndices s) (actualStartCellIndices s)) eqn:E1;
    [apply Hk|].
  destruct (Indices_eqb (currentGridIndices s) (endCell s)) eqn:E2;
    [apply Hk|]. simpl.
  intros Hin. apply Set_add_In in Hin as [->|Hin]; [|now apply Hk].
  exists (currentGridIndices s).
  split; [exact Hcur|]. split; [|split; [|reflexivity]].
  - intros Heq. apply Indices_eqb_eq in Heq. congruence.
  - intros Heq. apply Indices_eqb_eq in Heq. congruence.
Qed.

Lemma CELL_EFFECTS_costs (t : GridCellType) :
  -50 <= healthChange (CELL_EFFECTS t) <= 0
  /\ -10 <= movesChange (CELL_EFFECTS t) <= 0
  /\ 5 * movesChange (CELL_EFFECTS t) + healthChange (CELL_EFFECTS t) <= -5.
Proof. destruct t; simpl; lia. Qed.

Lemma consistent_sample (s : State) (position : Q * Q) :
  consistent s -> consistent (onPositionSample s position).
Proof.
  intros Hc. pose proof (consistent_playable s Hc) as Hp.
  destruct (gameOver s || hasWon s) eqn:Hg.
  { unfold onPositionSample; now rewrite Hg. }
  pose proof (playable_flags s Hp Hg) as Ho.
  rewrite (onPositionSample_ongoing s position Ho).
  destruct (Indices_eqb _ (currentGridIndices s)); [exact Hc|].
  destruct Hp as (Hgrid & _ & _).
  destruct (gridOk_cell _ _ _ _ Hgrid (sampleCell_inGrid position))
    as (cell & -> & _).
  destruct Hc as (Hb & Htr & Hf).
  pose proof (trailAfterLeaving_keys s Htr) as Hkeys.
  pose proof (trailAfterLeaving_NoDup s (proj1 (proj2 Htr))) as Hnd.
  apply isOngoing_flags in Ho as (Hgo & Hw & Ht).
  destruct Hf as (_ & _ & _ & _ & Hpos & Htl & Hbt & Hbh & Hbm).
  assert (Hpos' : 0 < playerHealth s /\ 0 < playerMoves s)
    by (apply Hpos; now left).
  specialize (Htl Ht).
  destruct (Indices_eqb _ (endCell s)) eqn:Ee.
  - apply Indices_eqb_eq in Ee.
    split; [exact Hb|]. split.
    + split; [apply sampleCell_inGrid|]. split; [exact Hnd|exact Hkeys].
    + unfold flagsOk, isOngoing; simpl.
      split; [intros _; repeat split; exact Ee|].
      split; [discriminate|]. split; [discriminate|]. split; [discriminate|].
      split; [intros _; exact Hpos'|]. split; [intros _; exact Htl|].
      tauto.
  - split; [exact Hb|]. split.
    + split; [apply sampleCell_inGrid|]. split; [exact Hnd|exact Hkeys].
    + pose proof (CELL_EFFECTS_costs (GridCell.type cell)) as (Hh & Hm & _).
      unfold flagsOk, isOngoing; simpl.
      set (nh := playerHealth s + healthChange (CELL_EFFECTS (GridCell.type cell))).
      set (nm := playerMoves s + movesChange (CELL_EFFECTS (GridCell.type cell))).
      assert (Hnh : -50 < nh <= INITIAL_PLAYER_HEALTH) by (subst nh; lia).
      assert (Hnm : -10 < nm <= INITIAL_PLAYER_MOVES) by (subst nm; lia).
      clearbody nh nm.
      split; [discriminate|]. split; [discriminate|]. split.
      { intros Hover _ _.
        destruct (Z.leb_spec nh 0); [left; split; [assumption|reflexivity]|].
        destruct (Z.leb_spec nm 0); [|discriminate].
        right. split; [assumption|]. split; [assumption|reflexivity]. }
      split.
      { intros _ Heq. apply Indices_eqb_eq in Heq. congruence. }
      split.
      { intros [Hrun|[Hrun|Hrun]]; try discriminate.
        apply orb_false_iff in Hrun as [H1 H2].
        apply Z.leb_gt in H1, H2. split; assumption. }
      split; [intros _; exact Htl|]. tauto.
Qed.

Lemma consistent_tick (s : State) : consistent s -> consistent (onClockTick s).
Proof.
  intros (Hb & Htr & Hf).
  destruct (onClockTick_cases s)
    as [(Ho & Hpos & Et & Eh & Em & Ew & Hcase)|(_ & ->)];
    [|exact (conj Hb (conj Htr Hf))].
  apply isOngoing_flags in Ho as (Hgo & Hw & Ht).
  revert Hb Htr Hf Et Eh Em Ew Hcase.
  unfold onClockTick, timerArmed, timerEffect.
  destruct s as [d g gr ps sm em cur st en tr h m t go tg w msg fps dbg].
  simpl in *. subst go tg w. simpl.
  replace (t <=? 0) with false by (symmetry; apply Z.leb_gt; lia). simpl.
  intros Hb Htr Hf.
  destruct Hf as (_ & _ & _ & Hne & Hpos' & _ & Hbt & Hbh & Hbm).
  simpl in *.
  destruct (t - 1 <=? 0) eqn:E1; simpl; intros _ _ _ _ Hcase.
  - apply Z.leb_le in E1.
    split; [exact Hb|]. split; [exact Htr|].
    unfold flagsOk, isOngoing; simpl.
    split; [discriminate|].
    split; [intros _; repeat split; lia|].
    split; [discriminate|]. split; [discriminate|].
    split; [intros _; apply Hpos'; now left|].
    split; [discriminate|]. split; [lia|tauto].
  - apply Z.leb_gt in E1.
    split; [exact Hb|]. split; [exact Htr|].
    unfold flagsOk, isOngoing; simpl.
    split; [discriminate|]. split; [discriminate|]. split; [discriminate|].
    split; [exact Hne|].
    split; [intros _; apply Hpos'; now left|].
    split; [intros _; lia|]. split; [lia|tauto].
Qed.

Lemma consistent_timerEffect (s : State) :
  consistent s -> timerEffect s = s.
Proof.
  intros (_ & _ & (_ & _ & _ & _ & _ & Htl & _)).
  unfold timerEffect.
  destruct (gameOver s || hasWon s || timerGameOver s) eqn:E; [reflexivity|].
  apply orb_false_iff in E as [_ Ht]. specialize (Htl Ht).
  replace (timeLeft s <=? 0) with false by (symmetry; apply Z.leb_gt; lia).
  reflexivity.
Qed.

Lemma consistent_key (code : string) (s : State) (dbg : bool) :
  consistent s -> consistent (fst (handleKeyControls code s dbg)).
Proof.
  intros Hc. unfold handleKeyControls.
  destruct (gameOver s || hasWon s) eqn:Hg; [exact Hc|]. simpl.
  destruct (String.eqb code "KeyC"); [|exact Hc].
  apply orb_false_iff in Hg as [Hgo Hw].
  destruct Hc as (Hb & Htr & Hf).
  destruct s as [d g gr ps sm em cur st en tr h m t go tg w msg fps dbg'].
  simpl in *. subst go w.
  split; [exact Hb|]. split; [exact Htr|].
  destruct Hf as (_ & H2 & _ & H4 & H5 & H6 & H7).
  unfold flagsOk, isOngoing in *; simpl in *.
  split; [discriminate|].
  split; [intros Htg; destruct (H2 Htg) as [? _]; discriminate|].
  split; [discriminate|]. tauto.
Qed.

Lemma consistent_debug (v : Q * Q) (s : State) :
  consistent s -> consistent (setDebugPlayerPos v s).
Proof. destruct s; exact (fun H => H). Qed.

Lemma consistent_overlay (rnd : nat -> Draw) (fuel : nat) (code : string)
    (s : State) (c : nat) (s' : State) (c' : nat) :
  consistent s -> handleOverlayKeys rnd fuel code s c = Some (s', c') ->
  consistent s'.
Proof.
  intros Hc. unfold handleOverlayKeys.
  destruct (_ && _).
  - apply consistent_new.
  - unfold ret. now intros [= <- _].
Qed.

(** Every state of a session is consistent. *)
Lemma inSession_consistent (s : State) : inSession s -> consistent s.
Proof.
  induction 1 as [rnd fuel d s0 c s c' E
                 |rnd fuel d pName saved s0 c s c' _ IH Ho E
                 |s position _ IH|s _ IH|s _ IH|s v _ IH|s code dbg _ IH
                 |rnd fuel code s c s' c' _ IH E].
  - exact (consistent_new _ _ _ _ _ _ _ E).
  - exact (consistent_load _ _ _ _ _ _ _ _ _ IH Ho E).
  - now apply consistent_sample.
  - now apply consistent_tick.
  - now rewrite consistent_timerEffect.
  - now apply consistent_debug.
  - now apply consistent_key.
  - exact (consistent_overlay _ _ _ _ _ _ _ IH E).
Qed.

Lemma inSession_run (events : list Event) (s : State) :
  inSession s -> inSession (run events s).
Proof.
  revert s. induction events as [|e events IH]; intros s Hs; [exact Hs|].
  unfold run; simpl. apply IH. destruct e; simpl.
  - now apply session_sample.
  - now apply session_tick.
Qed.

Lemma demoGame_inSession : inSession demoGame.
Proof. destruct demoGame_reset as [c' E]. exact (session_new _ _ _ _ _ _ _ E). Qed.

(** ** A sample on a running game, whatever the state *)

(** A sample on the end cell never touches the counters. *)
Lemma sample_on_endCell_counters (s : State) (position : Q * Q) :
  isOngoing s = true -> sampleCell position = endCell s ->
  playerHealth (onPositionSample s position) = playerHealth s
  /\ playerMoves (onPositionSample s position) = playerMoves s.
Proof.
  intros Ho He. rewrite (onPositionSample_ongoing s position Ho).
  destruct (Indices_eqb _ (currentGridIndices s)); [split; reflexivity|].
  destruct (cellAt _ _ _).
  - replace (Indices_eqb (sampleCell position) (endCell s)) with true
      by (symmetry; now apply Indices_eqb_eq).
    split; reflexivity.
  - destruct s; split; reflexivity.
Qed.

(** In a session a running game has the player off the end cell, on a
    board that holds every cell. *)
Lemma inSession_board (s : State) :
  inSession s ->
  (isOngoing s = true -> currentGridIndices s <> endCell s)
  /\ forall c, inGrid c ->
       exists cell, cellAt (gridData s) (ix c) (iz c) = Some cell.
Proof.
  intros Hs. destruct (consistent_playable s (inSession_consistent s Hs))
    as (Hgrid & Hcur & _).
  split; [exact Hcur|]. intros c Hc.
  destruct (gridOk_cell _ _ _ _ Hgrid Hc) as (cell & E & _). now exists cell.
Qed.

(** C1. On every running game, whatever its state, a position sample
    whose clamped grid indices are the end cell leaves [playerHealth]
    and [playerMoves] as they were.  When the sample is processed as a
    move, i.e. the player is not already on the end cell, and the board
    holds the end cell, it commits the win ([hasWon] and [gameOver]) in
    the state [wonState], in which no cell effect has been applied,
    whatever the type of the end cell and however low health and moves
    are.  In a session (new and restored games, samples, ticks, key
    handlers) both conditions always hold, so there the win is committed
    without further hypothesis. *)
Theorem win_precedes_effect (s : State) (position : Q * Q) :
  isOngoing s = true ->
  (clampIndex (indexOfWorld (fst position)),
   clampIndex (indexOfWorld (snd position))) = endCell s ->
  (playerHealth (onPositionSample s position) = playerHealth s
   /\ playerMoves (onPositionSample s position) = playerMoves s)
  /\ (forall cell,
        currentGridIndices s <> endCell s ->
        cellAt (gridData s) (ix (endCell s)) (iz (endCell s)) = Some cell ->
        hasWon (onPositionSample s position) = true
        /\ gameOver (onPositionSample s position) = true
        /\ outcome (onPositionSample s position) = Won
        /\ onPositionSample s position = wonState s (endCell s))
  /\ (inSession s ->
        hasWon (onPositionSample s position) = true
        /\ gameOver (onPositionSample s position) = true
        /\ outcome (onPositionSample s position) = Won).
Proof.
  intros Ho He. fold (sampleCell position) in He.
  assert (Hwin : forall cell,
             currentGridIndices s <> endCell s ->
             cellAt (gridData s) (ix (endCell s)) (iz (endCell s)) = Some cell ->
             onPositionSample s position = wonState s (endCell s)).
  { intros cell Hne Hc. apply (win_on_any_board s position cell); try assumption.
    congruence. }
  split; [now apply sample_on_endCell_counters|]. split.
  - intros cell Hne Hc. rewrite (Hwin cell Hne Hc).
    split; [reflexivity|]. split; [reflexivity|]. split; reflexivity.
  - intros Hs. destruct (inSession_board s Hs) as [Hcur Hall].
    destruct (Hall (endCell s)) as (cell & Hc).
    { rewrite <- He. apply sampleCell_inGrid. }
    rewrite (Hwin cell (Hcur Ho) Hc).
    split; [reflexivity|]. split; reflexivity.
Qed.

(** The demo game with one move left: the end cell is Blank and would
    cost that move; the step onto it wins and the move is not charged. *)
Lemma win_precedes_effect_witness :
  playerMoves demoLastMove = 1
  /\ option_map (fun cell => movesChange (CELL_EFFECTS (GridCell.type cell)))
       (cellAt (gridData demoLastMove) 0 12) = Some (-1)
  /\ outcome (onPositionSample demoLastMove atEnd) = Won
  /\ playerMoves (onPositionSample demoLastMove atEnd) = 1.
Proof.
  split; [vm_compute; reflexivity|].
  split; [vm_compute; reflexivity|].
  destruct (win_precedes_effect demoLastMove atEnd) as ((_ & Hm) & _ & Hw).
  - vm_compute; reflexivity.
  - vm_compute; reflexivity.
  - destruct (Hw (inSession_run _ _ demoGame_inSession)) as (_ & _ & Hout).
    split; [exact Hout|]. rewrite Hm. vm_compute; reflexivity.
Defined.

(** Where the win is not committed: with the player already on the end
    cell of a running game (a restored snapshot can put them there) the
    sample is no move and changes nothing; and on a board that lacks the
    end cell the player is moved there, the game goes on, and no delta
    is applied. *)
Lemma sample_on_endCell_no_win (s : State) (position : Q * Q) :
  isOngoing s = true -> sampleCell position = endCell s ->
  (currentGridIndices s = endCell s -> onPositionSample s position = s)
  /\ (currentGridIndices s <> endCell s ->
      cellAt (gridData s) (ix (endCell s)) (iz (endCell s)) = None ->
      isOngoing (onPositionSample s position) = true
      /\ currentGridIndices (onPositionSample s position) = endCell s).
Proof.
  intros Ho He. rewrite (onPositionSample_ongoing s position Ho), He. split.
  - intros ->.
    replace (Indices_eqb (endCell s) (endCell s)) with true
      by (symmetry; now apply Indices_eqb_eq).
    reflexivity.
  - intros Hne Hc. rewrite Hc.
    destruct (Indices_eqb (endCell s) (currentGridIndices s)) eqn:E.
    { apply Indices_eqb_eq in E. congruence. }
    destruct s; simpl in *. split; [exact Ho|reflexivity].
Qed.

(** A move onto indices at which the board holds no cell (a restored
    snapshot can lack cells) puts the player there and changes nothing
    else but the trail: no delta is applied and no flag is set. *)
Lemma sample_on_missing_cell (s : State) (position : Q * Q) :
  isOngoing s = true ->
  sampleCell position <> currentGridIndices s ->
  cellAt (gridData s) (ix (sampleCell position)) (iz (sampleCell position))
  = None ->
  currentGridIndices (onPositionSample s position) = sampleCell position
  /\ playerHealth (onPositionSample s position) = playerHealth s
  /\ playerMoves (onPositionSample s position) = playerMoves s
  /\ isOngoing (onPositionSample s position) = true.
Proof.
  intros Ho Hne Hc. rewrite (onPositionSample_ongoing s position Ho), Hc.
  destruct (Indices_eqb _ (currentGridIndices s)) eqn:E.
  { apply Indices_eqb_eq in E. contradiction. }
  destruct s; simpl in *. repeat split. exact Ho.
Qed.

(** C3. On every running game, whatever its state, a position sample is
    converted to the grid indices
    [round(world / CELL_UNIT_SIZE + GRID_SIZE / 2 - 0.5)] per axis,
    clamped to [[0, GRID_SIZE - 1]].  If they are the player's current
    indices the state is unchanged.  Otherwise, unless they are the end
    cell, for the cell that the board holds at the new indices: the
    player is on it, the deltas of its type in [CELL_EFFECTS] have been
    added to [playerHealth] and [playerMoves] without clamping, and the
    game is lost on health if health is now [<= 0], else lost on moves
    if moves are now [<= 0], else still running; from health 100 and
    moves 200 a Lava cell gives health 50 and moves 190.  In a session
    the board holds a cell at the indices of every sample. *)
Theorem onPositionSample_step (s : State) (position : Q * Q) :
  isOngoing s = true ->
  forall c s',
    c = (Z.max 0 (Z.min (GRID_SIZE - 1)
           (Math_round (fst position / inject_Z CELL_UNIT_SIZE
                        + inject_Z GRID_SIZE / 2 - (1 # 2))%Q)),
         Z.max 0 (Z.min (GRID_SIZE - 1)
           (Math_round (snd position / inject_Z CELL_UNIT_SIZE
                        + inject_Z GRID_SIZE / 2 - (1 # 2))%Q))) ->
    s' = onPositionSample s position ->
    (0 <= ix c <= GRID_SIZE - 1 /\ 0 <= iz c <= GRID_SIZE - 1)
    /\ (c = currentGridIndices s -> s' = s)
    /\ (c <> currentGridIndices s -> c <> endCell s ->
        forall cell,
          cellAt (gridData s) (ix c) (iz c) = Some cell ->
          currentGridIndices s' = c
          /\ playerHealth s'
             = playerHealth s + healthChange (CELL_EFFECTS (GridCell.type cell))
          /\ playerMoves s'
             = playerMoves s + movesChange (CELL_EFFECTS (GridCell.type cell))
          /\ outcome s' = (if playerHealth s' <=? 0 then LostHealth
                           else if playerMoves s' <=? 0 then LostMoves
                           else Ongoing)
          /\ gameOver s' = ((playerHealth s' <=? 0) || (playerMoves s' <=? 0))
          /\ (GridCell.type cell = LAVA ->
              playerHealth s = 100 -> playerMoves s = 200 ->
              playerHealth s' = 50 /\ playerMoves s' = 190))
    /\ (inSession s ->
        exists cell, cellAt (gridData s) (ix c) (iz c) = Some cell).
Proof.
  intros Ho c s' Hc Hs'.
  assert (Hc' : c = sampleCell position) by (rewrite Hc; reflexivity).
  clear Hc. subst c s'.
  rewrite (onPositionSample_ongoing s position Ho).
  split; [|split; [|split]].
  - pose proof (sampleCell_inGrid position) as [Hx Hz].
    unfold GRID_SIZE in *; lia.
  - intros Heq. apply Indices_eqb_eq in Heq. now rewrite Heq.
  - intros Hne Hend cell Ec.
    destruct (Indices_eqb _ (currentGridIndices s)) eqn:E;
      [apply Indices_eqb_eq in E; contradiction|].
    rewrite Ec.
    destruct (Indices_eqb _ (endCell s)) eqn:Ee;
      [apply Indices_eqb_eq in Ee; contradiction|].
    split; [reflexivity|]. split; [reflexivity|]. split; [reflexivity|].
    split; [apply outcome_movedState|]. split; [reflexivity|].
    intros Ht Hh Hm. simpl. rewrite Ht, Hh, Hm. split; reflexivity.
  - intros Hs. destruct (inSession_board s Hs) as [_ Hall].
    apply Hall, sampleCell_inGrid.
Qed.

(** The scenario of the first move: from the start cell onto the Lava
    cell (0, 1), then onto the end cell. *)
Lemma onPositionSample_step_witness :
  playerHealth demoGame = 100 /\ playerMoves demoGame = 200
  /\ playerHealth (onPositionSample demoGame atLava) = 50
  /\ playerMoves (onPositionSample demoGame atLava) = 190
  /\ outcome (onPositionSample demoGame atLava) = Ongoing
  /\ outcome (onPositionSample (onPositionSample demoGame atLava) atEnd) = Won.
Proof.
  split; [reflexivity|]. split; [reflexivity|].
  destruct (onPositionSample_step demoGame atLava
              ltac:(vm_compute; reflexivity) (0, 1)
              (onPositionSample demoGame atLava)
              ltac:(vm_compute; reflexivity) eq_refl)
    as (_ & _ & Hmove & Hcell).
  destruct (Hcell demoGame_inSession) as (cell & Ec).
  destruct (Hmove ltac:(vm_compute; discriminate) ltac:(vm_compute; discriminate)
              cell Ec)
    as (_ & Hh & Hm & Hout & _ & Hlava).
  assert (Et : GridCell.type cell = LAVA).
  { assert (E : option_map GridCell.type (cellAt (gridData demoGame) 0 1)
                = Some LAVA) by (vm_compute; reflexivity).
    unfold ix, iz in Ec; simpl fst in Ec; simpl snd in Ec.
    rewrite Ec in E. simpl in E. congruence. }
  destruct (Hlava Et eq_refl eq_refl) as [H50 H190].
  split; [exact H50|]. split; [exact H190|].
  split; [|vm_compute; reflexivity].
  rewrite Hout, H50, H190. reflexivity.
Defined.

(** X5. In every state of a session the flags tell the truth about the
    counters.  A running game has health, moves and time left and the
    player off the end cell; a won game has the player on the end cell,
    with health, moves and time left; a game lost on health has none
    left, one lost on moves has health but no moves, and both stopped
    the clock before it ran out; a game lost on time has the clock at
    exactly 0, with health and moves left.  The clock stays within
    [0, 60], health within (-50, 100] and moves within (-10, 200]. *)
Theorem session_outcome_truthful (s : State) :
  inSession s ->
  match outcome s with
  | Ongoing =>
      gameOver s = false /\ hasWon s = false /\ timerGameOver s = false
      /\ 0 < playerHealth s /\ 0 < playerMoves s /\ 0 < timeLeft s
      /\ currentGridIndices s <> endCell s
  | Won =>
      gameOver s = true /\ timerGameOver s = false
      /\ currentGridIndices s = endCell s
      /\ 0 < playerHealth s /\ 0 < playerMoves s /\ 0 < timeLeft s
  | LostHealth =>
      gameOver s = true /\ playerHealth s <= 0 /\ 0 < timeLeft s
  | LostMoves =>
      gameOver s = true /\ 0 < playerHealth s /\ playerMoves s <= 0
      /\ 0 < timeLeft s
  | LostTimeout =>
      gameOver s = true /\ hasWon s = false /\ timeLeft s = 0
      /\ 0 < playerHealth s /\ 0 < playerMoves s
  end
  /\ 0 <= timeLeft s <= GAME_DURATION_SECONDS
  /\ -50 < playerHealth s <= INITIAL_PLAYER_HEALTH
  /\ -10 < playerMoves s <= INITIAL_PLAYER_MOVES.
Proof.
  intros Hs. apply inSession_consistent in Hs as (_ & _ & Hf).
  destruct Hf as (H1 & H2 & H3 & H4 & H5 & H6 & H7 & H8 & H9).
  split; [|tauto].
  unfold outcome, isOngoing in *.
  destruct (hasWon s) eqn:Ew.
  { destruct H1 as (Hg & Ht & Hc & _); [reflexivity|].
    specialize (H6 Ht). destruct H5 as [Hh Hm]; [right; now left|]. tauto. }
  destruct (timerGameOver s) eqn:Et.
  { destruct H2 as (Hg & Htl & _); [reflexivity|].
    destruct H5 as [Hh Hm]; [right; now right|]. tauto. }
  specialize (H6 eq_refl).
  destruct (gameOver s) eqn:Eg.
  - destruct (String.eqb_spec (lastMessage s) MSG_HEALTH) as [Em|Em];
      destruct H3 as [(Hh & Hmsg)|(Hh & Hm & Hmsg)]; try reflexivity;
      try tauto.
    rewrite Hmsg in Em. discriminate Em.
  - destruct H5 as [Hh Hm]; [now left|].
    specialize (H4 eq_refl). tauto.
Qed.

(** The demo game after sixty ticks is lost on time with the clock at 0
    and all of its health and moves. *)
Lemma session_outcome_truthful_witness :
  timeLeft demoTimedOut = 0 /\ 0 < playerHealth demoTimedOut.
Proof.
  pose proof (session_outcome_truthful demoTimedOut
                (inSession_run _ _ demoGame_inSession)) as [H _].
  assert (E : outcome demoTimedOut = LostTimeout) by (vm_compute; reflexivity).
  rewrite E in H. tauto.
Defined.

(** X6. The page shows no overlay while the game runs and exactly one
    when it is finished: the win overlay, the time-out overlay, or the
    game-over overlay, whose text then is the rest of [lastMessage]
    after "Game Over:"; the fallback "Try again!" is never shown. *)
Theorem overlays_by_outcome (s : State) :
  inSession s ->
  overlays s =
  match outcome s with
  | Ongoing => []
  | Won => [YouWinOverlay]
  | LostTimeout => [TimesUpOverlay]
  | LostHealth => [GameOverOverlay " Health depleted!"]
  | LostMoves => [GameOverOverlay " Ran out of moves!"]
  end.
Proof.
  intros Hs. apply inSession_consistent in Hs as (_ & _ & Hf).
  destruct Hf as (H1 & H2 & H3 & _).
  unfold overlays, outcome.
  destruct (hasWon s) eqn:Ew.
  { destruct H1 as (-> & -> & _); reflexivity. }
  destruct (timerGameOver s) eqn:Et.
  { destruct H2 as (-> & _); reflexivity. }
  destruct (gameOver s) eqn:Eg; [|reflexivity].
  destruct H3 as [(_ & ->)|(_ & _ & ->)]; reflexivity.
Qed.

Lemma overlays_by_outcome_witness :
  overlays demoTimedOut = [TimesUpOverlay] /\ overlays demoGame = [].
Proof.
  split.
  - rewrite (overlays_by_outcome demoTimedOut
               (inSession_run _ _ demoGame_inSession)).
    vm_compute; reflexivity.
  - rewrite (overlays_by_outcome demoGame demoGame_inSession).
    vm_compute; reflexivity.
Defined.


(** ** The planes and the trail *)

Lemma Forall2_In_nth {A B} (R : A -> B -> Prop) (l : list A) (bs : list B) :
  Forall2 R l bs ->
  forall b, In b bs ->
            exists n a, nth_error l n = Some a /\ nth_error bs n = Some b
                        /\ R a b.
Proof.
  induction 1 as [|a0 b0 l bs Hab _ IH]; intros b; simpl; [tauto|].
  intros [<-|Hin].
  - exists 0%nat, a0. auto.
  - destruct (IH b Hin) as (n & a & H1 & H2 & H3).
    exists (S n), a. auto.
Qed.

Lemma gridIndices_nth_inv (n : nat) (i : Z) :
  nth_error gridIndices n = Some i ->
  0 <= i < GRID_SIZE /\ Z.to_nat i = n.
Proof.
  unfold gridIndices. rewrite nth_error_map, nth_error_seq.
  destruct (n <? Z.to_nat GRID_SIZE)%nat eqn:E; [|discriminate].
  apply Nat.ltb_lt in E. simpl. intros [= <-].
  unfold GRID_SIZE in *. lia.
Qed.

(** Every cell of [gridData.flat()] sits at its own indices. *)
Lemma gridFull_cell_at (st en : Indices) (grid : list (list GridCell.t))
    (cell : GridCell.t) :
  gridFull st en grid -> In cell (List.concat grid) ->
  exists i j, 0 <= i < GRID_SIZE /\ 0 <= j < GRID_SIZE
              /\ cellAt grid i j = Some cell /\ cellOk st en i j cell.
Proof.
  intros Hfull Hin. apply in_concat in Hin as (row & Hrow & Hcell).
  destruct (Forall2_In_nth _ _ _ Hfull row Hrow) as (n & i & Hi & Hn & Hinner).
  destruct (Forall2_In_nth _ _ _ Hinner cell Hcell) as (m & j & Hj & Hm & Hok).
  apply gridIndices_nth_inv in Hi as [Hi En], Hj as [Hj Em].
  exists i, j. split; [exact Hi|]. split; [exact Hj|]. split; [|exact Hok].
  unfold cellAt.
  replace (i <? 0) with false by (symmetry; apply Z.ltb_ge; lia).
  replace (j <? 0) with false by (symmetry; apply Z.ltb_ge; lia).
  simpl. rewrite En, Hn, Em. exact Hm.
Qed.

(** X7. What [AFrameGridGame] draws in a session.  Every cell of
    [gridData.flat()] lies on the board at its own indices.  The start
    and the end cell, which the component finds by converting the
    positions of the two markers back to indices, are always drawn in
    the Blank colour at full opacity, also while the player stands on
    them; any other cell is highlighted when the player stands on it,
    else drawn in the trail colour when its key is in the trail, else in
    the colour of its type. *)
Theorem cellAppearance_spec (s : State) (cell : GridCell.t) :
  inSession s -> In cell (List.concat (gridData s)) ->
  let c := (GridCell.gridX cell, GridCell.gridZ cell) in
  inGrid c
  /\ cellAt (gridData s) (ix c) (iz c) = Some cell
  /\ cellAppearance s cell =
     if Indices_eqb c (actualStartCellIndices s) || Indices_eqb c (endCell s)
     then ("#DDDDDD", 1%Q)
     else if Indices_eqb c (currentGridIndices s)
     then (CURRENT_CELL_HIGHLIGHT_COLOR, CELL_HIGHLIGHT_OPACITY)
     else if existsb (String.eqb (cellKey c)) (visitedCellTrail s)
     then (VISITED_CELL_TRAIL_COLOR, CELL_TRAIL_OPACITY)
     else (color (CELL_EFFECTS (GridCell.type cell)), DEFAULT_CELL_OPACITY).
Proof.
  intros Hs Hin. apply inSession_consistent in Hs as (Hb & _ & _).
  destruct Hb as (Hfull & _ & _ & _ & Hsm & Hem).
  destruct (gridFull_cell_at _ _ _ _ Hfull Hin)
    as (i & j & Hi & Hj & Hat & Hok).
  destruct Hok as (_ & Hx & Hz & _ & _ & _ & Hblank).
  cbv zeta. unfold cellAppearance. rewrite Hsm, Hem, Hx, Hz.
  cbn [fst snd]. rewrite !indexOfWorld_worldOfIndex.
  split; [split; assumption|]. split; [exact Hat|].
  unfold Indices_eqb, ix, iz; cbn [fst snd].
  destruct ((i =? fst (actualStartCellIndices s))
            && (j =? snd (actualStartCellIndices s))) eqn:Es.
  { rewrite Hblank.
    - cbn [negb andb orb]. rewrite !andb_false_r. reflexivity.
    - left. apply andb_true_iff in Es as [E1 E2].
      apply Z.eqb_eq in E1, E2. rewrite E1, E2.
      symmetry; apply surjective_pairing. }
  destruct ((i =? fst (endCell s)) && (j =? snd (endCell s))) eqn:Ee.
  { rewrite Hblank.
    - cbn [negb andb orb]. rewrite !andb_false_r. reflexivity.
    - right. apply andb_true_iff in Ee as [E1 E2].
      apply Z.eqb_eq in E1, E2. rewrite E1, E2.
      symmetry; apply surjective_pairing. }
  cbn [negb andb orb]. rewrite !andb_true_r. reflexivity.
Qed.

(** The player of the demo game on the Lava cell (0, 1): its plane is
    highlighted. *)
Lemma cellAppearance_spec_witness :
  cellAppearance (run [PositionSample atLava] demoGame)
    (GridCell.mk "cell-0-1" LAVA (worldOfIndex 0) (worldOfIndex 1) 0 1)
  = (CURRENT_CELL_HIGHLIGHT_COLOR, CELL_HIGHLIGHT_OPACITY).
Proof.
  destruct (cellAppearance_spec (run [PositionSample atLava] demoGame)
              (GridCell.mk "cell-0-1" LAVA (worldOfIndex 0) (worldOfIndex 1) 0 1)
              (inSession_run _ _ demoGame_inSession)) as (_ & _ & E).
  - vm_compute. right; left; reflexivity.
  - rewrite E. vm_compute; reflexivity.
Defined.

(** X8. The trail of a session holds no key twice; each of its keys is
    the key of exactly one cell, which lies on the board and is neither
    the start nor the end cell; so the keys of the start and the end
    cell are never in it, and it never holds more than
    [GRID_SIZE * GRID_SIZE - 2 = 623] keys. *)
Theorem trail_keys_are_cells (s : State) :
  inSession s ->
  NoDup (visitedCellTrail s)
  /\ (forall k, In k (visitedCellTrail s) ->
        exists c, inGrid c /\ c <> actualStartCellIndices s /\ c <> endCell s
                  /\ cellKey c = k /\ forall c', cellKey c' = k -> c' = c)
  /\ ~ In (cellKey (actualStartCellIndices s)) (visitedCellTrail s)
  /\ ~ In (cellKey (endCell s)) (visitedCellTrail s)
  /\ (List.length (visitedCellTrail s) <= 623)%nat.
Proof.
  intros Hs. apply inSession_consistent in Hs as (Hb & Htr & _).
  destruct Hb as (_ & Hne & Hps & Hpe & _).
  destruct Htr as (_ & Hnd & Hk).
  assert (Hst : ~ In (cellKey (actualStartCellIndices s)) (visitedCellTrail s)).
  { intros Hin. destruct (Hk _ Hin) as (c & _ & Hc & _ & E).
    apply cellKey_inj in E. congruence. }
  assert (Hen : ~ In (cellKey (endCell s)) (visitedCellTrail s)).
  { intros Hin. destruct (Hk _ Hin) as (c & _ & _ & Hc & E).
    apply cellKey_inj in E. congruence. }
  split; [exact Hnd|]. split.
  { intros k Hin. destruct (Hk k Hin) as (c & H1 & H2 & H3 & ->).
    exists c. split; [exact H1|]. split; [exact H2|]. split; [exact H3|].
    split; [reflexivity|]. intros c' E. now apply cellKey_inj. }
  split; [exact Hst|]. split; [exact Hen|].
  assert (Hall : NoDup (cellKey (actualStartCellIndices s)
                        :: cellKey (endCell s) :: visitedCellTrail s)).
  { constructor; [|constructor; assumption].
    intros [E|Hin]; [|contradiction].
    apply cellKey_inj in E. congruence. }
  assert (Hincl : incl (cellKey (actualStartCellIndices s)
                        :: cellKey (endCell s) :: visitedCellTrail s)
                       (map cellKey allCells)).
  { intros k [<-|[<-|Hin]].
    - apply in_map, allCells_In, Hps.
    - apply in_map, allCells_In, Hpe.
    - destruct (Hk k Hin) as (c & Hc & _ & _ & ->).
      now apply in_map, allCells_In. }
  pose proof (NoDup_incl_length Hall Hincl) as Hlen.
  rewrite length_map in Hlen. simpl in Hlen.
  change (List.length allCells) with 625%nat in Hlen. lia.
Qed.

(** After three moves of pacing between the start cell and (1, 0) the
    trail of the demo game holds the key of (1, 0) and not that of the
    start cell. *)
Lemma trail_keys_are_cells_witness :
  visitedCellTrail (run (pacing 3) demoGame) = ["1,0"]
  /\ ~ In (cellKey (actualStartCellIndices (run (pacing 3) demoGame)))
          (visitedCellTrail (run (pacing 3) demoGame)).
Proof.
  split; [vm_compute; reflexivity|].
  destruct (trail_keys_are_cells (run (pacing 3) demoGame)
              (inSession_run _ _ demoGame_inSession)) as (_ & _ & H & _).
  exact H.
Defined.


(** ** Runs *)

Lemma Set_add_suffix (key : string) (trail : list string) :
  exists new, Set_add key trail = trail ++ new /\ (List.length new <= 1)%nat.
Proof.
  unfold Set_add. destruct (existsb _ _).
  - exists []. rewrite app_nil_r. split; [reflexivity|simpl; lia].
  - exists [key]. split; [reflexivity|simpl; lia].
Qed.

(** What a step never changes and the direction in which it changes the
    rest, for every state. *)
Lemma step_monotone (s : State) (e : Event) :
  (exists new, visitedCellTrail (step s e) = visitedCellTrail s ++ new
               /\ (List.length new <= 1)%nat)
  /\ playerHealth (step s e) <= playerHealth s
  /\ playerMoves (step s e) <= playerMoves s
  /\ timeLeft s - 1 <= timeLeft (step s e) <= timeLeft s
  /\ gridData (step s e) = gridData s
  /\ actualStartCellIndices (step s e) = actualStartCellIndices s
  /\ endCell (step s e) = endCell s
  /\ difficulty (step s e) = difficulty s
  /\ gameId (step s e) = gameId s.
Proof.
  assert (Hnil : forall tr : list string,
             exists new, tr = tr ++ new /\ (List.length new <= 1)%nat).
  { intros tr. exists []. rewrite app_nil_r. split; [reflexivity|simpl; lia]. }
  destruct e as [position|]; simpl.
  - unfold onPositionSample.
    destruct (gameOver s || hasWon s).
    { split; [apply Hnil|]. repeat split; lia. }
    unfold gameTick.
    destruct (negb (_ =? _) || negb (_ =? _)).
    2:{ split; [apply Hnil|]. repeat split; lia. }
    set (s1 := match cellAt (gridData s) _ _ with Some _ => _ | None => s end).
    assert (Hs1 : (exists new, visitedCellTrail s1 = visitedCellTrail s ++ new
                               /\ (List.length new <= 1)%nat)
                  /\ playerHealth s1 = playerHealth s
                  /\ playerMoves s1 = playerMoves s
                  /\ timeLeft s1 = timeLeft s
                  /\ gridData s1 = gridData s
                  /\ actualStartCellIndices s1 = actualStartCellIndices s
                  /\ endCell s1 = endCell s
                  /\ difficulty s1 = difficulty s
                  /\ gameId s1 = gameId s).
    { subst s1. destruct (cellAt (gridData s) _ _);
        [|split; [apply Hnil|repeat split]].
      destruct (_ && _); [|split; [apply Hnil|repeat split]].
      destruct s; simpl. split; [apply Set_add_suffix|repeat split]. }
    clearbody s1.
    destruct Hs1 as (Htr & Eh & Em & Et & Eg & Est & Een & Ed & Ei).
    destruct (cellAt (gridData s) _ _) as [cell|].
    2:{ destruct s1; simpl in *. split; [exact Htr|]. subst. repeat split; lia. }
    destruct (_ && _).
    { destruct s1; simpl in *. split; [exact Htr|]. subst. repeat split; lia. }
    pose proof (CELL_EFFECTS_costs (GridCell.type cell)) as (Hh & Hm & _).
    destruct s1; simpl in *; subst.
    case_tests; (split; [exact Htr|]); repeat split; lia.
  - unfold onClockTick, timerEffect, timerArmed.
    destruct s; simpl.
    case_tests; (split; [apply Hnil|]); repeat split; lia.
Qed.

(** X9. Whatever the state, a run of samples and clock ticks only
    appends to the trail, at most one key per event; it never raises
    health, moves or the time left, takes at most one second per event
    off the clock; and it leaves the board, the start and the end cell,
    the difficulty and the game number as they are. *)
Theorem run_monotone (events : list Event) (s : State) :
  (exists new, visitedCellTrail (run events s) = visitedCellTrail s ++ new
               /\ (List.length new <= List.length events)%nat)
  /\ playerHealth (run events s) <= playerHealth s
  /\ playerMoves (run events s) <= playerMoves s
  /\ timeLeft s - Z.of_nat (List.length events) <= timeLeft (run events s)
     <= timeLeft s
  /\ gridData (run events s) = gridData s
  /\ actualStartCellIndices (run events s) = actualStartCellIndices s
  /\ endCell (run events s) = endCell s
  /\ difficulty (run events s) = difficulty s
  /\ gameId (run events s) = gameId s.
Proof.
  revert s. induction events as [|e events IH]; intros s.
  - unfold run; simpl. split; [|repeat split; lia].
    exists []. rewrite app_nil_r. split; [reflexivity|simpl; lia].
  - change (run (e :: events) s) with (run events (step s e)).
    destruct (IH (step s e))
      as ((new2 & E2 & L2) & Hh & Hm & Ht & Eg & Est & Een & Ed & Ei).
    destruct (step_monotone s e)
      as ((new1 & E1 & L1) & Hh1 & Hm1 & Ht1 & Eg1 & Est1 & Een1 & Ed1 & Ei1).
    split.
    { exists (new1 ++ new2). rewrite E2, E1, app_assoc. split; [reflexivity|].
      rewrite length_app. simpl. lia. }
    cbn [List.length]. repeat split; try congruence; lia.
Qed.


Lemma consistent_step (s : State) (e : Event) :
  consistent s -> consistent (step s e).
Proof.
  destruct e; simpl; [apply consistent_sample|apply consistent_tick].
Qed.

Lemma consistent_terminal_step (s : State) (e : Event) :
  consistent s -> isOngoing s = false -> step s e = s.
Proof.
  intros Hc Ho. destruct e as [position|]; simpl.
  - unfold onPositionSample.
    destruct (gameOver s || hasWon s) eqn:Hg; [reflexivity|].
    rewrite (playable_flags s (consistent_playable s Hc) Hg) in Ho.
    discriminate.
  - now apply onClockTick_terminal.
Qed.

Lemma consistent_terminal_run (events : list Event) (s : State) :
  consistent s -> isOngoing s = false -> run events s = s.
Proof.
  intros Hc Ho. induction events as [|e events IH]; [reflexivity|].
  change (run (e :: events) s) with (run events (step s e)).
  now rewrite consistent_terminal_step.
Qed.

Lemma Indices_eqb_refl (c : Indices) : Indices_eqb c c = true.
Proof. now apply Indices_eqb_eq. Qed.

Lemma stamina_ongoing (s : State) :
  consistent s -> isOngoing s = true -> 2 <= stamina s <= 220.
Proof.
  intros (_ & _ & Hf) Ho.
  destruct Hf as (_ & _ & _ & _ & Hpos & _ & _ & Hbh & Hbm).
  apply isOngoing_flags in Ho as (Hg & _).
  destruct Hpos as [Hh Hm]; [now left|].
  unfold stamina, INITIAL_PLAYER_HEALTH, INITIAL_PLAYER_MOVES in *.
  pose proof (Z.div_mod (playerHealth s + 4) 5 ltac:(lia)) as Hd.
  pose proof (Z.mod_pos_bound (playerHealth s + 4) 5 ltac:(lia)) as Hr.
  lia.
Qed.

Lemma stamina_step (s : State) (e : Event) :
  consistent s ->
  stamina (step s e) <= stamina s
  /\ (currentGridIndices (step s e) <> currentGridIndices s ->
      isOngoing (step s e) = true -> stamina (step s e) <= stamina s - 1).
Proof.
  intros Hc.
  assert (Hdiv : forall a b, a <= b -> (a + 4) / 5 <= (b + 4) / 5)
    by (intros a b Hab; apply Z.div_le_mono; lia).
  split.
  { destruct (step_monotone s e) as (_ & Hh & Hm & _).
    unfold stamina. specialize (Hdiv _ _ Hh). lia. }
  destruct e as [position|]; simpl.
  - destruct (gameOver s || hasWon s) eqn:Hg.
    { unfold onPositionSample; rewrite Hg. congruence. }
    pose proof (playable_flags s (consistent_playable s Hc) Hg) as Ho.
    rewrite (onPositionSample_ongoing s position Ho).
    destruct (Indices_eqb _ (currentGridIndices s)); [congruence|].
    destruct (consistent_playable s Hc) as (Hgrid & _ & _).
    destruct (gridOk_cell _ _ _ _ Hgrid (sampleCell_inGrid position))
      as (cell & -> & _).
    destruct (Indices_eqb _ (endCell s)); [discriminate|].
    intros _ _. unfold stamina, movedState; simpl.
    pose proof (CELL_EFFECTS_costs (GridCell.type cell)) as (Hh & Hm & Hsum).
    pose proof (Z.div_mod (playerHealth s + 4) 5 ltac:(lia)) as Hd.
    pose proof (Z.mod_pos_bound (playerHealth s + 4) 5 ltac:(lia)) as Hr.
    pose proof (Z.div_mod (playerHealth s
                           + healthChange (CELL_EFFECTS (GridCell.type cell)) + 4)
                          5 ltac:(lia)) as Hd'.
    pose proof (Z.mod_pos_bound
                  (playerHealth s
                   + healthChange (CELL_EFFECTS (GridCell.type cell)) + 4)
                  5 ltac:(lia)) as Hr'.
    lia.
  - intros Hne. exfalso. apply Hne.
    unfold onClockTick, timerEffect, timerArmed.
    destruct s; simpl. case_tests; reflexivity.
Qed.

Lemma cellChanges_bound (events : list Event) (s : State) :
  consistent s ->
  (isOngoing s = false -> cellChanges events s = 0%nat)
  /\ (isOngoing s = true -> Z.of_nat (cellChanges events s) <= stamina s - 1).
Proof.
  revert s. induction events as [|e events IH]; intros s Hc.
  - simpl. split; [reflexivity|].
    intros Ho. pose proof (stamina_ongoing s Hc Ho). lia.
  - cbn [cellChanges]. split.
    + intros Ho. rewrite (consistent_terminal_step s e Hc Ho).
      rewrite Indices_eqb_refl. simpl. now apply IH.
    + intros Ho. pose proof (stamina_ongoing s Hc Ho) as H2.
      pose proof (consistent_step s e Hc) as Hc'.
      destruct (stamina_step s e Hc) as [Hle Hlt].
      destruct (IH (step s e) Hc') as [Hterm Hrun].
      destruct (isOngoing (step s e)) eqn:Ho'.
      * specialize (Hrun eq_refl).
        destruct (Indices_eqb _ _) eqn:E; [simpl; lia|].
        assert (Hne : currentGridIndices (step s e) <> currentGridIndices s).
        { intros Heq. rewrite Heq, Indices_eqb_refl in E. discriminate. }
        specialize (Hlt Hne eq_refl). lia.
      * rewrite (Hterm eq_refl). destruct (Indices_eqb _ _); simpl; lia.
Qed.

(** X10. A game cannot go on for ever by moving.  Each move onto a cell
    other than the end cell costs at least one unit of moves or five of
    health, so a running session state with [m] moves and [h] health
    allows at most [m + ceil(h / 5) - 1] further changes of cell, the
    last of which ends the game unless it is the winning one; that is
    at most 219 from a new game.  A finished game allows none. *)
Theorem cell_changes_bounded (events : list Event) (s : State) :
  inSession s ->
  (isOngoing s = true ->
     Z.of_nat (cellChanges events s) <= stamina s - 1 /\ stamina s <= 220)
  /\ (isOngoing s = false -> cellChanges events s = 0%nat).
Proof.
  intros Hs. apply inSession_consistent in Hs.
  destruct (cellChanges_bound events s Hs) as [Hterm Hrun]. split.
  - intros Ho. split; [now apply Hrun|]. now apply stamina_ongoing.
  - exact Hterm.
Qed.

(** The 199 moves of pacing in the demo game are 199 changes of cell,
    within the bound 219 of a new game. *)
Lemma cell_changes_bounded_witness :
  cellChanges (pacing 199) demoGame = 199%nat
  /\ stamina demoGame = 220
  /\ Z.of_nat (cellChanges (pacing 199) demoGame) <= stamina demoGame - 1.
Proof.
  split; [vm_compute; reflexivity|]. split; [vm_compute; reflexivity|].
  destruct (cell_changes_bounded (pacing 199) demoGame demoGame_inSession)
    as [H _].
  apply H. vm_compute; reflexivity.
Defined.

Lemma clock_runs_out (events : list Event) (s : State) :
  consistent s -> (Z.to_nat (timeLeft s) <= clockTicks events)%nat ->
  isOngoing (run events s) = false.
Proof.
  revert s. induction events as [|e events IH]; intros s Hc Hn.
  - unfold clockTicks in Hn; simpl in Hn. unfold run; simpl.
    destruct (isOngoing s) eqn:Ho; [|reflexivity].
    apply isOngoing_flags in Ho as (_ & _ & Ht).
    destruct Hc as (_ & _ & (_ & _ & _ & _ & _ & Htl & _)).
    specialize (Htl Ht). lia.
  - change (run (e :: events) s) with (run events (step s e)).
    destruct (isOngoing s) eqn:Ho.
    2:{ rewrite (consistent_terminal_step s e Hc Ho).
        now rewrite (consistent_terminal_run events s Hc Ho). }
    apply IH; [now apply consistent_step|].
    destruct e as [position|].
    + destruct (step_monotone s (PositionSample position))
        as (_ & _ & _ & Ht & _).
      unfold clockTicks in *. simpl in Hn. lia.
    + simpl. unfold clockTicks in *. simpl in Hn.
      destruct (onClockTick_cases s)
        as [(_ & Hpos & Et & _)|([Hoff|Hle] & _)].
      * rewrite Et. lia.
      * congruence.
      * destruct Hc as (_ & _ & (_ & _ & _ & _ & _ & Htl & _)).
        apply isOngoing_flags in Ho as (_ & _ & Ht).
        specialize (Htl Ht). lia.
Qed.

(** X11. A game cannot outlast its clock: whatever the player does, a
    session is over once the events since a state contain as many clock
    ticks as that state had seconds left, sixty for a new game. *)
Theorem game_ends_in_time (events : list Event) (s : State) :
  inSession s -> (Z.to_nat (timeLeft s) <= clockTicks events)%nat ->
  isOngoing (run events s) = false
  /\ run events s = run (events ++ [ClockTick]) s.
Proof.
  intros Hs Hn. pose proof (inSession_consistent s Hs) as Hc.
  pose proof (clock_runs_out events s Hc Hn) as Hoff.
  split; [exact Hoff|].
  unfold run. rewrite fold_left_app. simpl.
  symmetry. now apply onClockTick_terminal.
Qed.

(** The demo game with two moves and sixty ticks is over. *)
Lemma game_ends_in_time_witness :
  isOngoing (run (pacing 2 ++ repeat ClockTick 60) demoGame) = false.
Proof.
  apply (game_ends_in_time (pacing 2 ++ repeat ClockTick 60) demoGame
           demoGame_inSession).
  vm_compute. repeat constructor.
Defined.


(** ** Keys, storage and the start screen *)

(** X12. The keyboard by phase of the game.  In a finished session game,
    lost on time included, [handleKeyControls] ignores every key, and
    Enter or Space on the overlay starts a new game exactly when the
    generator returns: a running game with full counters, an empty
    trail, the bird's-eye view, the same difficulty and the next game
    number.  In a running game [handleOverlayKeys] ignores every key,
    and [handleKeyControls] changes nothing but the view and the
    message, and the view only on KeyC. *)
Theorem keys_by_phase (s : State) (code : string) (dbg : bool) :
  inSession s ->
  (isOngoing s = false ->
     handleKeyControls code s dbg = (s, dbg)
     /\ forall rnd fuel c,
          (code = "Enter" \/ code = "Space") ->
          (handleOverlayKeys rnd fuel code s c = None
           <-> initializeGameData rnd fuel (difficulty s) c = None)
          /\ forall s' c',
               handleOverlayKeys rnd fuel code s c = Some (s', c') ->
               isOngoing s' = true
               /\ playerHealth s' = INITIAL_PLAYER_HEALTH
               /\ playerMoves s' = INITIAL_PLAYER_MOVES
               /\ timeLeft s' = GAME_DURATION_SECONDS
               /\ visitedCellTrail s' = [] /\ isFpsView s' = false
               /\ currentGridIndices s' = actualStartCellIndices s'
               /\ difficulty s' = difficulty s /\ gameId s' = gameId s + 1)
  /\ (isOngoing s = true ->
        (forall rnd fuel c, handleOverlayKeys rnd fuel code s c = Some (s, c))
        /\ setLastMessage (lastMessage s)
             (setIsFpsView (isFpsView s) (fst (handleKeyControls code s dbg)))
           = s
        /\ (isFpsView (fst (handleKeyControls code s dbg)) <> isFpsView s
            <-> code = "KeyC")).
Proof.
  intros Hs. pose proof (consistent_playable s (inSession_consistent s Hs))
    as (_ & _ & Htg).
  split.
  - intros Ho.
    assert (Hg : gameOver s || hasWon s = true).
    { unfold isOngoing in Ho. apply negb_false_iff in Ho.
      destruct (gameOver s), (hasWon s), (timerGameOver s); try reflexivity;
        try discriminate. now apply Htg. }
    split; [unfold handleKeyControls; now rewrite Hg|].
    intros rnd fuel c Hcode.
    assert (E : handleOverlayKeys rnd fuel code s c
                = resetGame rnd fuel (difficulty s) None s c).
    { unfold handleOverlayKeys.
      replace (gameOver s || hasWon s || timerGameOver s) with true
        by (now rewrite Hg).
      destruct Hcode as [-> | ->]; reflexivity. }
    rewrite E. unfold resetGame, bind.
    destruct (initializeGameData rnd fuel (difficulty s) c)
      as [[[[grid st] en] c1]|].
    + split; [split; discriminate|].
      unfold ret. intros s' c' [= <- _]. simpl. repeat split.
    + split; [split; reflexivity|]. discriminate.
  - intros Ho. pose proof Ho as Hflags.
    apply isOngoing_flags in Hflags as (Hg & Hw & Ht).
    split; [|split].
    + intros rnd fuel c. unfold handleOverlayKeys. now rewrite Hg, Hw, Ht.
    + unfold handleKeyControls. rewrite Hg, Hw. simpl.
      destruct (String.eqb code "KeyC"); destruct s; reflexivity.
    + unfold handleKeyControls. rewrite Hg, Hw. simpl.
      destruct (String.eqb_spec code "KeyC") as [E|E].
      * split; [intros _; exact E|]. intros _.
        destruct s as [d g gr ps sm em cur st en tr h m t go tg w msg fps dbg'].
        simpl. now destruct fps.
      * split; [intros H; now elim H|]. intros H; now elim E.
Qed.

(** The demo game lost on time: KeyC is ignored, although the handler
    tests [gameOver] and [hasWon] only. *)
Lemma keys_by_phase_witness :
  handleKeyControls "KeyC" demoTimedOut false = (demoTimedOut, false).
Proof.
  destruct (keys_by_phase demoTimedOut "KeyC" false
              (inSession_run _ _ demoGame_inSession)) as [H _].
  apply H. vm_compute; reflexivity.
Defined.

Lemma storageKey_inj (p q : string) : storageKey p = storageKey q -> p = q.
Proof. unfold storageKey; simpl. now intros [= ->]. Qed.

(** X13. Save and load through local storage.  After [handleSaveGame]
    under a name, [handleLoadGame] under that name returns the saved
    snapshot, whatever the storage held before, and the snapshot reads
    back as the [GameState] that was saved; the saved games of all other
    names are as before; and a second save under the name replaces the
    first.  The Load button of the page then restores a running session
    state from the snapshot kept by [App]: board, cells, trail, player
    and clock are those of the saved state, and the result is again a
    session state. *)
Theorem storage_save_load (storage : Storage) (p : string) (s : State) :
  let storage' := fst (handleSaveGame p s storage) in
  handleLoadGameFrom storage' p
  = Some (GameState_toJSON (currentGameStateForSave p s))
  /\ (loadedData <-? handleLoadGameFrom storage' p ;; asGameState loadedData)
     = Some (currentGameStateForSave p s)
  /\ (forall q, q <> p ->
        handleLoadGameFrom storage' q = handleLoadGameFrom storage q)
  /\ (forall s2 q,
        handleLoadGameFrom (fst (handleSaveGame p s2 storage')) q
        = handleLoadGameFrom (fst (handleSaveGame p s2 storage)) q)
  /\ (inSession s -> isOngoing s = true ->
      forall rnd fuel s2 c,
      exists s',
        handleLoadFromSavedState rnd fuel (snd (handleSaveGame p s storage)) s2 c
        = Some (s', c)
        /\ inSession s' /\ isOngoing s' = true
        /\ gridData s' = gridData s
        /\ currentGridIndices s' = currentGridIndices s
        /\ actualStartCellIndices s' = actualStartCellIndices s
        /\ endCell s' = endCell s
        /\ visitedCellTrail s' = visitedCellTrail s
        /\ playerHealth s' = playerHealth s /\ playerMoves s' = playerMoves s
        /\ timeLeft s' = timeLeft s
        /\ difficulty s' = difficulty s /\ isFpsView s' = isFpsView s
        /\ gameId s' = gameId s2 + 1
        /\ startMarkerPos s' = startMarkerPos s
        /\ endMarkerPos s' = endMarkerPos s
        /\ playerStartPos s' = debugPlayerPos s).
Proof.
  cbv zeta.
  assert (Hload : handleLoadGameFrom (fst (handleSaveGame p s storage)) p
                  = Some (GameState_toJSON (currentGameStateForSave p s))).
  { unfold handleLoadGameFrom, handleSaveGame, localStorage_setItem; simpl.
    rewrite String.eqb_refl.
    exact (handleLoadGame_toJSON (currentGameStateForSave p s)). }
  split; [exact Hload|]. split.
  { rewrite Hload. simpl. apply asGameState_toJSON. }
  split.
  { intros q Hq. unfold handleLoadGameFrom, handleSaveGame, localStorage_setItem.
    cbn [fst]. destruct (String.eqb_spec (storageKey q) (storageKey p)) as [E|E];
      [|reflexivity].
    apply storageKey_inj in E. contradiction. }
  split.
  { intros s2 q. unfold handleLoadGameFrom, handleSaveGame, localStorage_setItem.
    cbn [fst]. now destruct (String.eqb (storageKey q) (storageKey p)). }
  intros Hs Ho rnd fuel s2 c.
  pose proof (inSession_consistent s Hs) as (Hb & (_ & Hnd & _) & _).
  destruct Hb as (_ & _ & _ & _ & Hsm & Hem).
  eexists. split; [reflexivity|].
  split.
  { eapply (session_load rnd fuel (difficulty s) p s s2 c); [exact Hs|exact Ho|].
    reflexivity. }
  simpl. destruct (Set_ofArray_spec (visitedCellTrail s)) as [_ Heq].
  rewrite (Heq Hnd).
  split; [reflexivity|]. split; [reflexivity|].
  split; [now destruct (currentGridIndices s)|].
  do 9 (split; [reflexivity|]).
  split; [now rewrite Hsm|]. split; [now rewrite Hem|].
  symmetry; apply surjective_pairing.
Qed.

Lemma storage_save_load_witness :
  exists s',
    handleLoadFromSavedState demoRnd 2
      (snd (handleSaveGame "ann" (run (pacing 3) demoGame) (fun _ => None)))
      demoGame 0%nat = Some (s', 0%nat)
    /\ visitedCellTrail s' = ["1,0"] /\ playerMoves s' = 197.
Proof.
  destruct (storage_save_load (fun _ => None) "ann" (run (pacing 3) demoGame))
    as (_ & _ & _ & _ & H).
  destruct (H (inSession_run _ _ demoGame_inSession) ltac:(vm_compute; reflexivity)
              demoRnd 2%nat demoGame 0%nat)
    as (s' & E & _ & _ & _ & _ & _ & _ & Etr & _ & Em & _).
  exists s'. split; [exact E|]. split.
  - rewrite Etr. vm_compute; reflexivity.
  - rewrite Em. vm_compute; reflexivity.
Defined.

(** X14. The Load button of the start screen never ends in its
    name-mismatch branch: whatever the storage holds, a document that
    [handleLoadGame] returns carries the requested name.  With a blank
    name nothing is read and the screen stays; otherwise the screen
    changes to the game, after a successful load, whose document holds
    an array as trail, or after the no-saved-game message, which is
    shown exactly when [handleLoadGame] returns null. *)
Theorem handleLoadGameClick_outcomes (isBlank : string -> bool)
    (storage : Storage) (playerName : string) :
  (forall loadedState,
     handleLoadGameClick isBlank storage playerName <> NameMismatch loadedState)
  /\ (isBlank playerName = true ->
        handleLoadGameClick isBlank storage playerName = NameMissing
        /\ toggleDelay (handleLoadGameClick isBlank storage playerName) = None)
  /\ (isBlank playerName = false ->
        toggleDelay (handleLoadGameClick isBlank storage playerName) <> None
        /\ (handleLoadGameClick isBlank storage playerName = NoSavedGame
            <-> handleLoadGameFrom storage playerName = None)
        /\ forall loadedState,
             handleLoadGameClick isBlank storage playerName
             = LoadedSuccessfully loadedState ->
             handleLoadGameFrom storage playerName = Some loadedState
             /\ getProp "playerName" loadedState = Some (JString playerName)
             /\ exists items,
                  getProp "visitedCellTrail" loadedState = Some (JArray items)).
Proof.
  assert (Hdoc : forall loadedState,
             handleLoadGameFrom storage playerName = Some loadedState ->
             getProp "playerName" loadedState = Some (JString playerName)
             /\ exists items,
                  getProp "visitedCellTrail" loadedState = Some (JArray items)).
  { intros loadedState. unfold handleLoadGameFrom, handleLoadGame.
    destruct (storage (storageKey playerName)) as [[| | | | |props]|];
      try discriminate.
    destruct (assoc "playerName" props) as [[| | |n| |]|] eqn:En;
      try discriminate.
    destruct (String.eqb_spec n playerName) as [->|Hne]; [|discriminate].
    intros [= <-]. unfold getProp. split.
    - rewrite assoc_assign_other by discriminate. exact En.
    - rewrite assoc_assign_same.
      destruct (assoc "visitedCellTrail" props) as [[| | | |items|]|];
        eexists; reflexivity. }
  unfold handleLoadGameClick.
  split; [|split].
  - intros loadedState. destruct (isBlank playerName); [discriminate|].
    destruct (handleLoadGameFrom storage playerName) as [doc|] eqn:E;
      [|discriminate].
    destruct (Hdoc doc eq_refl) as [-> _]. now rewrite String.eqb_refl.
  - intros ->. split; reflexivity.
  - intros ->.
    destruct (handleLoadGameFrom storage playerName) as [doc|] eqn:E.
    + destruct (Hdoc doc eq_refl) as [En Htr]. rewrite En, String.eqb_refl.
      split; [discriminate|]. split; [split; discriminate|].
      intros loadedState [= <-]. split; [reflexivity|]. split; assumption.
    + split; [discriminate|]. split; [split; reflexivity|]. discriminate.
Qed.

Lemma handleLoadGameClick_outcomes_witness :
  handleLoadGameClick (fun n => String.eqb n EmptyString) (fun _ => None) EmptyString
  = NameMissing
  /\ toggleDelay (handleLoadGameClick (fun n => String.eqb n EmptyString)
                    (fun _ => None) "ann") <> None.
Proof.
  destruct (handleLoadGameClick_outcomes (fun n => String.eqb n EmptyString)
              (fun _ => None) EmptyString) as (_ & H & _).
  destruct (handleLoadGameClick_outcomes (fun n => String.eqb n EmptyString)
              (fun _ => None) "ann") as (_ & _ & H').
  split; [apply H; reflexivity|apply H'; reflexivity].
Defined.


(** ** The draws of the generator *)





Lemma pickEffectType_thresholds (d : Draw) :
  pickEffectType (Draw_value d) =
  if Qltb (Draw_value d) (1 # 3) then SPEEDER
  else if Qltb (Draw_value d) (2 # 3) then LAVA else MUD.
Proof.
  pose proof (effectIndex_range d) as Hr.
  unfold pickEffectType. revert Hr. unfold effectIndex, Math_floor.
  change (inject_Z (Z.of_nat (List.length effectCellTypes))) with 3%Q.
  set (r := Draw_value d).
  pose proof (Qfloor_le (r * 3)) as H1.
  pose proof (Qlt_floor (r * 3)) as H2.
  rewrite inject_Z_plus in H2. change (inject_Z 1) with 1%Q in H2.
  intros Hr.
  assert (Hcase : Qfloor (r * 3) = 0 \/ Qfloor (r * 3) = 1 \/ Qfloor (r * 3) = 2)
    by lia.
  destruct (Qltb r (1 # 3)) eqn:E3;
    [apply Qltb_lt in E3|apply Qltb_ge in E3];
    [|destruct (Qltb r (2 # 3)) eqn:E6;
      [apply Qltb_lt in E6|apply Qltb_ge in E6]];
    destruct Hcase as [E|[E|E]]; rewrite E in *;
    try reflexivity; exfalso;
    change (inject_Z 0) with 0%Q in *; change (inject_Z 1) with 1%Q in *;
    change (inject_Z 2) with 2%Q in *; lra.
Qed.

Lemma generateCellType_eq (rnd : nat -> Draw)
    (startCellIndices endCellIndices : Indices) (blankCellRatio : Q)
    (i j : Z) (c : nat) :
  generateCellType rnd startCellIndices endCellIndices blankCellRatio i j c =
  if Indices_eqb (i, j) startCellIndices || Indices_eqb (i, j) endCellIndices
  then Some (BLANK, c)
  else if Qltb (Draw_value (rnd c)) blankCellRatio then Some (BLANK, S c)
  else Some ((if Qltb (Draw_value (rnd (S c))) (1 # 3) then SPEEDER
              else if Qltb (Draw_value (rnd (S c))) (2 # 3) then LAVA
              else MUD),
             S (S c)).
Proof.
  unfold generateCellType, Indices_eqb, ix, iz; cbn [fst snd].
  destruct (_ || _); [reflexivity|].
  unfold bind, Math_random, ret.
  destruct (Qltb _ blankCellRatio); [reflexivity|].
  now rewrite pickEffectType_thresholds.
Qed.

(** X16. The type of a generated cell by the draws, in a form that does
    not depend on how the products and the decimal constants are
    rounded.  The start and the end cell are Blank and consume no draw.
    Any other cell is either Blank after one draw or one of Speeder,
    Lava, Mud after two.  With a first draw [r] at least [2^-40] below
    [blankRatio] it is Blank; with [r] at least [2^-40] above, the
    second draw [r'] decides: Speeder for [r' <= 1/3 - 2^-40], Lava for
    [1/3 + 2^-40 <= r' <= 2/3 - 2^-40], Mud for [2/3 + 2^-40 <= r']. *)
Theorem generateCellType_by_draws (rnd : nat -> Draw)
    (startCellIndices endCellIndices : Indices) (blankCellRatio : Q)
    (i j : Z) (c : nat) :
  let result :=
    generateCellType rnd startCellIndices endCellIndices blankCellRatio i j c in
  let r := Draw_value (rnd c) in
  let r' := Draw_value (rnd (S c)) in
  let eps := (1 # 2 ^ 40)%Q in
  ((i, j) = startCellIndices \/ (i, j) = endCellIndices ->
   result = Some (BLANK, c))
  /\ ((i, j) <> startCellIndices -> (i, j) <> endCellIndices ->
      (result = Some (BLANK, S c)
       \/ exists t, In t effectCellTypes /\ result = Some (t, S (S c)))
      /\ ((r <= blankCellRatio - eps)%Q -> result = Some (BLANK, S c))
      /\ ((blankCellRatio + eps <= r)%Q ->
          ((r' <= (1 # 3) - eps)%Q -> result = Some (SPEEDER, S (S c)))
          /\ (((1 # 3) + eps <= r')%Q -> (r' <= (2 # 3) - eps)%Q ->
              result = Some (LAVA, S (S c)))
          /\ (((2 # 3) + eps <= r')%Q -> result = Some (MUD, S (S c))))).
Proof.
  cbv zeta. change (1 # 2 ^ 40)%Q with (1 # 1099511627776)%Q.
  rewrite generateCellType_eq.
  split.
  - intros Hse.
    replace (Indices_eqb (i, j) startCellIndices
             || Indices_eqb (i, j) endCellIndices) with true; [reflexivity|].
    symmetry. apply orb_true_iff. destruct Hse as [H|H]; [left|right];
      now apply Indices_eqb_eq.
  - intros Hs He.
    replace (Indices_eqb (i, j) startCellIndices
             || Indices_eqb (i, j) endCellIndices) with false.
    2:{ symmetry. apply orb_false_iff.
        split; apply not_true_is_false; intros H;
          apply Indices_eqb_eq in H; contradiction. }
    destruct (Qltb (Draw_value (rnd c)) blankCellRatio) eqn:Eb;
      [apply Qltb_lt in Eb|apply Qltb_ge in Eb].
    + split; [now left|]. split; [reflexivity|].
      intros Hr. exfalso. lra.
    + split.
      { right. eexists. split; [|reflexivity].
        destruct (Qltb _ (1 # 3)); [simpl; tauto|].
        destruct (Qltb _ (2 # 3)); simpl; tauto. }
      split; [intros Hr; exfalso; lra|]. intros _.
      destruct (Qltb (Draw_value (rnd (S c))) (1 # 3)) eqn:E3;
        [apply Qltb_lt in E3|apply Qltb_ge in E3].
      * split; [reflexivity|]. split; intros; exfalso; lra.
      * destruct (Qltb (Draw_value (rnd (S c))) (2 # 3)) eqn:E6;
          [apply Qltb_lt in E6|apply Qltb_ge in E6].
        -- split; [intros; exfalso; lra|].
           split; [reflexivity|intros; exfalso; lra].
        -- split; [intros; exfalso; lra|].
           split; [intros; exfalso; lra|reflexivity].
Qed.

(** The cell (0, 1) of the demo game: the first draw 0.9 is above the
    ratio 0.8 of easy, the second draw 0.5 makes it Lava. *)
Lemma generateCellType_by_draws_witness :
  generateCellType demoRnd (0, 0) (0, 12) (blankRatio easy) 0 1 6%nat
  = Some (LAVA, 8%nat).
Proof.
  destruct (generateCellType_by_draws demoRnd (0, 0) (0, 12) (blankRatio easy)
              0 1 6%nat) as (_ & H).
  destruct H as (_ & _ & H); [discriminate|discriminate|].
  destruct H as (_ & Hlava & _); [vm_compute; discriminate|].
  apply Hlava; vm_compute; discriminate.
Defined.


(** ** The shape of the board *)

Lemma NoDup_list_prod {A B} (l : list A) (l' : list B) :
  NoDup l -> NoDup l' -> NoDup (list_prod l l').
Proof.
  intros Hl Hl'. induction Hl as [|x l Hx Hl IH]; simpl; [constructor|].
  apply NoDup_app; [|exact IH|].
  - apply NoDup_map_NoDup_ForallPairs; [|exact Hl'].
    intros a b _ _ [= E]. exact E.
  - intros [a b] Hin1 Hin2. apply in_map_iff in Hin1 as (y & [= <- <-] & _).
    apply in_prod_iff in Hin2 as [Hin2 _]. contradiction.
Qed.

Lemma gridIndices_NoDup : NoDup gridIndices.
Proof.
  unfold gridIndices. apply NoDup_map_NoDup_ForallPairs; [|apply seq_NoDup].
  intros a b _ _ E. now apply Nat2Z.inj.
Qed.

Lemma allCells_NoDup : NoDup allCells.
Proof. apply NoDup_list_prod; apply gridIndices_NoDup. Qed.

Lemma Forall2_Forall_r {A B} (R : A -> B -> Prop) (P : B -> Prop)
    (l : list A) (bs : list B) :
  (forall a b, R a b -> P b) -> Forall2 R l bs -> Forall P bs.
Proof. intros HR. induction 1; constructor; eauto. Qed.

(** [gridData.flat()] read through a function of the cells. *)
Lemma grid_flat_map {C} (st en : Indices) (f : GridCell.t -> C)
    (g : Indices -> C) (K L : list Z) (grid : list (list GridCell.t)) :
  (forall i j cell, cellOk st en i j cell -> f cell = g (i, j)) ->
  Forall2 (fun i row => Forall2 (cellOk st en i) L row) K grid ->
  map f (List.concat grid) = map g (list_prod K L).
Proof.
  intros Hfg. induction 1 as [|i row K grid Hrow _ IH]; [reflexivity|].
  simpl. rewrite !map_app, IH, map_map. f_equal.
  clear -Hrow Hfg. induction Hrow as [|j cell L row Hc _ IH]; [reflexivity|].
  simpl. now rewrite IH, (Hfg _ _ _ Hc).
Qed.

(** X17. The board of a session has [GRID_SIZE] rows of [GRID_SIZE]
    cells.  [gridData.flat()], the list of planes that the scene draws,
    runs through the 625 positions of the board row by row, each cell
    carrying its own indices, the world coordinates of its indices and
    the identifier [`cell-${i}-${j}`]; no two planes share an
    identifier. *)
Theorem board_shape (s : State) :
  inSession s ->
  List.length (gridData s) = 25%nat
  /\ Forall (fun row => List.length row = 25%nat) (gridData s)
  /\ map (fun cell => (GridCell.gridX cell, GridCell.gridZ cell))
         (List.concat (gridData s)) = allCells
  /\ List.length (List.concat (gridData s)) = 625%nat
  /\ NoDup (map GridCell.id (List.concat (gridData s)))
  /\ forall cell, In cell (List.concat (gridData s)) ->
       GridCell.id cell = cellId (GridCell.gridX cell) (GridCell.gridZ cell)
       /\ GridCell.x cell = worldOfIndex (GridCell.gridX cell)
       /\ GridCell.z cell = worldOfIndex (GridCell.gridZ cell).
Proof.
  intros Hs. apply inSession_consistent in Hs as ((Hfull & _) & _).
  set (st := actualStartCellIndices s) in *. set (en := endCell s) in *.
  assert (Hcoords : map (fun cell => (GridCell.gridX cell, GridCell.gridZ cell))
                        (List.concat (gridData s)) = allCells).
  { rewrite (grid_flat_map st en _ (fun c => c) gridIndices gridIndices);
      [apply map_id| |exact Hfull].
    intros i j cell (_ & <- & <- & _). reflexivity. }
  split.
  { rewrite <- (Forall2_length Hfull). reflexivity. }
  split.
  { apply (Forall2_Forall_r _ _ _ _ (fun i row Hrow =>
             eq_trans (eq_sym (Forall2_length Hrow)) eq_refl) Hfull). }
  split; [exact Hcoords|]. split.
  { rewrite <- (length_map (fun cell => (GridCell.gridX cell, GridCell.gridZ cell))),
      Hcoords. reflexivity. }
  split.
  { rewrite (grid_flat_map st en _ (fun c => cellId (fst c) (snd c))
               gridIndices gridIndices); [| |exact Hfull].
    - apply NoDup_map_NoDup_ForallPairs; [|apply allCells_NoDup].
      intros [i j] [i' j'] Hc Hc' E. cbn [fst snd] in E.
      apply allCells_In in Hc as [Hc _], Hc' as [Hc' _].
      unfold ix in Hc, Hc'; cbn [fst] in Hc, Hc'.
      apply cellId_inj in E as [-> ->]; [reflexivity|lia|lia].
    - intros i j cell (E & _). exact E. }
  intros cell Hin.
  destruct (gridFull_cell_at _ _ _ _ Hfull Hin)
    as (i & j & _ & _ & _ & (Eid & <- & <- & Ex & Ez & _)).
  split; [exact Eid|]. split; assumption.
Qed.

Lemma board_shape_witness :
  List.length (List.concat (gridData demoGame)) = 625%nat.
Proof.
  destruct (board_shape demoGame demoGame_inSession) as (_ & _ & _ & H & _).
  exact H.
Defined.


(** ** The board, the timer and the snapshot of a session *)

(** X18. The board of every session state, restored games included, is
    as the generator made it: the start and the end cell differ, lie on
    the perimeter and are Blank; the two markers stand on the centres of
    these cells; the player is on the board; and every position sample
    falls on a cell that the board holds, so the tests for a missing
    cell in the game tick never fail. *)
Theorem session_board_valid (s : State) :
  inSession s ->
  actualStartCellIndices s <> endCell s
  /\ onPerimeter (actualStartCellIndices s) /\ onPerimeter (endCell s)
  /\ startMarkerPos s = (worldOfIndex (ix (actualStartCellIndices s)),
                         worldOfIndex (iz (actualStartCellIndices s)))
  /\ endMarkerPos s = (worldOfIndex (ix (endCell s)),
                       worldOfIndex (iz (endCell s)))
  /\ option_map GridCell.type
       (cellAt (gridData s) (ix (actualStartCellIndices s))
               (iz (actualStartCellIndices s))) = Some BLANK
  /\ option_map GridCell.type
       (cellAt (gridData s) (ix (endCell s)) (iz (endCell s))) = Some BLANK
  /\ inGrid (currentGridIndices s)
  /\ (forall position,
        exists cell,
          cellAt (gridData s) (ix (sampleCell position))
                 (iz (sampleCell position)) = Some cell
          /\ GridCell.gridX cell = ix (sampleCell position)
          /\ GridCell.gridZ cell = iz (sampleCell position))
  /\ exists cell,
       cellAt (gridData s) (ix (currentGridIndices s))
              (iz (currentGridIndices s)) = Some cell.
Proof.
  intros Hs. pose proof (inSession_consistent s Hs) as (Hb & (Hcur & _) & _).
  destruct Hb as (Hfull & Hne & Hps & Hpe & Hsm & Hem).
  pose proof (gridFull_gridOk _ _ _ Hfull) as Hgrid.
  split; [exact Hne|]. split; [exact Hps|]. split; [exact Hpe|].
  split; [exact Hsm|]. split; [exact Hem|].
  split.
  { destruct (gridOk_cell _ _ _ _ Hgrid (proj1 Hps))
      as (cell & -> & (_ & _ & _ & _ & _ & _ & Hblank)).
    simpl. rewrite Hblank; [reflexivity|]. left.
    symmetry; apply surjective_pairing. }
  split.
  { destruct (gridOk_cell _ _ _ _ Hgrid (proj1 Hpe))
      as (cell & -> & (_ & _ & _ & _ & _ & _ & Hblank)).
    simpl. rewrite Hblank; [reflexivity|]. right.
    symmetry; apply surjective_pairing. }
  split; [exact Hcur|]. split.
  { intros position.
    destruct (gridOk_cell _ _ _ _ Hgrid (sampleCell_inGrid position))
      as (cell & E & (_ & Hx & Hz & _)).
    exists cell. split; [exact E|]. split; assumption. }
  destruct (gridOk_cell _ _ _ _ Hgrid Hcur) as (cell & E & _).
  now exists cell.
Qed.

Lemma session_board_valid_witness :
  actualStartCellIndices (run (pacing 3) demoGame)
  <> endCell (run (pacing 3) demoGame).
Proof.
  destruct (session_board_valid (run (pacing 3) demoGame)
              (inSession_run _ _ demoGame_inSession)) as (H & _).
  exact H.
Defined.

(** X19. In a session the timer effect by itself never changes the
    state: its time-out branch is only taken on the state left by the
    decrement that takes the clock to 0, which [onClockTick] commits in
    one go.  The one-second interval is armed exactly while the game
    runs, and a tick of the clock changes the state exactly then. *)
Theorem timer_idle_in_session (s : State) :
  inSession s ->
  timerEffect s = s
  /\ timerArmed s = isOngoing s
  /\ (onClockTick s <> s <-> isOngoing s = true)
  /\ (isOngoing s = true -> timeLeft (onClockTick s) = timeLeft s - 1).
Proof.
  intros Hs. pose proof (inSession_consistent s Hs) as Hc.
  pose proof (consistent_timerEffect s Hc) as Heff.
  destruct Hc as (_ & _ & (_ & _ & _ & _ & _ & Htl & _)).
  assert (Harm : timerArmed s = isOngoing s).
  { unfold timerArmed, isOngoing.
    destruct (gameOver s || hasWon s || timerGameOver s) eqn:E; [reflexivity|].
    apply orb_false_iff in E as [_ Ht]. specialize (Htl Ht).
    replace (timeLeft s <=? 0) with false by (symmetry; apply Z.leb_gt; lia).
    reflexivity. }
  split; [exact Heff|]. split; [exact Harm|].
  destruct (onClockTick_cases s)
    as [(Ho & Hpos & Et & _)|([Hoff|Hle] & E)].
  - split; [|intros _; exact Et].
    split; [intros _; exact Ho|]. intros _ Heq. rewrite Heq in Et. lia.
  - split; [|intros Ho; congruence].
    split; [intros Hne; now elim Hne|intros Ho; congruence].
  - assert (Hoff : isOngoing s = false).
    { destruct (isOngoing s) eqn:Ho; [|reflexivity].
      apply isOngoing_flags in Ho as (_ & _ & Ht). specialize (Htl Ht). lia. }
    split; [|intros Ho; congruence].
    split; [intros Hne; now elim Hne|intros Ho; congruence].
Qed.

Lemma timer_idle_in_session_witness :
  timerEffect demoGame = demoGame /\ timerArmed demoTimedOut = false.
Proof.
  destruct (timer_idle_in_session demoGame demoGame_inSession) as (H & _).
  destruct (timer_idle_in_session demoTimedOut
              (inSession_run _ _ demoGame_inSession)) as (_ & H' & _).
  split; [exact H|]. rewrite H'. vm_compute; reflexivity.
Defined.

(** X20. The snapshot that the Save button takes of a session state
    always carries a cell type for the player's cell, so the [null]
    fallback of [currentCellType] is never stored, Blank when the
    player is on the start cell; its trail array has no repetition; the
    button being enabled only while the game runs, the three flags of
    the snapshot are false and its health, moves and time left are
    positive; and the snapshot written as a document reads back as
    itself. *)
Theorem snapshot_of_session (playerName : string) (s : State) :
  inSession s ->
  let snapshot := currentGameStateForSave playerName s in
  (exists t,
     GameState.currentCellType (GameState.game snapshot) = Some t
     /\ (currentGridIndices s = actualStartCellIndices s -> t = BLANK))
  /\ NoDup (GameState.visitedCellTrail snapshot)
  /\ asGameState (GameState_toJSON snapshot) = Some snapshot
  /\ (isOngoing s = true ->
        GameState.isOver (GameState.game snapshot) = false
        /\ GameState.hasWon (GameState.game snapshot) = false
        /\ GameState.timerGameOver (GameState.game snapshot) = false
        /\ 0 < GameState.health (GameState.player snapshot)
        /\ 0 < GameState.moves (GameState.player snapshot)
        /\ 0 < GameState.timeLeft (GameState.game snapshot)).
Proof.
  intros Hs. cbv zeta.
  pose proof (inSession_consistent s Hs) as (Hb & (Hcur & Hnd & _) & Hf).
  destruct Hb as (Hfull & _).
  pose proof (gridFull_gridOk _ _ _ Hfull) as Hgrid.
  split.
  { destruct (gridOk_cell _ _ _ _ Hgrid Hcur)
      as (cell & E & (_ & _ & _ & _ & _ & _ & Hblank)).
    exists (GridCell.type cell). simpl. rewrite E. split; [reflexivity|].
    intros Heq. apply Hblank. left. rewrite <- Heq.
    symmetry; apply surjective_pairing. }
  split; [exact Hnd|]. split; [apply asGameState_toJSON|].
  intros Ho. apply isOngoing_flags in Ho as (Hg & Hw & Ht).
  destruct Hf as (_ & _ & _ & _ & Hpos & Htl & _).
  destruct Hpos as [Hh Hm]; [now left|]. specialize (Htl Ht).
  simpl. repeat split; assumption.
Qed.

Lemma snapshot_of_session_witness :
  GameState.currentCellType
    (GameState.game
       (currentGameStateForSave "ann" (run [PositionSample atLava] demoGame)))
  = Some LAVA
  /\ NoDup (GameState.visitedCellTrail
              (currentGameStateForSave "ann"
                 (run [PositionSample atLava] demoGame))).
Proof.
  split; [vm_compute; reflexivity|].
  destruct (snapshot_of_session "ann" (run [PositionSample atLava] demoGame)
              (inSession_run _ _ demoGame_inSession)) as (_ & H & _).
  exact H.
Defined.
